(** * NFLv2 rating and prediction engine: a shallow embedding

    The development follows the JavaScript sources file by file:

    - [JsNumber], [JsString], [JsObject], [JsEffect]: the fragment of the
      language that the sources use: numbers, the string built-ins,
      objects as dictionaries and arrays, and the effects (the log, the
      clock, exceptions);
    - [Constants]: [src/core/constants.js];
    - [StatsParser]: [src/utils/stats-parser.js];
    - [Efficiency]: [src/models/efficiency.js];
    - [Elo]: [src/models/elo.js];
    - [Predictor]: [src/models/predictor.js];
    - [Vocabulary], [Examples]: the predicates of the properties, and sample
      data;
    - then the properties, model by model.

    Numbers.  A JavaScript number is an IEEE double.  It is modelled as an
    exact rational, or one of NaN, +Infinity, -Infinity.  Rounding of
    doubles, overflow to Infinity and the sign of zero are not modelled:
    the model computes what the machine computes on integers below 2^53
    and wherever no operation rounds.  The properties are stated so that
    they hold of the doubles as well: a value that the machine rounds is
    compared, bounded or said to exist, and it is given exactly only
    where no operation rounds.

    Strings.  A string is a sequence of code units; the model has the code
    units 0..255.

    Absence.  A property that an object may lack, or an argument that may
    be [undefined], is an [option]; reading a property of [undefined]
    throws. *)

From Stdlib Require Import ZArith QArith Qround Qabs Qpower Ascii String List Lia Lqa.
From stdpp Require Import base option list gmap strings sorting.

Local Open Scope Z_scope.

(** ** Numbers *)

Module JsNumber.

Inductive number : Type :=
| Fin (q : Q)
| NaN
| PosInf
| NegInf.

Definition of_Z (z : Z) : number := Fin (inject_Z z).
Definition of_N (n : N) : number := of_Z (Z.of_N n).
Definition of_nat (n : nat) : number := of_Z (Z.of_nat n).

(** Sign of a rational: [Lt], [Eq] or [Gt] as it is below, at or above 0. *)
Definition Qsign (q : Q) : comparison := (q ?= 0)%Q.

(** The arithmetic on finite numbers is that of the rationals, kept in
    lowest terms: a result is the exact one, where the machine gives the
    double nearest to it. *)
Definition neg (a : number) : number :=
  match a with
  | Fin q => Fin (Qred (- q))
  | NaN => NaN
  | PosInf => NegInf
  | NegInf => PosInf
  end.

Definition add (a b : number) : number :=
  match a, b with
  | NaN, _ | _, NaN => NaN
  | Fin x, Fin y => Fin (Qred (x + y))
  | PosInf, NegInf | NegInf, PosInf => NaN
  | PosInf, _ | _, PosInf => PosInf
  | NegInf, _ | _, NegInf => NegInf
  end.

Definition sub (a b : number) : number := add a (neg b).

(** An infinity of the sign given by [c], NaN for the sign of zero. *)
Definition signed_inf (c : comparison) : number :=
  match c with
  | Gt => PosInf
  | Lt => NegInf
  | Eq => NaN
  end.

Definition flip (c : comparison) : comparison := CompOpp c.

Definition mul (a b : number) : number :=
  match a, b with
  | NaN, _ | _, NaN => NaN
  | Fin x, Fin y => Fin (Qred (x * y))
  | PosInf, Fin y | Fin y, PosInf => signed_inf (Qsign y)
  | NegInf, Fin y | Fin y, NegInf => signed_inf (flip (Qsign y))
  | PosInf, PosInf | NegInf, NegInf => PosInf
  | PosInf, NegInf | NegInf, PosInf => NegInf
  end.

(** Division.  A finite number over zero is an infinity of the sign of the
    numerator (the zero is taken as +0), and 0/0 is NaN. *)
Definition div (a b : number) : number :=
  match a, b with
  | NaN, _ | _, NaN => NaN
  | Fin x, Fin y =>
      match Qsign y with
      | Eq => signed_inf (Qsign x)
      | _ => Fin (Qred (x / y))
      end
  | Fin _, PosInf | Fin _, NegInf => Fin 0
  | PosInf, Fin y =>
      match Qsign y with Lt => NegInf | _ => PosInf end
  | NegInf, Fin y =>
      match Qsign y with Lt => PosInf | _ => NegInf end
  | _, _ => NaN
  end.

(** [a < b]; false as soon as one side is NaN. *)
Definition lt (a b : number) : bool :=
  match a, b with
  | NaN, _ | _, NaN => false
  | Fin x, Fin y => match (x ?= y)%Q with Lt => true | _ => false end
  | NegInf, Fin _ | NegInf, PosInf | Fin _, PosInf => true
  | _, _ => false
  end.

Definition gt (a b : number) : bool := lt b a.

(** [a === b] on numbers; NaN is equal to nothing. *)
Definition eq (a b : number) : bool :=
  match a, b with
  | Fin x, Fin y => Qeq_bool x y
  | PosInf, PosInf | NegInf, NegInf => true
  | _, _ => false
  end.

Definition ge (a b : number) : bool := gt a b || eq a b.
Definition le (a b : number) : bool := lt a b || eq a b.

Definition isNaN (a : number) : bool :=
  match a with NaN => true | _ => false end.

Definition isFinite (a : number) : bool :=
  match a with Fin _ => true | _ => false end.

(** ToBoolean on a number: 0 and NaN are falsy. *)
Definition truthy (a : number) : bool :=
  match a with
  | Fin q => negb (Qeq_bool q 0)
  | NaN => false
  | _ => true
  end.

(** [a || d] where [a] is a number. *)
Definition or_else (a d : number) : number := if truthy a then a else d.

(** [o.f || d] for a property that the object may lack. *)
Definition or_default (o : option number) (d : number) : number :=
  match o with
  | Some n => or_else n d
  | None => d
  end.

Definition Math_abs (a : number) : number :=
  match a with
  | Fin q => Fin (Qred (Qabs q))
  | NaN => NaN
  | _ => PosInf
  end.

(** [Math.max(a, b)]: NaN if either is NaN. *)
Definition Math_max (a b : number) : number :=
  match a, b with
  | NaN, _ | _, NaN => NaN
  | _, _ => if lt a b then b else a
  end.

Definition Math_min (a b : number) : number :=
  match a, b with
  | NaN, _ | _, NaN => NaN
  | _, _ => if lt b a then b else a
  end.

(** [Math.round]: the nearest integer, halves going up. *)
Definition Math_round (a : number) : number :=
  match a with
  | Fin q => Fin (inject_Z (Qfloor (q + (1 # 2))))
  | _ => a
  end.

(** The integer a finite number is, when it is one. *)
Definition as_integer (a : number) : option Z :=
  match a with
  | Fin q => let r := Qred q in
             if Pos.eqb (Qden r) 1 then Some (Qnum r) else None
  | _ => None
  end.

(** Built-ins that the model of numbers cannot compute: [Math.pow], which
    is transcendental, and the printing of a finite number that is not an
    integer (the shortest decimal that reads back as the same double).
    They are taken as given. *)
Class Runtime : Type := {
  Math_pow : number -> number -> number;
  fraction_to_string : Q -> string
}.

(** [Math.log], the natural logarithm, is taken as given in the same
    way. *)
Class Logarithm : Type := {
  Math_log : number -> number
}.

Declare Scope js_scope.
Delimit Scope js_scope with js.
Bind Scope js_scope with number.
Infix "+" := add : js_scope.
Infix "-" := sub : js_scope.
Infix "*" := mul : js_scope.
Infix "/" := div : js_scope.
Infix "<?" := lt : js_scope.
Infix ">?" := gt : js_scope.
Infix ">=?" := ge : js_scope.
Infix "===" := eq (at level 70, no associativity) : js_scope.
Notation "a '||' d" := (or_else a d) : js_scope.

End JsNumber.
Export JsNumber.

(** ** Strings and the string built-ins *)

Module JsString.

Local Open Scope string_scope.

Definition code (c : ascii) : N := N_of_ascii c.

(** WhiteSpace and LineTerminator code units below 256: TAB, LF, VT, FF,
    CR, SP and NBSP. *)
Definition is_whitespace (c : ascii) : bool :=
  let n := code c in
  ((9 <=? n) && (n <=? 13) || (n =? 32) || (n =? 160))%N.

Fixpoint trimStart (s : string) : string :=
  match s with
  | String c r => if is_whitespace c then trimStart r else s
  | EmptyString => EmptyString
  end.

Fixpoint trimEnd (s : string) : string :=
  match s with
  | String c r =>
      match trimEnd r with
      | EmptyString => if is_whitespace c then EmptyString else String c EmptyString
      | r' => String c r'
      end
  | EmptyString => EmptyString
  end.

Definition trim (s : string) : string := trimEnd (trimStart s).

(** [s.includes(c)] for a one-character pattern, which is all the sources
    pass. *)
Fixpoint includes (c : ascii) (s : string) : bool :=
  match s with
  | String d r => Ascii.eqb d c || includes c r
  | EmptyString => false
  end.

(** [s.split(c)] for a one-character separator.  The result is never
    empty: a string without the separator gives the one-element array. *)
Fixpoint split (c : ascii) (s : string) : list string :=
  match s with
  | String d r =>
      if Ascii.eqb d c then EmptyString :: split c r
      else match split c r with
           | h :: t => String d h :: t
           | [] => [String d EmptyString]
           end
  | EmptyString => [EmptyString]
  end.

(** [s.replace(c, '')] with a string pattern: the first occurrence only. *)
Fixpoint remove_first (c : ascii) (s : string) : string :=
  match s with
  | String d r => if Ascii.eqb d c then r else String d (remove_first c r)
  | EmptyString => EmptyString
  end.

(** Value of a digit in the given radix (at most 16). *)
Definition digit_value (radix : N) (c : ascii) : option N :=
  let n := code c in
  let v := (if (48 <=? n) && (n <=? 57) then Some (n - 48)
            else if (97 <=? n) && (n <=? 102) then Some (n - 87)
            else if (65 <=? n) && (n <=? 70) then Some (n - 55)
            else None)%N in
  match v with
  | Some d => if (d <? radix)%N then Some d else None
  | None => None
  end.

(** The longest prefix of digits, as digit values, and what follows. *)
Fixpoint span_digits (radix : N) (s : string) : list N * string :=
  match s with
  | String c r =>
      match digit_value radix c with
      | Some d => let '(ds, rest) := span_digits radix r in (d :: ds, rest)
      | None => ([], s)
      end
  | EmptyString => ([], EmptyString)
  end.

Definition digits_value (radix : N) (ds : list N) : N :=
  fold_left (fun acc d => (acc * radix + d)%N) ds 0%N.

(** An optional sign: whether it is a minus, and what follows. *)
Definition scan_sign (s : string) : bool * string :=
  match s with
  | String c r =>
      if Ascii.eqb c "-" then (true, r)
      else if Ascii.eqb c "+" then (false, r)
      else (false, s)
  | EmptyString => (false, s)
  end.

(** What follows a [0x] prefix, in either case of the letter [x]. *)
Definition strip_radix_prefix (x X : ascii) (s : string) : option string :=
  match s with
  | String a (String b r) =>
      if Ascii.eqb a "0" && (Ascii.eqb b x || Ascii.eqb b X) then Some r else None
  | _ => None
  end.

Fixpoint strip_prefix (p s : string) : option string :=
  match p, s with
  | EmptyString, _ => Some s
  | String a p', String b s' => if Ascii.eqb a b then strip_prefix p' s' else None
  | String _ _, EmptyString => None
  end.

Definition signed (negative : bool) (n : N) : Z :=
  if negative then - Z.of_N n else Z.of_N n.

(** [parseInt(s)] without a radix: leading white space is skipped, a sign
    is read, a [0x] or [0X] prefix selects radix 16, and the longest run of
    digits is the value; NaN when there is no digit. *)
Definition parseInt (s : string) : number :=
  let '(negative, s1) := scan_sign (trimStart s) in
  let '(radix, s2) :=
    match strip_radix_prefix "x" "X" s1 with
    | Some r => (16%N, r)
    | None => (10%N, s1)
    end in
  match span_digits radix s2 with
  | ([], _) => NaN
  | (ds, _) => of_Z (signed negative (digits_value radix ds))
  end.

(** The exponent part [e±ddd] when it is complete, else nothing is read. *)
Definition scan_exponent (s : string) : Z * string :=
  match s with
  | String c r =>
      if Ascii.eqb c "e" || Ascii.eqb c "E" then
        let '(negative, r1) := scan_sign r in
        match span_digits 10 r1 with
        | ([], _) => (0, s)
        | (ds, r2) => (signed negative (digits_value 10 ds), r2)
        end
      else (0, s)
  | EmptyString => (0, s)
  end.

(** The longest prefix that is a StrDecimalLiteral: its value and what
    follows it. *)
Definition scan_decimal (s : string) : option (number * string) :=
  let '(negative, s1) := scan_sign s in
  match strip_prefix "Infinity" s1 with
  | Some r => Some (if negative then NegInf else PosInf, r)
  | None =>
      let '(ip, s2) := span_digits 10 s1 in
      let '(fp, s3) :=
        match s2 with
        | String c r => if Ascii.eqb c "." then span_digits 10 r else ([], s2)
        | EmptyString => ([], s2)
        end in
      match (ip ++ fp)%list with
      | [] => None
      | ds =>
          let '(e, s4) := scan_exponent s3 in
          let m := inject_Z (signed negative (digits_value 10 ds)) in
          Some (Fin (Qred (m * Qpower (10 # 1) (e - Z.of_nat (length fp)))), s4)
      end
  end.

(** [parseFloat(s)]. *)
Definition parseFloat (s : string) : number :=
  match scan_decimal (trimStart s) with
  | Some (v, _) => v
  | None => NaN
  end.

(** A [0x], [0o] or [0b] integer literal taking the whole string. *)
Definition scan_radix_literal (s : string) : option number :=
  let lit radix r :=
    match span_digits radix r with
    | (d :: ds, EmptyString) => Some (of_N (digits_value radix (d :: ds)))
    | _ => None
    end in
  match strip_radix_prefix "x" "X" s with
  | Some r => lit 16%N r
  | None =>
      match strip_radix_prefix "o" "O" s with
      | Some r => lit 8%N r
      | None =>
          match strip_radix_prefix "b" "B" s with
          | Some r => lit 2%N r
          | None => None
          end
      end
  end.

(** [Number(s)] on a string: white space is trimmed on both sides, the
    empty string is 0, and anything that is not a numeric literal as a
    whole is NaN. *)
Definition StringToNumber (s : string) : number :=
  match trim s with
  | EmptyString => Fin 0
  | t =>
      match scan_radix_literal t with
      | Some v => v
      | None =>
          match scan_decimal t with
          | Some (v, EmptyString) => v
          | _ => NaN
          end
      end
  end.

(** *** Digit strings *)

Definition is_decimal_digit (c : ascii) : bool :=
  ((48 <=? code c) && (code c <=? 57))%N.

Fixpoint all_decimal_digits (s : string) : bool :=
  match s with
  | String c r => is_decimal_digit c && all_decimal_digits r
  | EmptyString => true
  end.

(** A numeric digit string: one decimal digit or more, and nothing else. *)
Definition digit_string (s : string) : Prop :=
  s <> EmptyString /\ all_decimal_digits s = true.

Fixpoint decimal_value_from (acc : N) (s : string) : N :=
  match s with
  | String c r => decimal_value_from (acc * 10 + (code c - 48)) r
  | EmptyString => acc
  end.

(** The number that a digit string writes in base ten. *)
Definition decimal_value (s : string) : N := decimal_value_from 0 s.

(** *** Printing *)

Definition digit_char (d : N) : ascii := ascii_of_N (48 + d).

Fixpoint decimal_fuel (fuel : nat) (n : N) (acc : string) : string :=
  match fuel with
  | O => acc
  | S f =>
      let acc' := String (digit_char (n mod 10)) acc in
      if (n / 10 =? 0)%N then acc' else decimal_fuel f (n / 10) acc'
  end.

(** The decimal digits of [n], without leading zeros. *)
Definition decimal (n : N) : string :=
  decimal_fuel (S (N.to_nat (N.log2 n))) n EmptyString.

Definition Z_to_string (z : Z) : string :=
  if (z <? 0)%Z then String "-" (decimal (Z.abs_N z)) else decimal (Z.abs_N z).

Section Printing.

Context `{Runtime}.

(** ToString on a number, as in a template literal.  Integers print as
    their decimal digits, which is what JavaScript prints below 1e21. *)
Definition number_to_string (a : number) : string :=
  match a with
  | Fin q =>
      match as_integer a with
      | Some z => Z_to_string z
      | None => fraction_to_string q
      end
  | NaN => "NaN"
  | PosInf => "Infinity"
  | NegInf => "-Infinity"
  end.

(** The template literal [`${a}-${b}`]. *)
Definition score_string (a b : number) : string :=
  number_to_string a ++ "-" ++ number_to_string b.

End Printing.

Fixpoint zeros (n : nat) : string :=
  match n with
  | O => EmptyString
  | S k => String "0" (zeros k)
  end.

(** [a.toFixed(f)], for magnitudes below 1e21: the sign, then the digits of
    the nearest integer to [|a| * 10^f] (halves going up) with the decimal
    point before the last [f] of them. *)
Definition toFixed (a : number) (f : nat) : string :=
  match a with
  | Fin q =>
      let s := match Qsign q with Lt => "-" | _ => "" end in
      let n := Z.to_N (Qfloor (Qabs q * Qpower (10 # 1) (Z.of_nat f) + (1 # 2))) in
      let m := decimal n in
      let m := zeros (S f - String.length m) ++ m in
      let k := (String.length m - f)%nat in
      match f with
      | O => s ++ m
      | _ => s ++ substring 0 k m ++ "." ++ substring k f m
      end
  | NaN => "NaN"
  | PosInf => "Infinity"
  | NegInf => "-Infinity"
  end.

(** [s.toLowerCase()] on the code units below 256: the letters A-Z, and
    the capitals of Latin-1, which are 192..222 but the sign at 215. *)
Definition toLowerCase_unit (c : ascii) : ascii :=
  let n := code c in
  if ((65 <=? n) && (n <=? 90) || (192 <=? n) && (n <=? 222) && negb (n =? 215))%N
  then ascii_of_N (n + 32)
  else c.

Fixpoint toLowerCase (s : string) : string :=
  match s with
  | String c r => String (toLowerCase_unit c) (toLowerCase r)
  | EmptyString => EmptyString
  end.

(** [s.replace(/p/g, '')] for a pattern [p] that matches single code units,
    or runs of them: every code unit that matches goes. *)
Fixpoint remove_all (p : ascii -> bool) (s : string) : string :=
  match s with
  | String c r => if p c then remove_all p r else String c (remove_all p r)
  | EmptyString => EmptyString
  end.

(** ToBoolean on a string: only the empty string is falsy. *)
Definition nonempty (s : string) : bool :=
  match s with
  | EmptyString => false
  | _ => true
  end.

End JsString.
Export JsString.

(** ** Objects *)

Module JsObject.

(** An object used as a dictionary whose key order matters: its entries in
    the order [Object.keys] lists them.  An object has each key once. *)
Definition dict (V : Type) : Type := list (string * V).

Definition keys {V} (o : dict V) : list string := o.*1.

(** [o[k]], [None] standing for [undefined]. *)
Fixpoint get {V} (o : dict V) (k : string) : option V :=
  match o with
  | (k', v) :: r => if String.eqb k' k then Some v else get r k
  | [] => None
  end.

Definition well_formed {V} (o : dict V) : Prop := NoDup (keys o).

(** [l.filter(p)]. *)
Definition Array_filter {A} (p : A -> bool) (l : list A) : list A :=
  List.filter p l.

(** [l.reduce(f, init)] where [f] also takes the index. *)
Fixpoint reduce_from {A B} (f : B -> A -> nat -> B) (index : nat) (l : list A) (acc : B) : B :=
  match l with
  | [] => acc
  | x :: r => reduce_from f (S index) r (f acc x index)
  end.

Definition Array_reduce {A B} (f : B -> A -> nat -> B) (l : list A) (init : B) : B :=
  reduce_from f 0 l init.

(** [l.sort(cmp)].  The language requires the sort to be stable, and with
    a comparator that is a consistent ordering every stable sort gives the
    same array; the model is insertion sort.  [cmp(x, y) > 0] puts [y]
    first, and a NaN from the comparator counts as 0. *)
Fixpoint sort_insert {A} (cmp : A -> A -> number) (x : A) (l : list A) : list A :=
  match l with
  | [] => [x]
  | y :: r => if (cmp x y >? Fin 0)%js then y :: sort_insert cmp x r else x :: l
  end.

Definition Array_sort {A} (cmp : A -> A -> number) (l : list A) : list A :=
  foldr (sort_insert cmp) [] l.

(** [o[k] = v]: the value changes in place when the object has the key,
    and else the key is added last (the keys of these sources are not array
    indices, which would come first). *)
Fixpoint assign {V} (o : dict V) (k : string) (v : V) : dict V :=
  match o with
  | (k', v') :: r => if String.eqb k' k then (k', v) :: r else (k', v') :: assign r k v
  | [] => [(k, v)]
  end.

(** [Object.fromEntries(entries)]. *)
Definition Object_fromEntries {V} (entries : list (string * V)) : dict V :=
  fold_left (fun o '(k, v) => assign o k v) entries [].

(** The names of the properties that an object literal inherits from
    [Object.prototype].  Each of them reads as a function, and [__proto__]
    as the prototype object: all truthy, none a string or a number. *)
Definition Object_prototype : list string :=
  ["constructor"; "__defineGetter__"; "__defineSetter__"; "hasOwnProperty";
   "__lookupGetter__"; "__lookupSetter__"; "isPrototypeOf"; "propertyIsEnumerable";
   "toString"; "valueOf"; "__proto__"; "toLocaleString"]%string.

(** What [o[k]] reads on an object literal, for any string [k]: a property
    of its own, an inherited one, or [undefined]. *)
Inductive property (V : Type) : Type :=
| Own (v : V)
| Inherited (name : string)
| Absent.
Arguments Own {V} v.
Arguments Inherited {V} name.
Arguments Absent {V}.

Definition property_at {V} (o : dict V) (k : string) : property V :=
  match get o k with
  | Some v => Own v
  | None => if bool_decide (k ∈ Object_prototype) then Inherited k else Absent
  end.

(** [o.hasOwnProperty(k)]. *)
Definition hasOwnProperty {V} (o : dict V) (k : string) : bool :=
  bool_decide (is_Some (get o k)).

End JsObject.
Export JsObject.

(** ** Effects: the log, the clock, exceptions *)

Module JsEffect.

Local Open Scope string_scope.

(** A thrown value.  The only throws of these sources are the language's
    own, on reading a property of [undefined]. *)
Inductive exn : Type :=
| TypeError (property : string).

(** [error.message], as V8 words it. *)
Definition message_of (e : exn) : string :=
  match e with
  | TypeError p => "Cannot read properties of undefined (reading '" ++ p ++ "')"
  end.

Inductive log_level : Type := LevelError | LevelWarn | LevelInfo | LevelDebug.

(** One call of the logger: the level, the message and the context object
    as its properties. *)
Record log_entry : Type := {
  level : log_level;
  message : string;
  context : list (string * string)
}.

(** What the sources can observe and change outside their arguments: the
    entries logged so far (latest last) and the clock. *)
Record world : Type := {
  log : list log_entry;
  clock : nat
}.

Inductive outcome (A : Type) : Type :=
| Return (a : A)
| Throw (e : exn).
Arguments Return {A} a.
Arguments Throw {A} e.

Definition M (A : Type) : Type := world -> outcome A * world.

#[export] Instance M_ret : MRet M := fun A a w => (Return a, w).

#[export] Instance M_bind : MBind M := fun A B f m w =>
  match m w with
  | (Return a, w') => f a w'
  | (Throw e, w') => (Throw e, w')
  end.

Definition throw {A} (e : exn) : M A := fun w => (Throw e, w).

(** [try { body } catch (error) { handler }]. *)
Definition try_catch {A} (body : M A) (handler : exn -> M A) : M A := fun w =>
  match body w with
  | (Return a, w') => (Return a, w')
  | (Throw e, w') => handler e w'
  end.

(** The logger of [utils/logger.js] is not among the sources: a call
    appends its entry to the log and returns. *)
Definition logger (l : log_level) (msg : string) (ctx : list (string * string)) : M unit :=
  fun w => (Return tt, {| log := log w ++ [{| level := l; message := msg; context := ctx |}];
                          clock := clock w |}).

Definition logger_error := logger LevelError.
Definition logger_warn := logger LevelWarn.
Definition logger_info := logger LevelInfo.
Definition logger_debug := logger LevelDebug.

(** [new Date().toISOString()]: the instant the clock shows, as the number
    of ticks; the clock moves on. *)
Definition now : M nat := fun w =>
  (Return (clock w), {| log := log w; clock := S (clock w) |}).

(** Reading [o.p] where [o] may be [undefined]. *)
Definition read {O A} (o : option O) (p : string) (f : O -> A) : M A :=
  match o with
  | Some x => mret (f x)
  | None => throw (TypeError p)
  end.

End JsEffect.
Export JsEffect.

(** ** [src/core/constants.js] *)

Module Constants.

Local Open Scope string_scope.

(** The keys of [NFL_TEAMS], in the order of the literal. *)
Definition NFL_TEAMS : list string :=
  ["Arizona Cardinals"; "Atlanta Falcons"; "Baltimore Ravens"; "Buffalo Bills";
   "Carolina Panthers"; "Chicago Bears"; "Cincinnati Bengals"; "Cleveland Browns";
   "Dallas Cowboys"; "Denver Broncos"; "Detroit Lions"; "Green Bay Packers";
   "Houston Texans"; "Indianapolis Colts"; "Jacksonville Jaguars";
   "Kansas City Chiefs"; "Las Vegas Raiders"; "Los Angeles Chargers";
   "Los Angeles Rams"; "Miami Dolphins"; "Minnesota Vikings";
   "New England Patriots"; "New Orleans Saints"; "New York Giants";
   "New York Jets"; "Philadelphia Eagles"; "Pittsburgh Steelers";
   "San Francisco 49ers"; "Seattle Seahawks"; "Tampa Bay Buccaneers";
   "Tennessee Titans"; "Washington Commanders"].

(** The team objects of [NFL_TEAMS]. *)
Module Team.
Record Team : Type := {
  abbrev : string;
  location : string;
  name : string;
  conference : string;
  division : string
}.
End Team.
Abbreviation Team := Team.Team.

(** [NFL_TEAMS] with its values. *)
Definition NFL_TEAMS_entries : dict Team :=
  [
   ("Arizona Cardinals",
    {| Team.abbrev := "ARI"; Team.location := "Arizona"; Team.name := "Cardinals";
       Team.conference := "NFC"; Team.division := "West" |});
   ("Atlanta Falcons",
    {| Team.abbrev := "ATL"; Team.location := "Atlanta"; Team.name := "Falcons";
       Team.conference := "NFC"; Team.division := "South" |});
   ("Baltimore Ravens",
    {| Team.abbrev := "BAL"; Team.location := "Baltimore"; Team.name := "Ravens";
       Team.conference := "AFC"; Team.division := "North" |});
   ("Buffalo Bills",
    {| Team.abbrev := "BUF"; Team.location := "Buffalo"; Team.name := "Bills";
       Team.conference := "AFC"; Team.division := "East" |});
   ("Carolina Panthers",
    {| Team.abbrev := "CAR"; Team.location := "Carolina"; Team.name := "Panthers";
       Team.conference := "NFC"; Team.division := "South" |});
   ("Chicago Bears",
    {| Team.abbrev := "CHI"; Team.location := "Chicago"; Team.name := "Bears";
       Team.conference := "NFC"; Team.division := "North" |});
   ("Cincinnati Bengals",
    {| Team.abbrev := "CIN"; Team.location := "Cincinnati"; Team.name := "Bengals";
       Team.conference := "AFC"; Team.division := "North" |});
   ("Cleveland Browns",
    {| Team.abbrev := "CLE"; Team.location := "Cleveland"; Team.name := "Browns";
       Team.conference := "AFC"; Team.division := "North" |});
   ("Dallas Cowboys",
    {| Team.abbrev := "DAL"; Team.location := "Dallas"; Team.name := "Cowboys";
       Team.conference := "NFC"; Team.division := "East" |});
   ("Denver Broncos",
    {| Team.abbrev := "DEN"; Team.location := "Denver"; Team.name := "Broncos";
       Team.conference := "AFC"; Team.division := "West" |});
   ("Detroit Lions",
    {| Team.abbrev := "DET"; Team.location := "Detroit"; Team.name := "Lions";
       Team.conference := "NFC"; Team.division := "North" |});
   ("Green Bay Packers",
    {| Team.abbrev := "GB"; Team.location := "Green Bay"; Team.name := "Packers";
       Team.conference := "NFC"; Team.division := "North" |});
   ("Houston Texans",
    {| Team.abbrev := "HOU"; Team.location := "Houston"; Team.name := "Texans";
       Team.conference := "AFC"; Team.division := "South" |});
   ("Indianapolis Colts",
    {| Team.abbrev := "IND"; Team.location := "Indianapolis"; Team.name := "Colts";
       Team.conference := "AFC"; Team.division := "South" |});
   ("Jacksonville Jaguars",
    {| Team.abbrev := "JAX"; Team.location := "Jacksonville"; Team.name := "Jaguars";
       Team.conference := "AFC"; Team.division := "South" |});
   ("Kansas City Chiefs",
    {| Team.abbrev := "KC"; Team.location := "Kansas City"; Team.name := "Chiefs";
       Team.conference := "AFC"; Team.division := "West" |});
   ("Las Vegas Raiders",
    {| Team.abbrev := "LV"; Team.location := "Las Vegas"; Team.name := "Raiders";
       Team.conference := "AFC"; Team.division := "West" |});
   ("Los Angeles Chargers",
    {| Team.abbrev := "LAC"; Team.location := "Los Angeles"; Team.name := "Chargers";
       Team.conference := "AFC"; Team.division := "West" |});
   ("Los Angeles Rams",
    {| Team.abbrev := "LAR"; Team.location := "Los Angeles"; Team.name := "Rams";
       Team.conference := "NFC"; Team.division := "West" |});
   ("Miami Dolphins",
    {| Team.abbrev := "MIA"; Team.location := "Miami"; Team.name := "Dolphins";
       Team.conference := "AFC"; Team.division := "East" |});
   ("Minnesota Vikings",
    {| Team.abbrev := "MIN"; Team.location := "Minnesota"; Team.name := "Vikings";
       Team.conference := "NFC"; Team.division := "North" |});
   ("New England Patriots",
    {| Team.abbrev := "NE"; Team.location := "New England"; Team.name := "Patriots";
       Team.conference := "AFC"; Team.division := "East" |});
   ("New Orleans Saints",
    {| Team.abbrev := "NO"; Team.location := "New Orleans"; Team.name := "Saints";
       Team.conference := "NFC"; Team.division := "South" |});
   ("New York Giants",
    {| Team.abbrev := "NYG"; Team.location := "New York"; Team.name := "Giants";
       Team.conference := "NFC"; Team.division := "East" |});
   ("New York Jets",
    {| Team.abbrev := "NYJ"; Team.location := "New York"; Team.name := "Jets";
       Team.conference := "AFC"; Team.division := "East" |});
   ("Philadelphia Eagles",
    {| Team.abbrev := "PHI"; Team.location := "Philadelphia"; Team.name := "Eagles";
       Team.conference := "NFC"; Team.division := "East" |});
   ("Pittsburgh Steelers",
    {| Team.abbrev := "PIT"; Team.location := "Pittsburgh"; Team.name := "Steelers";
       Team.conference := "AFC"; Team.division := "North" |});
   ("San Francisco 49ers",
    {| Team.abbrev := "SF"; Team.location := "San Francisco"; Team.name := "49ers";
       Team.conference := "NFC"; Team.division := "West" |});
   ("Seattle Seahawks",
    {| Team.abbrev := "SEA"; Team.location := "Seattle"; Team.name := "Seahawks";
       Team.conference := "NFC"; Team.division := "West" |});
   ("Tampa Bay Buccaneers",
    {| Team.abbrev := "TB"; Team.location := "Tampa Bay"; Team.name := "Buccaneers";
       Team.conference := "NFC"; Team.division := "South" |});
   ("Tennessee Titans",
    {| Team.abbrev := "TEN"; Team.location := "Tennessee"; Team.name := "Titans";
       Team.conference := "AFC"; Team.division := "South" |});
   ("Washington Commanders",
    {| Team.abbrev := "WAS"; Team.location := "Washington"; Team.name := "Commanders";
       Team.conference := "NFC"; Team.division := "East" |})
  ].

Definition ABBREV_TO_NAME : dict string :=
  Object_fromEntries
    (map (fun '(name, data) => (Team.abbrev data, name)) NFL_TEAMS_entries).

Definition ABBREV_ALTERNATES : dict string :=
  [("WSH", "WAS"); ("LA", "LAR")].

Module MODEL_CONSTANTS.
Definition HOME_FIELD_ADVANTAGE : number := Fin (25 # 10).
Definition MATCHUP_WEIGHT : number := Fin (15 # 100).
Definition DEFAULT_THIRD_DOWN_PCT : number := Fin 40.
Definition DEFAULT_RED_ZONE_PCT : number := Fin 50.
Definition ELO_K_FACTOR : number := Fin 20.
Definition ELO_REGRESSION : number := Fin (1 # 3).
Definition ELO_BASE_RATING : number := Fin 1500.
Definition ELO_MOV_MULTIPLIER : number := Fin 1.
Definition CONFIDENCE_HIGH_THRESHOLD : number := Fin 100.
Definition CONFIDENCE_MEDIUM_THRESHOLD : number := Fin 50.
End MODEL_CONSTANTS.

Definition STAT_NAMES : dict string :=
  [
   ("passingyards", "passingYards");
   ("netpassingyards", "passingYards");
   ("passingYards", "passingYards");
   ("completionAttempts", "completionAttempts");
   ("passcompletions", "completionAttempts");
   ("rushingyards", "rushingYards");
   ("rushingYards", "rushingYards");
   ("rushingAttempts", "rushingAttempts");
   ("rushingattempts", "rushingAttempts");
   ("totalyards", "totalYards");
   ("totalYards", "totalYards");
   ("possessionTime", "possessionTime");
   ("possessiontime", "possessionTime");
   ("turnovers", "turnovers");
   ("thirddowneff", "thirdDownEff");
   ("thirdDownEff", "thirdDownEff");
   ("fourthdowneff", "fourthDownEff");
   ("fourthDownEff", "fourthDownEff");
   ("redZoneAttempts", "redZoneAttempts");
   ("redzoneeff", "redZoneEff");
   ("redZoneEff", "redZoneEff");
   ("sacks", "sacks");
   ("sacks-yardslost", "sacks");
   ("sacksYardsLost", "sacks");
   ("tacklesForLoss", "tacklesForLoss")
  ].

(** The confidence tiers, which the sources write as the strings
    ['high'], ['medium'] and ['low']. *)
Inductive Confidence : Type := high | medium | low.

#[export] Instance Confidence_eq_dec : EqDecision Confidence.
Proof. solve_decision. Defined.

End Constants.
Export Constants.

(** ** [src/utils/stats-parser.js] *)

Module StatsParser.

Local Open Scope string_scope.

(** What [normalizeStatName] returns: a string, or for a name that folds
    to the name of an inherited property (there are two such names in lower
    case, [constructor] and [__proto__]) the value of that property. *)
Inductive StatName : Type :=
| Name (s : string)
| Builtin (property : string).

(** The name without white space and dashes, in lower case. *)
Definition fold_name (rawName : string) : string :=
  toLowerCase (remove_all (Ascii.eqb "-") (remove_all is_whitespace rawName)).

Definition normalizeStatName (rawName : string) : StatName :=
  let normalized := fold_name rawName in
  match property_at STAT_NAMES normalized with
  | Own standard => if nonempty standard then Name standard else Name rawName
  | Inherited property => Builtin property
  | Absent => Name rawName
  end.

(** The made-attempts object [{made, attempts, percentage}]. *)
Record MadeAttempts : Type := {
  made : number;
  attempts : number;
  percentage : number
}.

(** The values a raw statistic can be, and what [parseStatValue] returns. *)
Inductive value : Type :=
| VUndefined
| VNull
| VBool (b : bool)
| VNum (n : number)
| VStr (s : string)
| VObj (o : MadeAttempts).

(** [parseInt(parts[i])]: an index out of range reads [undefined], which
    parses to NaN. *)
Definition parseInt_item (parts : list string) (i : nat) : number :=
  match parts !! i with
  | Some s => parseInt s
  | None => NaN
  end.

Definition StringToNumber_item (parts : list string) (i : nat) : number :=
  match parts !! i with
  | Some s => StringToNumber s
  | None => NaN
  end.

(** [parts[i] !== '0']. *)
Definition item_is_not (parts : list string) (i : nat) (s : string) : bool :=
  match parts !! i with
  | Some t => negb (String.eqb t s)
  | None => true
  end.

Definition parseStatValue (v : value) : value :=
  match v with
  | VNum n => VNum n
  | VStr s =>
      if includes "-" s then
        let parts := split "-" s in
        VObj {| made := (parseInt_item parts 0 || Fin 0)%js;
                attempts := (parseInt_item parts 1 || Fin 0)%js;
                percentage :=
                  if item_is_not parts 1 "0"
                  then (parseInt_item parts 0 / parseInt_item parts 1 * Fin 100)%js
                  else Fin 0 |}
      else if includes "%" s then
        VNum (parseFloat (remove_first "%" s) || Fin 0)%js
      else if includes ":" s then
        let parts := split ":" s in
        let mins := StringToNumber_item parts 0 in
        let secs := StringToNumber_item parts 1 in
        VNum (mins * Fin 60 + secs)%js
      else
        let num := parseFloat s in
        if isNaN num then VStr s else VNum num
  | _ => v
  end.

(** A team's season aggregate, with the fields that the ranking and the
    models read.  A field that the object does not have is [None]: a team
    without games has no averages, and [teamName] is only there on the
    copies that the predictor makes. *)
Record TeamStats : Type := {
  teamName : option string;
  games : option number;
  avgPassingYards : option number;
  avgRushingYards : option number;
  avgTotalYards : option number;
  avgPointsFor : option number;
  avgPointsAgainst : option number;
  thirdDownPct : option number;
  redZonePct : option number
}.

(** A property used as a number: [undefined] converts to NaN. *)
Definition num (o : option number) : number := default NaN o.

(** [teamAggregates[team].f] for a [team] taken from the keys of
    [teamAggregates]. *)
Definition stat (teamAggregates : dict TeamStats) (team : string)
    (f : TeamStats -> option number) : number :=
  num (get teamAggregates team ≫= f).

(** One team's statistics in one game, as [extractTeamStats] shapes them.
    The yardage and the other counts are taken to be numbers where they
    are there; an efficiency is a made-attempts object or [null]. *)
Module Box.
Record TeamBox : Type := {
  passingYards : option number;
  rushingYards : option number;
  totalYards : option number;
  turnovers : option number;
  thirdDownEff : option MadeAttempts;
  redZoneEff : option MadeAttempts;
  possessionTime : option number;
  sacks : option number
}.
End Box.

(** A game record: the statistics of its teams by name, and the scores. *)
Record GameStats : Type := {
  stats : option (dict Box.TeamBox);
  scores : option (gmap string number)
}.

(** The counters of a team's aggregate while the games are folded. *)
Module Counters.
Record Counters : Type := {
  games : number;
  passingYards : number;
  rushingYards : number;
  totalYards : number;
  turnovers : number;
  thirdDownAttempts : number;
  thirdDownConversions : number;
  redZoneAttempts : number;
  redZoneScores : number;
  possessionTime : number;
  sacks : number;
  pointsFor : number;
  pointsAgainst : number;
  wins : number;
  losses : number
}.

Definition zero : Counters :=
  {| games := Fin 0; passingYards := Fin 0; rushingYards := Fin 0; totalYards := Fin 0;
     turnovers := Fin 0; thirdDownAttempts := Fin 0; thirdDownConversions := Fin 0;
     redZoneAttempts := Fin 0; redZoneScores := Fin 0; possessionTime := Fin 0;
     sacks := Fin 0; pointsFor := Fin 0; pointsAgainst := Fin 0; wins := Fin 0;
     losses := Fin 0 |}.
End Counters.
Abbreviation Counters := Counters.Counters.

(** [o[k] = v] for a key that the object has: the value changes in place. *)
Fixpoint put {V} (o : dict V) (k : string) (v : V) : dict V :=
  match o with
  | (k', v') :: r => if String.eqb k' k then (k', v) :: r else (k', v') :: put r k v
  | [] => []
  end.

(** [teams.find(t => t !== teamName)], when it is truthy. *)
Definition opponent_of (teams : list string) (teamName : string) : option string :=
  match List.find (fun t => negb (String.eqb t teamName)) teams with
  | Some EmptyString => None
  | o => o
  end.

(** The body of the inner loop of [aggregateStats] for a team that the
    aggregates have: the counters after the game. *)
Definition add_game (game : GameStats) (teams : list string) (teamName : string)
    (box : Box.TeamBox) (agg : Counters) : Counters :=
  let made e := (made e || Fin 0)%js in
  let tried e := (attempts e || Fin 0)%js in
  let points team :=
    match scores game with
    | Some scores => scores !! team
    | None => None
    end in
  let opponent :=
    match scores game with
    | Some _ => opponent_of teams teamName
    | None => None
    end in
  {| Counters.games := (Counters.games agg + Fin 1)%js;
     Counters.passingYards :=
       (Counters.passingYards agg + or_default (Box.passingYards box) (Fin 0))%js;
     Counters.rushingYards :=
       (Counters.rushingYards agg + or_default (Box.rushingYards box) (Fin 0))%js;
     Counters.totalYards :=
       (Counters.totalYards agg + or_default (Box.totalYards box) (Fin 0))%js;
     Counters.turnovers :=
       (Counters.turnovers agg + or_default (Box.turnovers box) (Fin 0))%js;
     Counters.sacks := (Counters.sacks agg + or_default (Box.sacks box) (Fin 0))%js;
     Counters.possessionTime :=
       (Counters.possessionTime agg + or_default (Box.possessionTime box) (Fin 0))%js;
     Counters.thirdDownConversions :=
       match Box.thirdDownEff box with
       | Some e => (Counters.thirdDownConversions agg + made e)%js
       | None => Counters.thirdDownConversions agg
       end;
     Counters.thirdDownAttempts :=
       match Box.thirdDownEff box with
       | Some e => (Counters.thirdDownAttempts agg + tried e)%js
       | None => Counters.thirdDownAttempts agg
       end;
     Counters.redZoneScores :=
       match Box.redZoneEff box with
       | Some e => (Counters.redZoneScores agg + made e)%js
       | None => Counters.redZoneScores agg
       end;
     Counters.redZoneAttempts :=
       match Box.redZoneEff box with
       | Some e => (Counters.redZoneAttempts agg + tried e)%js
       | None => Counters.redZoneAttempts agg
       end;
     Counters.pointsFor :=
       match scores game with
       | Some _ => (Counters.pointsFor agg + or_default (points teamName) (Fin 0))%js
       | None => Counters.pointsFor agg
       end;
     Counters.pointsAgainst :=
       match opponent with
       | Some opponent =>
           (Counters.pointsAgainst agg + or_default (points opponent) (Fin 0))%js
       | None => Counters.pointsAgainst agg
       end;
     Counters.wins :=
       match opponent with
       | Some opponent =>
           if (num (points teamName) >? num (points opponent))%js
           then (Counters.wins agg + Fin 1)%js else Counters.wins agg
       | None => Counters.wins agg
       end;
     Counters.losses :=
       match opponent with
       | Some opponent =>
           if (num (points teamName) >? num (points opponent))%js then Counters.losses agg
           else if (num (points teamName) <? num (points opponent))%js
           then (Counters.losses agg + Fin 1)%js else Counters.losses agg
       | None => Counters.losses agg
       end |}.

(** [teams.forEach(teamName => ...)] within one game, over the entries
    [teamName, game.stats[teamName]] still to do. *)
Fixpoint add_teams (game : GameStats) (teams : list string) (todo : dict Box.TeamBox)
    (teamAggregates : dict Counters) : M (dict Counters) :=
  match todo with
  | [] => mret teamAggregates
  | (teamName, box) :: rest =>
      match get teamAggregates teamName with
      | Some agg =>
          add_teams game teams rest
            (put teamAggregates teamName (add_game game teams teamName box agg))
      | None =>
          logger_warn "Unknown team in game stats" [("teamName", teamName)];;
          add_teams game teams rest teamAggregates
      end
  end.

(** [gameStats.forEach(game => ...)]. *)
Fixpoint add_games (gameStats : list GameStats) (teamAggregates : dict Counters)
    : M (dict Counters) :=
  match gameStats with
  | [] => mret teamAggregates
  | game :: rest =>
      let boxes := default [] (stats game) in
      teamAggregates ← add_teams game (keys boxes) boxes teamAggregates;
      add_games rest teamAggregates
  end.

(** The last pass of [aggregateStats] on one team, kept to the fields of
    [TeamStats]: the averages and percentages of a team that has played.
    The counters themselves and the [record] string stay on the object
    in the source; nothing modelled here reads them. *)
Definition averages (agg : Counters) : TeamStats :=
  let per_game total := (total / Counters.games agg)%js in
  let percent made tried :=
    if (tried >? Fin 0)%js then (made / tried * Fin 100)%js else Fin 0 in
  if (Counters.games agg >? Fin 0)%js then
    {| teamName := None;
       games := Some (Counters.games agg);
       avgPassingYards := Some (per_game (Counters.passingYards agg));
       avgRushingYards := Some (per_game (Counters.rushingYards agg));
       avgTotalYards := Some (per_game (Counters.totalYards agg));
       avgPointsFor := Some (per_game (Counters.pointsFor agg));
       avgPointsAgainst := Some (per_game (Counters.pointsAgainst agg));
       thirdDownPct :=
         Some (percent (Counters.thirdDownConversions agg) (Counters.thirdDownAttempts agg));
       redZonePct :=
         Some (percent (Counters.redZoneScores agg) (Counters.redZoneAttempts agg)) |}
  else
    {| teamName := None;
       games := Some (Counters.games agg);
       avgPassingYards := None;
       avgRushingYards := None;
       avgTotalYards := None;
       avgPointsFor := None;
       avgPointsAgainst := None;
       thirdDownPct := None;
       redZonePct := None |}.

Definition aggregateStats (gameStats : list GameStats) : M (dict TeamStats) :=
  let teamAggregates := map (fun teamName => (teamName, Counters.zero)) NFL_TEAMS in
  teamAggregates ← add_games gameStats teamAggregates;
  mret (map (fun '(teamName, agg) => (teamName, averages agg)) teamAggregates).

Record Rankings : Type := {
  offensive : gmap string number;
  defensive : gmap string number;
  rushOffense : gmap string number;
  passDefense : gmap string number
}.

(** The callback at the end of each of the four chains:
    [acc[team] = index + 1]. *)
Definition set_rank (acc : gmap string number) (team : string) (index : nat)
    : gmap string number :=
  <[team := of_nat (index + 1)]> acc.

Definition number_ranks (sorted : list string) : gmap string number :=
  Array_reduce set_rank sorted ∅.

Definition calculateRankings (teamAggregates : dict TeamStats) : Rankings :=
  let teams := keys teamAggregates in
  let played team := (stat teamAggregates team games >? Fin 0)%js in
  let offensiveRank :=
    number_ranks
      (Array_sort (fun a b => (stat teamAggregates b avgTotalYards
                               - stat teamAggregates a avgTotalYards)%js)
         (Array_filter played teams)) in
  let defensiveRank :=
    number_ranks
      (Array_sort (fun a b => (stat teamAggregates a avgPointsAgainst
                               - stat teamAggregates b avgPointsAgainst)%js)
         (Array_filter played teams)) in
  let rushOffenseRank :=
    number_ranks
      (Array_sort (fun a b => (stat teamAggregates b avgRushingYards
                               - stat teamAggregates a avgRushingYards)%js)
         (Array_filter played teams)) in
  let passDefenseRank :=
    number_ranks
      (Array_sort (fun a b => (stat teamAggregates a avgPassingYards
                               - stat teamAggregates b avgPassingYards)%js)
         (Array_filter played teams)) in
  {| offensive := offensiveRank;
     defensive := defensiveRank;
     rushOffense := rushOffenseRank;
     passDefense := passDefenseRank |}.

(** [o[k]] when it is a truthy string. *)
Definition truthy_at (o : dict string) (k : string) : option string :=
  match get o k with
  | Some v => if nonempty v then Some v else None
  | None => None
  end.

(** The test of the loop of [normalizeTeamName] on one entry. *)
Definition matches (lowerName : string) (entry : string * Team) : bool :=
  let '(fullName, data) := entry in
  String.eqb (toLowerCase fullName) lowerName
  || String.eqb (toLowerCase (Team.abbrev data)) lowerName
  || String.eqb (toLowerCase (Team.name data)) lowerName.

(** [normalizeTeamName(name)] for a string.  The first test is truthy on
    the team objects and on the inherited properties alike; past it [name]
    is no inherited name, so that the tables read as their own entries or
    [undefined]. *)
Definition normalizeTeamName (name : string) : M value :=
  match property_at NFL_TEAMS_entries name with
  | Own _ | Inherited _ => mret (VStr name)
  | Absent =>
      match truthy_at ABBREV_TO_NAME name with
      | Some fullName => mret (VStr fullName)
      | None =>
          match truthy_at ABBREV_ALTERNATES name with
          | Some alternate =>
              mret (match get ABBREV_TO_NAME alternate with
                    | Some fullName => VStr fullName
                    | None => VUndefined
                    end)
          | None =>
              let lowerName := toLowerCase name in
              match List.find (matches lowerName) NFL_TEAMS_entries with
              | Some (fullName, _) => mret (VStr fullName)
              | None =>
                  logger_warn "Unknown team name" [("name", name)];;
                  mret (VStr name)
              end
          end
      end
  end.

End StatsParser.

(** ** [src/models/efficiency.js] *)

Module Efficiency.

Import StatsParser.
Import MODEL_CONSTANTS.
Local Open Scope string_scope.

Module League.
Record LeagueAverage : Type := {
  avgTotalYards : number;
  avgPointsFor : number;
  avgPointsAgainst : number;
  avgPassingYards : number;
  avgRushingYards : number
}.
End League.
Abbreviation LeagueAverage := League.LeagueAverage.

Definition calculateEfficiencyRating (teamStats : option TeamStats)
    (leagueAverage : LeagueAverage) : number :=
  match teamStats with
  | None => ELO_BASE_RATING
  | Some teamStats =>
      if (num (games teamStats) === Fin 0)%js then ELO_BASE_RATING
      else
        let offensiveEfficiency :=
          (num (avgTotalYards teamStats) / League.avgTotalYards leagueAverage)%js in
        let defensiveEfficiency :=
          (League.avgPointsAgainst leagueAverage / num (avgPointsAgainst teamStats))%js in
        let scoringEfficiency :=
          (num (avgPointsFor teamStats) / League.avgPointsFor leagueAverage)%js in
        ((offensiveEfficiency * Fin (35 # 100) + defensiveEfficiency * Fin (35 # 100)
          + scoringEfficiency * Fin (30 # 100)) * Fin 1000)%js
  end.

(** A property key made of a value that may be [undefined]. *)
Definition key (name : option string) : string := default "undefined" name.

Definition calculateMatchupAdvantage (teamStats opponentStats : TeamStats)
    (rankings : option Rankings) : M number :=
  let advantage := Fin 0 in
  rushOffense ← read rankings "rushOffense" rushOffense;
  let rushOffenseRank := or_default (rushOffense !! key (teamName teamStats)) (Fin 16) in
  passDefense ← read rankings "passDefense" passDefense;
  let oppPassDefenseRank := or_default (passDefense !! key (teamName opponentStats)) (Fin 16) in
  let rushAdvantage := ((oppPassDefenseRank - rushOffenseRank) * MATCHUP_WEIGHT)%js in
  mret (advantage + rushAdvantage)%js.

Definition thirdDownDiff (teamStats opponentStats : TeamStats) : number :=
  let teamThirdDown := or_default (thirdDownPct teamStats) DEFAULT_THIRD_DOWN_PCT in
  let oppThirdDown := or_default (thirdDownPct opponentStats) DEFAULT_THIRD_DOWN_PCT in
  (teamThirdDown - oppThirdDown)%js.

Definition redZoneDiff (teamStats opponentStats : TeamStats) : number :=
  let teamRedZone := or_default (redZonePct teamStats) DEFAULT_RED_ZONE_PCT in
  let oppRedZone := or_default (redZonePct opponentStats) DEFAULT_RED_ZONE_PCT in
  (teamRedZone - oppRedZone)%js.

Definition calculateSituationalAdjustment (teamStats opponentStats : TeamStats) : number :=
  let adjustment := Fin 0 in
  let adjustment := (adjustment + thirdDownDiff teamStats opponentStats * Fin (5 # 100))%js in
  let adjustment := (adjustment + redZoneDiff teamStats opponentStats * Fin (3 # 100))%js in
  adjustment.

Record Details : Type := {
  homeMatchupAdv : string;
  awayMatchupAdv : string;
  homeSituationalAdj : string;
  awaySituationalAdj : string
}.

Record Prediction : Type := {
  homeTeam : option string;
  awayTeam : option string;
  predictedWinner : option string;
  predictedScore : string;
  confidence : Confidence;
  scoreDifference : number;
  homeEfficiency : string;
  awayEfficiency : string;
  details : Details
}.

Section WithRuntime.

Context `{Runtime}.

Definition predictGame (homeTeamStats awayTeamStats : option TeamStats)
    (leagueAverage : option LeagueAverage) (rankings : option Rankings)
    : M (option Prediction) :=
  match homeTeamStats, awayTeamStats, leagueAverage with
  | Some homeTeamStats, Some awayTeamStats, Some leagueAverage =>
      let homeEfficiency := calculateEfficiencyRating (Some homeTeamStats) leagueAverage in
      let awayEfficiency := calculateEfficiencyRating (Some awayTeamStats) leagueAverage in
      homeMatchup ← calculateMatchupAdvantage homeTeamStats awayTeamStats rankings;
      awayMatchup ← calculateMatchupAdvantage awayTeamStats homeTeamStats rankings;
      let homeSituational := calculateSituationalAdjustment homeTeamStats awayTeamStats in
      let awaySituational := calculateSituationalAdjustment awayTeamStats homeTeamStats in
      let homeScore := (League.avgPointsFor leagueAverage || Fin 23)%js in
      let awayScore := (League.avgPointsFor leagueAverage || Fin 23)%js in
      let homeScore := (homeScore + (num (avgPointsFor homeTeamStats)
                                     - League.avgPointsFor leagueAverage) * Fin (5 # 10))%js in
      let awayScore := (awayScore + (num (avgPointsFor awayTeamStats)
                                     - League.avgPointsFor leagueAverage) * Fin (5 # 10))%js in
      let homeScore := (homeScore - (num (avgPointsAgainst awayTeamStats)
                                     - League.avgPointsAgainst leagueAverage) * Fin (3 # 10))%js in
      let awayScore := (awayScore - (num (avgPointsAgainst homeTeamStats)
                                     - League.avgPointsAgainst leagueAverage) * Fin (3 # 10))%js in
      let homeScore := (homeScore + HOME_FIELD_ADVANTAGE)%js in
      let homeScore := (homeScore + homeMatchup)%js in
      let awayScore := (awayScore + awayMatchup)%js in
      let homeScore := (homeScore + homeSituational)%js in
      let awayScore := (awayScore + awaySituational)%js in
      let homeScore := Math_round (Math_max (Fin 0) homeScore) in
      let awayScore := Math_round (Math_max (Fin 0) awayScore) in
      let scoreDiff := Math_abs (homeScore - awayScore)%js in
      let predictedWinner :=
        if (homeScore >? awayScore)%js then teamName homeTeamStats
        else teamName awayTeamStats in
      let confidence :=
        if (scoreDiff >=? Fin 10)%js then high
        else if (scoreDiff >=? Fin 6)%js then medium
        else low in
      mret (Some {|
        homeTeam := teamName homeTeamStats;
        awayTeam := teamName awayTeamStats;
        predictedWinner := predictedWinner;
        predictedScore := score_string homeScore awayScore;
        confidence := confidence;
        scoreDifference := scoreDiff;
        homeEfficiency := toFixed homeEfficiency 0;
        awayEfficiency := toFixed awayEfficiency 0;
        details := {|
          homeMatchupAdv := toFixed homeMatchup 1;
          awayMatchupAdv := toFixed awayMatchup 1;
          homeSituationalAdj := toFixed homeSituational 1;
          awaySituationalAdj := toFixed awaySituational 1 |} |})
  | _, _, _ =>
      logger_error "Missing required stats for efficiency prediction" [];;
      mret None
  end.

End WithRuntime.

Record Totals : Type := {
  totalYards : number;
  pointsFor : number;
  pointsAgainst : number;
  passingYards : number;
  rushingYards : number
}.

Definition calculateLeagueAverages (teamAggregates : dict TeamStats) : M LeagueAverage :=
  let teams := keys teamAggregates in
  let teamsWithGames :=
    Array_filter (fun team => (stat teamAggregates team games >? Fin 0)%js) teams in
  if Nat.eqb (length teamsWithGames) 0 then
    logger_warn "No teams with games played for league averages" [];;
    mret {| League.avgTotalYards := Fin 350;
            League.avgPointsFor := Fin 23;
            League.avgPointsAgainst := Fin 23;
            League.avgPassingYards := Fin 230;
            League.avgRushingYards := Fin 120 |}
  else
    let totals :=
      Array_reduce (fun acc team (_ : nat) =>
        {| totalYards := (totalYards acc + stat teamAggregates team avgTotalYards)%js;
           pointsFor := (pointsFor acc + stat teamAggregates team avgPointsFor)%js;
           pointsAgainst := (pointsAgainst acc + stat teamAggregates team avgPointsAgainst)%js;
           passingYards := (passingYards acc + stat teamAggregates team avgPassingYards)%js;
           rushingYards := (rushingYards acc + stat teamAggregates team avgRushingYards)%js |})
        teamsWithGames
        {| totalYards := Fin 0; pointsFor := Fin 0; pointsAgainst := Fin 0;
           passingYards := Fin 0; rushingYards := Fin 0 |} in
    let count := of_nat (length teamsWithGames) in
    mret {| League.avgTotalYards := (totalYards totals / count)%js;
            League.avgPointsFor := (pointsFor totals / count)%js;
            League.avgPointsAgainst := (pointsAgainst totals / count)%js;
            League.avgPassingYards := (passingYards totals / count)%js;
            League.avgRushingYards := (rushingYards totals / count)%js |}.

End Efficiency.

(** ** [src/models/elo.js] *)

Module Elo.

Import MODEL_CONSTANTS.
Local Open Scope string_scope.

Record Prediction : Type := {
  homeTeam : string;
  awayTeam : string;
  predictedWinner : string;
  homeWinProbability : number;
  awayWinProbability : number;
  confidence : Confidence;
  eloDifference : number;
  predictedScore : string;
  homeRating : string;
  awayRating : string
}.

(** [!r] for a rating read from the table. *)
Definition missing (r : option number) : bool :=
  match r with
  | Some n => negb (truthy n)
  | None => true
  end.

(** [initializeRatings(previousSeasonRatings = null)].  The table of the
    season before is an object of numbers, or is not given. *)
Definition initializeRatings (previousSeasonRatings : option (dict number)) : dict number :=
  fold_left
    (fun ratings team =>
       let prevRating := previousSeasonRatings ≫= (fun previous => get previous team) in
       if missing prevRating then assign ratings team ELO_BASE_RATING
       else
         let prevRating := StatsParser.num prevRating in
         let regression := ((prevRating - ELO_BASE_RATING) * ELO_REGRESSION)%js in
         assign ratings team (ELO_BASE_RATING + regression)%js)
    NFL_TEAMS [].

Section WithRuntime.

Context `{Runtime}.

Definition calculateWinProbability (ratingA ratingB : number) : number :=
  (Fin 1 / (Fin 1 + Math_pow (Fin 10) ((ratingB - ratingA) / Fin 400)))%js.

Context `{Logarithm}.

Definition calculateMOVMultiplier (marginOfVictory eloWinner eloLoser : number) : number :=
  let eloDiff := (eloWinner - eloLoser)%js in
  let multiplier := (Math_log (Math_abs marginOfVictory + Fin 1) * ELO_MOV_MULTIPLIER)%js in
  if (eloDiff >? Fin 0)%js
  then (multiplier * (Fin (22 # 10) / (eloDiff * Fin (1 # 1000) + Fin (22 # 10))))%js
  else multiplier.

(** [updateRatings(ratings, winner, loser, winnerScore, loserScore)]; the
    sixth parameter, [isNeutralSite], is not used.  Team names are taken
    not to be names that every object inherits. *)
Definition updateRatings (ratings : dict number) (winner loser : string)
    (winnerScore loserScore : number) : M (dict number) :=
  let ratingWinner := get ratings winner in
  let ratingLoser := get ratings loser in
  if missing ratingWinner || missing ratingLoser then
    logger_error "Cannot update ratings: team not found"
      [("winner", winner); ("loser", loser)];;
    mret ratings
  else
    let ratingWinner := StatsParser.num ratingWinner in
    let ratingLoser := StatsParser.num ratingLoser in
    let expectedWin := calculateWinProbability ratingWinner ratingLoser in
    let mov := Math_abs (winnerScore - loserScore)%js in
    let movMultiplier := calculateMOVMultiplier mov ratingWinner ratingLoser in
    let kFactor := ELO_K_FACTOR in
    let change := (kFactor * movMultiplier * (Fin 1 - expectedWin))%js in
    let newRatings := ratings in
    let newRatings := assign newRatings winner (ratingWinner + change)%js in
    let newRatings := assign newRatings loser (ratingLoser - change)%js in
    logger_debug "Elo update"
      [("winner", winner);
       ("loser", loser);
       ("score", score_string winnerScore loserScore);
       ("oldRatings", toFixed ratingWinner 0 ++ "-" ++ toFixed ratingLoser 0);
       ("newRatings", toFixed (StatsParser.num (get newRatings winner)) 0 ++ "-"
                      ++ toFixed (StatsParser.num (get newRatings loser)) 0);
       ("change", toFixed change 1)];;
    mret newRatings.

Definition predictGame (ratings : option (gmap string number))
    (homeTeam awayTeam : string) : M (option Prediction) :=
  homeRating ← read ratings homeTeam (fun r => r !! homeTeam);
  awayRating ← read ratings awayTeam (fun r => r !! awayTeam);
  if missing homeRating || missing awayRating then
    logger_error "Cannot predict: team ratings not found"
      [("homeTeam", homeTeam); ("awayTeam", awayTeam)];;
    mret None
  else
    let homeRating := StatsParser.num homeRating in
    let awayRating := StatsParser.num awayRating in
    let adjustedHomeRating := (homeRating + HOME_FIELD_ADVANTAGE * Fin 25)%js in
    let homeWinProb := calculateWinProbability adjustedHomeRating awayRating in
    let awayWinProb := (Fin 1 - homeWinProb)%js in
    let predictedWinner := if (homeWinProb >? Fin (5 # 10))%js then homeTeam else awayTeam in
    let eloDiff := Math_abs (adjustedHomeRating - awayRating)%js in
    let confidence :=
      if (eloDiff >=? CONFIDENCE_HIGH_THRESHOLD)%js then high
      else if (eloDiff >=? CONFIDENCE_MEDIUM_THRESHOLD)%js then medium
      else low in
    let avgScore := Fin 23 in
    let ratingDiff := (adjustedHomeRating - awayRating)%js in
    let scoreDiff := (ratingDiff / Fin 25)%js in
    let homeScore := Math_round (avgScore + scoreDiff / Fin 2)%js in
    let awayScore := Math_round (avgScore - scoreDiff / Fin 2)%js in
    mret (Some {|
      homeTeam := homeTeam;
      awayTeam := awayTeam;
      predictedWinner := predictedWinner;
      homeWinProbability := (homeWinProb * Fin 100)%js;
      awayWinProbability := (awayWinProb * Fin 100)%js;
      confidence := confidence;
      eloDifference := eloDiff;
      predictedScore :=
        score_string (Math_max (Fin 0) homeScore) (Math_max (Fin 0) awayScore);
      homeRating := toFixed homeRating 0;
      awayRating := toFixed awayRating 0 |}).

End WithRuntime.

Definition getConfidenceLevel (eloDiff : number) : Confidence :=
  if (eloDiff >=? CONFIDENCE_HIGH_THRESHOLD)%js then high
  else if (eloDiff >=? CONFIDENCE_MEDIUM_THRESHOLD)%js then medium
  else low.

(** An entry of the power rankings. *)
Module Power.
Record Entry : Type := {
  rank : number;
  team : string;
  rating : string
}.
End Power.

(** [getPowerRankings(ratings)]: the entries of the table, sorted by
    rating from the highest, and numbered. *)
Definition getPowerRankings (ratings : dict number) : list Power.Entry :=
  imap
    (fun index '(team, rating) =>
       {| Power.rank := of_nat (index + 1);
          Power.team := team;
          Power.rating := toFixed rating 0 |})
    (Array_sort (fun '(_, ratingA) '(_, ratingB) => (ratingB - ratingA)%js) ratings).

End Elo.

(** ** [src/models/predictor.js] *)

Module Predictor.

Import StatsParser.
Local Open Scope string_scope.

Record Game : Type := {
  game_id : string;
  date : string;
  game_homeTeam : string;
  game_awayTeam : string
}.

(** The [context] argument; a property it does not have is [None]. *)
Record Context : Type := {
  eloRatings : option (gmap string number);
  teamStats : option (dict TeamStats);
  leagueAverage : option Efficiency.LeagueAverage;
  rankings : option Rankings
}.

Record EloModel : Type := {
  elo_winner : string;
  elo_score : string;
  elo_confidence : Confidence;
  homeWinProb : string;
  awayWinProb : string
}.

Record EfficiencyModel : Type := {
  efficiency_winner : option string;
  efficiency_score : string;
  efficiency_confidence : Confidence
}.

Record Models : Type := {
  elo : EloModel;
  efficiency : EfficiencyModel
}.

(** A prediction record.  The properties that only [checkPrediction] gives
    it are [None] until then. *)
Record Prediction : Type := {
  id : string;
  gameDate : string;
  homeTeam : string;
  awayTeam : string;
  predictedWinner : string;
  predictedScore : string;
  spread : number;
  confidence : Confidence;
  timestamp : nat;
  checked : bool;
  models : Models;
  correct : option bool;
  actualWinner : option string;
  actualScore : option string;
  scoreError : option number;
  checkedAt : option nat
}.

(** The store of prediction objects, by reference. *)
Abbreviation heap := (gmap nat Prediction).

(** [{ ...stats, teamName: name }], where spreading [undefined] gives no
    property. *)
Definition with_teamName (stats : option TeamStats) (name : string) : TeamStats :=
  {| teamName := Some name;
     games := stats ≫= games;
     avgPassingYards := stats ≫= avgPassingYards;
     avgRushingYards := stats ≫= avgRushingYards;
     avgTotalYards := stats ≫= avgTotalYards;
     avgPointsFor := stats ≫= avgPointsFor;
     avgPointsAgainst := stats ≫= avgPointsAgainst;
     thirdDownPct := stats ≫= thirdDownPct;
     redZonePct := stats ≫= redZonePct |}.

(** [const [a, b] = s.split('-').map(Number)]: the two scores a score
    string reads as; a part that is not there is [undefined], NaN in
    arithmetic. *)
Definition parse_score (s : string) : number * number :=
  let parts := split "-" s in
  (StringToNumber_item parts 0, StringToNumber_item parts 1).

(** [confidenceLevels[c]]. *)
Definition confidenceLevels (c : Confidence) : number :=
  match c with
  | high => Fin 3
  | medium => Fin 2
  | low => Fin 1
  end.

Section WithRuntime.

Context `{Runtime}.

(** The second half of [predict], from "Combine predictions" on: the
    record made of the two predictions, at the instant [timestamp]. *)
Definition combine (game : Game) (eloPrediction : Elo.Prediction)
    (efficiencyPrediction : Efficiency.Prediction) (timestamp : nat) : Prediction :=
  let homeTeam := game_homeTeam game in
  let awayTeam := game_awayTeam game in
  let eloWeight := Fin (6 # 10) in
  let efficiencyWeight := Fin (4 # 10) in
  let '(eloHome, eloAway) := parse_score (Elo.predictedScore eloPrediction) in
  let '(effHome, effAway) := parse_score (Efficiency.predictedScore efficiencyPrediction) in
  let finalHomeScore := Math_round (eloHome * eloWeight + effHome * efficiencyWeight)%js in
  let finalAwayScore := Math_round (eloAway * eloWeight + effAway * efficiencyWeight)%js in
  let finalWinner := if (finalHomeScore >? finalAwayScore)%js then homeTeam else awayTeam in
  let eloConfLevel := confidenceLevels (Elo.confidence eloPrediction) in
  let effConfLevel := confidenceLevels (Efficiency.confidence efficiencyPrediction) in
  let finalConfLevel := Math_min eloConfLevel effConfLevel in
  let finalConfidence :=
    if (finalConfLevel === Fin 3)%js then high
    else if (finalConfLevel === Fin 2)%js then medium
    else low in
  {| id := game_id game;
     gameDate := date game;
     homeTeam := homeTeam;
     awayTeam := awayTeam;
     predictedWinner := finalWinner;
     predictedScore := score_string finalHomeScore finalAwayScore;
     spread := (finalHomeScore - finalAwayScore)%js;
     confidence := finalConfidence;
     timestamp := timestamp;
     checked := false;
     models := {|
       elo := {|
         elo_winner := Elo.predictedWinner eloPrediction;
         elo_score := Elo.predictedScore eloPrediction;
         elo_confidence := Elo.confidence eloPrediction;
         homeWinProb := toFixed (Elo.homeWinProbability eloPrediction) 1;
         awayWinProb := toFixed (Elo.awayWinProbability eloPrediction) 1 |};
       efficiency := {|
         efficiency_winner := Efficiency.predictedWinner efficiencyPrediction;
         efficiency_score := Efficiency.predictedScore efficiencyPrediction;
         efficiency_confidence := Efficiency.confidence efficiencyPrediction |} |};
     correct := None;
     actualWinner := None;
     actualScore := None;
     scoreError := None;
     checkedAt := None |}.

(** The copies [{ ...teamStats[team], teamName: team }] that [predict]
    hands to the efficiency model. *)
Definition stats_of (context : Context) (team : string) : M TeamStats :=
  entry ← read (teamStats context) team (fun t => get t team);
  mret (with_teamName entry team).

Definition predict (game : Game) (context : Context) : M (option Prediction) :=
  let homeTeam := game_homeTeam game in
  let awayTeam := game_awayTeam game in
  eloPrediction ← Elo.predictGame (eloRatings context) homeTeam awayTeam;
  homeStats ← stats_of context homeTeam;
  awayStats ← stats_of context awayTeam;
  efficiencyPrediction ←
    Efficiency.predictGame (Some homeStats) (Some awayStats)
      (leagueAverage context) (rankings context);
  match eloPrediction, efficiencyPrediction with
  | Some eloPrediction, Some efficiencyPrediction =>
      timestamp ← now;
      mret (Some (combine game eloPrediction efficiencyPrediction timestamp))
  | _, _ =>
      logger_error "Failed to generate predictions"
        [("homeTeam", homeTeam); ("awayTeam", awayTeam)];;
      mret None
  end.

(** One turn of the loop of [predictGames]: the [try] statement, from the
    predictions pushed so far to those pushed after it. *)
Definition predictGames_step (context : Context) (predictions : list Prediction)
    (game : Game) : M (list Prediction) :=
  try_catch
    (prediction ← predict game context;
     match prediction with
     | Some prediction => mret (predictions ++ [prediction])%list
     | None => mret predictions
     end)
    (fun error =>
       logger_error "Failed to predict game"
         [("game", game_homeTeam game ++ " vs " ++ game_awayTeam game);
          ("error", message_of error)];;
       mret predictions).

(** [for (const game of games) { ... }] over the predictions pushed. *)
Fixpoint predictGames_loop (context : Context) (games : list Game)
    (predictions : list Prediction) : M (list Prediction) :=
  match games with
  | [] => mret predictions
  | game :: rest =>
      predictions ← predictGames_step context predictions game;
      predictGames_loop context rest predictions
  end.

Definition predictGames (games : list Game) (context : Context) : M (list Prediction) :=
  predictions ← predictGames_loop context games [];
  logger_info ("Generated " ++ decimal (N.of_nat (length predictions)) ++ "/"
               ++ decimal (N.of_nat (length games)) ++ " predictions") [];;
  mret predictions.

Record ActualResult : Type := {
  actual_homeTeam : string;
  actual_awayTeam : string;
  homeScore : number;
  awayScore : number
}.

(** [checkPrediction(prediction, actualResult)], where [prediction] is a
    reference into the store [h]: the result is the reference of the
    object that the spread allocates, and the store with it.  A reference
    to nothing stands for [undefined]. *)
Definition checkPrediction (h : heap) (prediction : nat) (actualResult : ActualResult)
    : M (nat * heap) :=
  let actualWinner :=
    if (homeScore actualResult >? awayScore actualResult)%js
    then actual_homeTeam actualResult
    else actual_awayTeam actualResult in
  p ← read (h !! prediction) "predictedWinner" (fun p => p);
  let correct := String.eqb (predictedWinner p) actualWinner in
  let '(predHome, predAway) := parse_score (predictedScore p) in
  let scoreError :=
    (Math_abs (predHome - homeScore actualResult)
     + Math_abs (predAway - awayScore actualResult))%js in
  checkedAt ← now;
  let result :=
    {| id := id p;
       gameDate := gameDate p;
       homeTeam := homeTeam p;
       awayTeam := awayTeam p;
       predictedWinner := predictedWinner p;
       predictedScore := predictedScore p;
       spread := spread p;
       confidence := confidence p;
       timestamp := timestamp p;
       checked := true;
       models := models p;
       correct := Some correct;
       actualWinner := Some actualWinner;
       actualScore :=
         Some (score_string (homeScore actualResult) (awayScore actualResult));
       scoreError := Some scoreError;
       checkedAt := Some checkedAt |} in
  let r := fresh (dom h) in
  mret (r, <[r := result]> h).

End WithRuntime.

(** The test [p.correct] of the filters: a prediction that has not been
    checked has no such property. *)
Definition is_correct (p : Prediction) : bool := default false (correct p).

(** [p.confidence === level]. *)
Definition has_confidence (level : Confidence) (p : Prediction) : bool :=
  bool_decide (confidence p = level).

(** The statistics of one confidence tier. *)
Module Level.
Record Stats : Type := {
  total : number;
  correct : number;
  accuracy : number
}.
End Level.

(** What [calculateAccuracy] returns; [byConfidence] has the tiers as its
    keys, in the order in which they are assigned. *)
Module Accuracy.
Record Stats : Type := {
  total : number;
  correct : number;
  incorrect : number;
  accuracy : string;
  byConfidence : list (Confidence * Level.Stats);
  avgScoreError : string
}.
End Accuracy.

Definition calculateAccuracy (predictions : list Prediction) : Accuracy.Stats :=
  let total := of_nat (length predictions) in
  let correct := of_nat (length (Array_filter is_correct predictions)) in
  let accuracy :=
    if (total >? Fin 0)%js then (correct / total * Fin 100)%js else Fin 0 in
  let byConfidence :=
    fold_left
      (fun byConfidence level =>
         let levelPreds := Array_filter (has_confidence level) predictions in
         let levelCorrect := of_nat (length (Array_filter is_correct levelPreds)) in
         (byConfidence ++
          [(level,
            {| Level.total := of_nat (length levelPreds);
               Level.correct := levelCorrect;
               Level.accuracy :=
                 if (of_nat (length levelPreds) >? Fin 0)%js
                 then (levelCorrect / of_nat (length levelPreds) * Fin 100)%js
                 else Fin 0 |})])%list)
      [high; medium; low] [] in
  let totalScoreError :=
    Array_reduce (fun sum p _ => (sum + or_default (scoreError p) (Fin 0))%js)
      predictions (Fin 0) in
  let avgScoreError :=
    if (total >? Fin 0)%js then (totalScoreError / total)%js else Fin 0 in
  {| Accuracy.total := total;
     Accuracy.correct := correct;
     Accuracy.incorrect := (total - correct)%js;
     Accuracy.accuracy := toFixed accuracy 1;
     Accuracy.byConfidence := byConfidence;
     Accuracy.avgScoreError := toFixed avgScoreError 1 |}.

End Predictor.

(** ** [src/utils/validator.js] *)

Module Validator.

Local Open Scope string_scope.

Record Validation : Type := {
  valid : bool;
  errors : list string
}.

Definition isValidTeam (teamName : string) : bool :=
  hasOwnProperty NFL_TEAMS_entries teamName.

(** [typeof v]. *)
Definition typeof (v : StatsParser.value) : string :=
  match v with
  | StatsParser.VUndefined => "undefined"
  | StatsParser.VNull => "object"
  | StatsParser.VBool _ => "boolean"
  | StatsParser.VNum _ => "number"
  | StatsParser.VStr _ => "string"
  | StatsParser.VObj _ => "object"
  end.

Section WithRuntime.

Context `{Runtime}.

(** [validateEloRating(rating)]: past the test of its type, [rating] is a
    number. *)
Definition validateEloRating (rating : StatsParser.value) : Validation :=
  match rating with
  | StatsParser.VNum r =>
      if (r <? Fin 0)%js || (r >? Fin 3000)%js then
        {| valid := false;
           errors := ["Elo rating out of range: " ++ number_to_string r] |}
      else {| valid := true; errors := [] |}
  | _ =>
      {| valid := false; errors := ["Invalid Elo rating type: " ++ typeof rating] |}
  end.

Definition validateWeek (week : StatsParser.value) : Validation :=
  match week with
  | StatsParser.VNum n =>
      if (n <? Fin 1)%js || (n >? Fin 18)%js then
        {| valid := false;
           errors := ["Week out of range: " ++ number_to_string n ++ " (must be 1-18)"] |}
      else {| valid := true; errors := [] |}
  | _ =>
      {| valid := false; errors := ["Invalid week type: " ++ typeof week] |}
  end.

End WithRuntime.

(** [validatePrediction(prediction)] on a record as [predict] and
    [checkPrediction] make them, or on [null]: the properties are there,
    with strings for the names and a tier for the confidence. *)
Definition validatePrediction (prediction : option Predictor.Prediction) : Validation :=
  match prediction with
  | None => {| valid := false; errors := ["Prediction is null or undefined"] |}
  | Some prediction =>
      let errors := [] in
      let errors :=
        if negb (nonempty (Predictor.id prediction))
        then (errors ++ ["Missing prediction ID"])%list else errors in
      let errors :=
        if negb (nonempty (Predictor.homeTeam prediction))
           || negb (isValidTeam (Predictor.homeTeam prediction))
        then (errors ++ [("Invalid home team: " ++ Predictor.homeTeam prediction)%string])%list
        else errors in
      let errors :=
        if negb (nonempty (Predictor.awayTeam prediction))
           || negb (isValidTeam (Predictor.awayTeam prediction))
        then (errors ++ [("Invalid away team: " ++ Predictor.awayTeam prediction)%string])%list
        else errors in
      let errors :=
        if negb (nonempty (Predictor.predictedWinner prediction))
           || negb (isValidTeam (Predictor.predictedWinner prediction))
        then (errors ++ [("Invalid predicted winner: "
                          ++ Predictor.predictedWinner prediction)%string])%list
        else errors in
      let errors :=
        if negb (bool_decide (Predictor.confidence prediction ∈ [high; medium; low]))
        then (errors ++ [("Invalid confidence level: "
                          ++ match Predictor.confidence prediction with
                             | high => "high"
                             | medium => "medium"
                             | low => "low"
                             end)%string])%list
        else errors in
      {| valid := Nat.eqb (length errors) 0; errors := errors |}
  end.

End Validator.

(** ** Vocabulary of the properties *)

Module Vocabulary.

(** A comparator orders the elements of [l] by the key [k] when
    [cmp x y > 0] exactly for [y] strictly before [x]. *)
Definition orders_by {A} (cmp : A -> A -> number) (k : A -> Q) (l : list A) : Prop :=
  forall x y, x ∈ l -> y ∈ l -> (cmp x y >? Fin 0)%js = true <-> (k y < k x)%Q.

Definition ascending_by {A} (k : A -> Q) (x y : A) : Prop := (k x <= k y)%Q.

Import StatsParser.

(** The team has played: [teamAggregates[team].games > 0]. *)
Definition played (teamAggregates : dict TeamStats) (team : string) : bool :=
  (stat teamAggregates team games >? Fin 0)%js.

(** The metric of the pass-defense ranking: the [avgPassingYards] of the
    team's aggregate. *)
Definition passing (teamAggregates : dict TeamStats) (team : string) : number :=
  stat teamAggregates team avgPassingYards.

(** No team has played. *)
Definition none_played (teamAggregates : dict TeamStats) : Prop :=
  Forall (fun team => played teamAggregates team = false) (keys teamAggregates).

(** A percentage that is there and is 0. *)
Definition recorded_zero (o : option number) : Prop :=
  exists n, o = Some n /\ (n === Fin 0)%js = true.

(** The situational adjustment written out on the four percentages that
    enter it: the third-down difference times 0.05 plus the red-zone
    difference times 0.03. *)
Definition situational (teamThirdDown oppThirdDown teamRedZone oppRedZone : number) :
    number :=
  ((teamThirdDown - oppThirdDown) * Fin (5 # 100)
   + (teamRedZone - oppRedZone) * Fin (3 # 100))%js.

(** A natural number below 2^53: a double holds it without rounding. *)
Definition safe_integer (n : N) : Prop := (n < 2 ^ 53)%N.

(** What a power function is taken to give for the base 10: for an
    exponent of -1/1000 or less a number from 0 to 0.998, and for an
    exponent of 0 or more a number from 1 on, or Infinity. *)
Definition power_of_ten (pow : number -> number -> number) : Prop :=
  forall x : Q,
    ((x <= - (1 # 1000))%Q ->
       exists y, pow (Fin 10) (Fin x) = Fin y /\ (0 <= y <= 499 # 500)%Q)
    /\ ((0 <= x)%Q ->
         (exists y, pow (Fin 10) (Fin x) = Fin y /\ (1 <= y)%Q)
         \/ pow (Fin 10) (Fin x) = PosInf).

(** The world after the clock was read once. *)
Definition ticked (w : world) : world := {| log := log w; clock := S (clock w) |}.

(** The world after one more entry in the log. *)
Definition logged (l : log_level) (msg : string) (ctx : list (string * string))
    (w : world) : world :=
  {| log := log w ++ [{| level := l; message := msg; context := ctx |}];
     clock := clock w |}.

(** The order of the confidence tiers: high (3) over medium (2) over
    low (1). *)
Definition confidence_level (c : Confidence) : nat :=
  match c with
  | high => 3
  | medium => 2
  | low => 1
  end.

(** The combined score of a side: the Elo score and the efficiency score
    blended 0.6 to 0.4, and rounded. *)
Definition blend (eloScore efficiencyScore : number) : number :=
  Math_round (eloScore * Fin (6 # 10) + efficiencyScore * Fin (4 # 10))%js.

(** What a batch of games gives, one game after the other: the predictions
    of the games that [predict] gives a record for, in the order of the
    games, and the world at the end.  A game without a record adds nothing;
    one that throws adds the entry of the [catch] to the log. *)
Fixpoint batch `{Runtime} (context : Predictor.Context) (games : list Predictor.Game)
    (w : world) : list Predictor.Prediction * world :=
  match games with
  | [] => ([], w)
  | game :: rest =>
      match Predictor.predict game context w with
      | (Return (Some p), w1) =>
          let '(ps, w2) := batch context rest w1 in (p :: ps, w2)
      | (Return None, w1) => batch context rest w1
      | (Throw e, w1) =>
          batch context rest
            (logged LevelError "Failed to predict game"
               [("game", (Predictor.game_homeTeam game ++ " vs "
                          ++ Predictor.game_awayTeam game)%string);
                ("error", message_of e)] w1)
      end
  end.

(** The metric of a team as a rational, where it is one. *)
Definition yards (teamAggregates : dict TeamStats) (team : string) : Q :=
  match passing teamAggregates team with
  | Fin q => q
  | _ => 0
  end.

(** The comparator of the pass-defense sort, and the teams it sorts. *)
Definition by_passing (teamAggregates : dict TeamStats) (a b : string) : number :=
  (stat teamAggregates a avgPassingYards - stat teamAggregates b avgPassingYards)%js.

Definition ranked (teamAggregates : dict TeamStats) : list string :=
  Array_filter (played teamAggregates) (keys teamAggregates).

(** The passing yards that a team allowed in a game it played: those of
    the other team of the game. *)
Definition passing_allowed_in (game : GameStats) (team : string) : option number :=
  let boxes := default [] (stats game) in
  if decide (team ∈ keys boxes) then
    opponent ← List.find (fun t => negb (String.eqb t team)) (keys boxes);
    box ← get boxes opponent;
    Some (or_default (Box.passingYards box) (Fin 0))
  else None.

(** The passing yards allowed per game, over a season. *)
Definition passing_yards_allowed (gameStats : list GameStats) (team : string) : number :=
  let allowed := omap (fun game => passing_allowed_in game team) gameStats in
  (foldr add (Fin 0) allowed / of_nat (length allowed))%js.

(** Every team that has played has a finite [avgPassingYards]. *)
Definition passing_recorded (teamAggregates : dict TeamStats) : Prop :=
  Forall (fun team => played teamAggregates team = true ->
                      isFinite (passing teamAggregates team) = true)
    (keys teamAggregates).

(** The statistics of a game by team: [game.stats || {}]. *)
Definition boxes_of (game : GameStats) : dict Box.TeamBox := default [] (stats game).

(** The game lists the team. *)
Definition lists (team : string) (game : GameStats) : bool :=
  bool_decide (team ∈ keys (boxes_of game)).

(** The counters of one team over the games, one game after the other:
    a game that lists the team adds to them, another leaves them. *)
Definition season (team : string) (gameStats : list GameStats) : Counters :=
  fold_left
    (fun agg game =>
       match get (boxes_of game) team with
       | Some box => add_game game (keys (boxes_of game)) team box agg
       | None => agg
       end)
    gameStats Counters.zero.

(** Every team that has played has a finite value of the field [f]. *)
Definition recorded (f : TeamStats -> option number) (teamAggregates : dict TeamStats)
    : Prop :=
  Forall (fun team => played teamAggregates team = true ->
                      isFinite (stat teamAggregates team f) = true)
    (keys teamAggregates).

(** The value of the field [f] of a team as a rational, where it is one. *)
Definition amount (teamAggregates : dict TeamStats) (f : TeamStats -> option number)
    (team : string) : Q :=
  match stat teamAggregates team f with
  | Fin q => q
  | _ => 0
  end.

(** [ranks] numbers the teams of [order] from 1, in that order. *)
Definition numbers (ranks : gmap string number) (order : list string) : Prop :=
  forall team r, ranks !! team = Some r <->
                 exists i, order !! i = Some team /\ r = of_nat (i + 1).

(** [ranks] is a ranking of the teams that have played by the field [f],
    where [better x y] tells that the value [x] is strictly better than
    [y]: the teams that have played are numbered from 1, each once, in an
    order in which no team comes after a team that it is better than; so
    that the better of two teams has the strictly lower rank number. *)
Definition ranking (teamAggregates : dict TeamStats) (f : TeamStats -> option number)
    (better : number -> number -> bool) (ranks : gmap string number) : Prop :=
  exists order : list string,
    NoDup order
    /\ (forall team, team ∈ order <->
          team ∈ keys teamAggregates /\ played teamAggregates team = true)
    /\ (forall i j a b, (i <= j)%nat -> order !! i = Some a -> order !! j = Some b ->
          better (stat teamAggregates b f) (stat teamAggregates a f) = false)
    /\ numbers ranks order
    /\ (forall a b ra rb, ranks !! a = Some ra -> ranks !! b = Some rb ->
          better (stat teamAggregates a f) (stat teamAggregates b f) = true ->
          (ra <? rb)%js = true).

(** A name under which no object inherits a property: under such a name
    an object reads as its own entries. *)
Definition own_name (k : string) : Prop := k ∉ Object_prototype.

(** The number [a] is finite, of the value [q]. *)
Definition has_value (a : number) (q : Q) : Prop :=
  exists q', a = Fin q' /\ (q' == q)%Q.





(** The matchup advantage of a side when the rankings are there. *)
Definition matchup (side opponent : TeamStats) (rankings : Rankings) : number :=
  let rushOffenseRank :=
    or_default (rushOffense rankings !! Efficiency.key (teamName side)) (Fin 16) in
  let oppPassDefenseRank :=
    or_default (passDefense rankings !! Efficiency.key (teamName opponent)) (Fin 16) in
  (Fin 0 + (oppPassDefenseRank - rushOffenseRank) * MODEL_CONSTANTS.MATCHUP_WEIGHT)%js.

(** The score that the efficiency model gives a side, before it is cut at
    0 and rounded: the league's average, half of what the side scores over
    it, less three tenths of what the opponent allows over it, the home
    advantage for the home side, the matchup advantage and the situational
    adjustment. *)
Definition raw_score (atHome : bool) (side opponent : TeamStats)
    (leagueAverage : Efficiency.LeagueAverage) (rankings : Rankings) : number :=
  let score := (Efficiency.League.avgPointsFor leagueAverage || Fin 23)%js in
  let score :=
    (score + (num (avgPointsFor side) - Efficiency.League.avgPointsFor leagueAverage)
             * Fin (5 # 10))%js in
  let score :=
    (score - (num (avgPointsAgainst opponent)
              - Efficiency.League.avgPointsAgainst leagueAverage) * Fin (3 # 10))%js in
  let score :=
    if atHome then (score + MODEL_CONSTANTS.HOME_FIELD_ADVANTAGE)%js else score in
  let score := (score + matchup side opponent rankings)%js in
  (score + Efficiency.calculateSituationalAdjustment side opponent)%js.

(** A raw score as a score: not below 0, and rounded. *)
Definition as_score (raw : number) : number := Math_round (Math_max (Fin 0) raw).






(** The scores that the Elo model writes for the difference [d] between
    the home rating, with the home advantage of 62.5, and the away rating:
    an average of 23 points, a point for every 25 of rating shared
    between the two sides, rounded (halves going up) and not below 0. *)
Definition elo_scores (d : Q) : N * N :=
  (Z.to_N (Qfloor (23 + d / 50 + (1 # 2))), Z.to_N (Qfloor (23 - d / 50 + (1 # 2)))).

End Vocabulary.
Export Vocabulary.

(** ** Sample data *)

Module Examples.

Import StatsParser.
Local Open Scope string_scope.

Definition aggregate (g : Z) (passingYards rushingYards totalYards pointsFor pointsAgainst
    thirdDown redZone : Q) : TeamStats :=
  {| teamName := None;
     games := Some (of_Z g);
     avgPassingYards := Some (Fin passingYards);
     avgRushingYards := Some (Fin rushingYards);
     avgTotalYards := Some (Fin totalYards);
     avgPointsFor := Some (Fin pointsFor);
     avgPointsAgainst := Some (Fin pointsAgainst);
     thirdDownPct := Some (Fin thirdDown);
     redZonePct := Some (Fin redZone) |}.

(** The aggregate of a team without games: the counters at zero, and no
    average. *)
Definition no_games : TeamStats :=
  {| teamName := None;
     games := Some (Fin 0);
     avgPassingYards := None;
     avgRushingYards := None;
     avgTotalYards := None;
     avgPointsFor := None;
     avgPointsAgainst := None;
     thirdDownPct := None;
     redZonePct := None |}.

(** The aggregates before any game: every team of the registry, without
    games. *)
Definition season_start : dict TeamStats :=
  map (fun team => (team, no_games)) NFL_TEAMS.

Definition nothing_logged : world := {| log := []; clock := 0 |}.

Definition fallback : Efficiency.LeagueAverage :=
  {| Efficiency.League.avgTotalYards := Fin 350;
     Efficiency.League.avgPointsFor := Fin 23;
     Efficiency.League.avgPointsAgainst := Fin 23;
     Efficiency.League.avgPassingYards := Fin 230;
     Efficiency.League.avgRushingYards := Fin 120 |}.

(** A runtime to evaluate with.  Its power function is a stand-in that is
    on the right side of 1 for the base 10 (one half for a negative
    exponent, 2 for a positive one), so the win probabilities that the
    samples show are those of the stand-in, 66.7 against 33.3, and not
    those of [Math.pow]; no sample prints a fraction. *)
Definition sample_runtime : Runtime :=
  {| Math_pow := fun _ e =>
       if (e <? Fin 0)%js then Fin (1 # 2)
       else if (Fin 0 <? e)%js then Fin 2
       else Fin 1;
     fraction_to_string := fun _ => "" |}.

(** A stand-in for the natural logarithm. *)
Definition sample_logarithm : Logarithm :=
  {| Math_log := fun a => if (a >? Fin 1)%js then Fin 1 else Fin 0 |}.

Definition bills : TeamStats :=
  Predictor.with_teamName (Some (aggregate 2 250 110 360 27 20 0 60)) "Buffalo Bills".

Definition patriots : TeamStats :=
  Predictor.with_teamName (Some (aggregate 1 (4003 # 20) 130 330 17 23 0 55))
    "New England Patriots".

(** A season of one game: the Bills pass for 300 yards and the Dolphins
    for 100, so the Bills allow 100 and the Dolphins 300. *)
Definition box (passing rushing : Q) : Box.TeamBox :=
  {| Box.passingYards := Some (Fin passing);
     Box.rushingYards := Some (Fin rushing);
     Box.totalYards := Some (Fin (Qred (passing + rushing)));
     Box.turnovers := Some (Fin 1);
     Box.thirdDownEff := Some {| made := Fin 5; attempts := Fin 12; percentage := Fin (125 # 3) |};
     Box.redZoneEff := None;
     Box.possessionTime := Some (Fin 1800);
     Box.sacks := Some (Fin 2) |}.

Definition one_game : list GameStats :=
  [{| stats := Some [("Buffalo Bills", box 300 90); ("Miami Dolphins", box 100 140)];
      scores := Some {[ "Buffalo Bills" := Fin 31; "Miami Dolphins" := Fin 17 ]} |}].

Definition four_teams : dict TeamStats :=
  [("Buffalo Bills", aggregate 2 250 110 360 27 20 45 60);
   ("Miami Dolphins", aggregate 3 200 95 295 21 24 38 50);
   ("New York Jets", no_games);
   ("New England Patriots", aggregate 1 (4003 # 20) 130 330 17 23 0 55)].

Definition sample_game : Predictor.Game :=
  {| Predictor.game_id := "401772";
     Predictor.date := "2025-11-02T18:00Z";
     Predictor.game_homeTeam := "Buffalo Bills";
     Predictor.game_awayTeam := "Miami Dolphins" |}.

(** A context in which the Elo model is more confident than the
    efficiency model. *)
Definition sample_context : Predictor.Context :=
  {| Predictor.eloRatings :=
       Some {[ "Buffalo Bills" := Fin 1600; "Miami Dolphins" := Fin 1450 ]};
     Predictor.teamStats := Some four_teams;
     Predictor.leagueAverage := Some fallback;
     Predictor.rankings := Some (calculateRankings four_teams) |}.

(** What [predict] makes of it at the instant 0: the Elo tier is high,
    the efficiency tier medium. *)
Definition sample_prediction : Predictor.Prediction :=
  {| Predictor.id := "401772";
     Predictor.gameDate := "2025-11-02T18:00Z";
     Predictor.homeTeam := "Buffalo Bills";
     Predictor.awayTeam := "Miami Dolphins";
     Predictor.predictedWinner := "Buffalo Bills";
     Predictor.predictedScore := "27-20";
     Predictor.spread := Fin 7;
     Predictor.confidence := medium;
     Predictor.timestamp := 0;
     Predictor.checked := false;
     Predictor.models :=
       {| Predictor.elo :=
            {| Predictor.elo_winner := "Buffalo Bills";
               Predictor.elo_score := "27-19";
               Predictor.elo_confidence := high;
               Predictor.homeWinProb := "66.7";
               Predictor.awayWinProb := "33.3" |};
          Predictor.efficiency :=
            {| Predictor.efficiency_winner := Some "Buffalo Bills";
               Predictor.efficiency_score := "28-22";
               Predictor.efficiency_confidence := medium |} |};
     Predictor.correct := None;
     Predictor.actualWinner := None;
     Predictor.actualScore := None;
     Predictor.scoreError := None;
     Predictor.checkedAt := None |}.

(** A context that leaves the two teams level: Elo gives 23-23 and the
    efficiency model 24-24. *)
Definition level_context : Predictor.Context :=
  {| Predictor.eloRatings :=
       Some {[ "Buffalo Bills" := Fin 1500; "Miami Dolphins" := Fin (15475 # 10) ]};
     Predictor.teamStats :=
       Some [("Buffalo Bills", aggregate 4 220 110 330 20 23 40 50);
             ("Miami Dolphins", aggregate 4 240 100 340 25 23 40 50)];
     Predictor.leagueAverage := Some fallback;
     Predictor.rankings :=
       Some {| offensive := ∅; defensive := ∅; rushOffense := ∅; passDefense := ∅ |} |}.

(** What [predict] makes of it at the instant 0. *)
Definition level_prediction : Predictor.Prediction :=
  {| Predictor.id := "401772";
     Predictor.gameDate := "2025-11-02T18:00Z";
     Predictor.homeTeam := "Buffalo Bills";
     Predictor.awayTeam := "Miami Dolphins";
     Predictor.predictedWinner := "Miami Dolphins";
     Predictor.predictedScore := "23-23";
     Predictor.spread := Fin 0;
     Predictor.confidence := low;
     Predictor.timestamp := 0;
     Predictor.checked := false;
     Predictor.models :=
       {| Predictor.elo :=
            {| Predictor.elo_winner := "Buffalo Bills";
               Predictor.elo_score := "23-23";
               Predictor.elo_confidence := low;
               Predictor.homeWinProb := "66.7";
               Predictor.awayWinProb := "33.3" |};
          Predictor.efficiency :=
            {| Predictor.efficiency_winner := Some "Miami Dolphins";
               Predictor.efficiency_score := "24-24";
               Predictor.efficiency_confidence := low |} |};
     Predictor.correct := None;
     Predictor.actualWinner := None;
     Predictor.actualScore := None;
     Predictor.scoreError := None;
     Predictor.checkedAt := None |}.

(** A stored prediction of the home team by 24-20, and a result of 20-24. *)
Definition stored_prediction : Predictor.Prediction :=
  {| Predictor.id := "401772";
     Predictor.gameDate := "2025-11-02T18:00Z";
     Predictor.homeTeam := "Buffalo Bills";
     Predictor.awayTeam := "Miami Dolphins";
     Predictor.predictedWinner := "Buffalo Bills";
     Predictor.predictedScore := "24-20";
     Predictor.spread := Fin 4;
     Predictor.confidence := low;
     Predictor.timestamp := 0;
     Predictor.checked := false;
     Predictor.models := Predictor.models level_prediction;
     Predictor.correct := None;
     Predictor.actualWinner := None;
     Predictor.actualScore := None;
     Predictor.scoreError := None;
     Predictor.checkedAt := None |}.

Definition stored : gmap nat Predictor.Prediction := {[ 7%nat := stored_prediction ]}.

Definition actual_result : Predictor.ActualResult :=
  {| Predictor.actual_homeTeam := "Buffalo Bills";
     Predictor.actual_awayTeam := "Miami Dolphins";
     Predictor.homeScore := Fin 20;
     Predictor.awayScore := Fin 24 |}.

(** A game of a team that the rating table does not have. *)
Definition unrated_game : Predictor.Game :=
  {| Predictor.game_id := "401773";
     Predictor.date := "2025-11-02T21:25Z";
     Predictor.game_homeTeam := "Frankfurt Galaxy";
     Predictor.game_awayTeam := "Buffalo Bills" |}.

(** The same context without the rankings. *)
Definition unranked_context : Predictor.Context :=
  {| Predictor.eloRatings := Predictor.eloRatings level_context;
     Predictor.teamStats := Predictor.teamStats level_context;
     Predictor.leagueAverage := Predictor.leagueAverage level_context;
     Predictor.rankings := None |}.

End Examples.

(** * Properties *)

(** ** Numbers *)

Module JsNumberFacts.

Lemma Qred_idem (q : Q) : Qred (Qred q) = Qred q.
Proof. apply Qred_complete, Qred_correct. Qed.

Lemma Qsign_Gt (q : Q) : Qsign q = Gt <-> (0 < q)%Q.
Proof. unfold Qsign. rewrite <- Qgt_alt. reflexivity. Qed.

Lemma Qsign_Eq (q : Q) : Qsign q = Eq <-> (q == 0)%Q.
Proof. unfold Qsign. rewrite <- Qeq_alt. reflexivity. Qed.

Lemma Qsign_Lt (q : Q) : Qsign q = Lt <-> (q < 0)%Q.
Proof. unfold Qsign. rewrite <- Qlt_alt. reflexivity. Qed.

Lemma lt_Fin (x y : Q) : (Fin x <? Fin y)%js = true <-> (x < y)%Q.
Proof.
  unfold lt. rewrite Qlt_alt.
  destruct (x ?= y)%Q; split; intros E; congruence.
Qed.

Lemma gt_Fin (x y : Q) : (Fin x >? Fin y)%js = true <-> (y < x)%Q.
Proof. apply lt_Fin. Qed.

Lemma eq_Fin (x y : Q) : (Fin x === Fin y)%js = true <-> (x == y)%Q.
Proof. apply Qeq_bool_iff. Qed.

Lemma le_Fin (x y : Q) : le (Fin x) (Fin y) = true <-> (x <= y)%Q.
Proof.
  unfold le. rewrite orb_true_iff, lt_Fin, eq_Fin. split.
  - intros [E | E]; [apply Qlt_le_weak, E | rewrite E; apply Qle_refl].
  - intros E. apply Qle_lteq in E. exact E.
Qed.

Lemma sub_Fin (x y : Q) : exists d, (Fin x - Fin y)%js = Fin d /\ (d == x - y)%Q.
Proof.
  eexists. split; [reflexivity |].
  rewrite !Qred_correct. reflexivity.
Qed.

(** The comparator [a - b] is positive exactly when [b] is below [a]. *)
Lemma sub_gt_zero (x y : Q) : ((Fin x - Fin y) >? Fin 0)%js = true <-> (y < x)%Q.
Proof.
  destruct (sub_Fin x y) as (d & -> & E).
  rewrite gt_Fin, E. split; intros L.
  - apply (Qplus_lt_l _ _ (- y)). rewrite Qplus_opp_r. exact L.
  - apply (Qplus_lt_l _ _ (- y)) in L. rewrite Qplus_opp_r in L. exact L.
Qed.

Lemma eq_refl_Fin (x : Q) : (Fin x === Fin x)%js = true.
Proof. apply eq_Fin. reflexivity. Qed.

Lemma gt_irrefl (a b : number) : (a === b)%js = true -> (a >? b)%js = false.
Proof.
  destruct a as [x | | |], b as [y | | |]; try discriminate; try reflexivity.
  intros E%eq_Fin. apply not_true_is_false. rewrite gt_Fin, E.
  apply Qlt_irrefl.
Qed.

Lemma Qred_inject_Z (z : Z) : Qred (inject_Z z) = inject_Z z.
Proof.
  unfold Qred, inject_Z.
  pose proof (Z.ggcd_gcd z 1) as G. pose proof (Z.ggcd_correct_divisors z 1) as D.
  destruct (Z.ggcd z 1) as [g [aa bb]]. simpl in G, D.
  rewrite Z.gcd_1_r in G. subst g. destruct D as [-> E].
  rewrite !Z.mul_1_l in *. subst bb. reflexivity.
Qed.

Lemma as_integer_of_Z (z : Z) : as_integer (of_Z z) = Some z.
Proof. unfold as_integer, of_Z. rewrite Qred_inject_Z. reflexivity. Qed.

End JsNumberFacts.

(** ** Strings *)

Module JsStringFacts.

Local Open Scope string_scope.

Lemma append_cons (c : ascii) (a b : string) : String c a ++ b = String c (a ++ b).
Proof. reflexivity. Qed.

Lemma append_empty_l (a : string) : "" ++ a = a.
Proof. reflexivity. Qed.

Lemma append_assoc (a b c : string) : (a ++ b) ++ c = a ++ (b ++ c).
Proof.
  induction a as [| d a IH]; [reflexivity |].
  rewrite !append_cons, IH. reflexivity.
Qed.

Lemma append_empty_r (a : string) : a ++ "" = a.
Proof.
  induction a as [| d a IH]; [reflexivity |].
  rewrite append_cons, IH. reflexivity.
Qed.

Lemma includes_append (c : ascii) (a b : string) :
  includes c (a ++ b) = includes c a || includes c b.
Proof.
  induction a as [| d a IH]; [reflexivity |].
  rewrite append_cons. simpl. rewrite IH. apply orb_assoc.
Qed.

Lemma includes_here (c : ascii) (s : string) : includes c (String c s) = true.
Proof. simpl. rewrite Ascii.eqb_refl. reflexivity. Qed.

Lemma split_not_nil (c : ascii) (s : string) : split c s <> [].
Proof.
  induction s as [| d s IH]; simpl; [discriminate |].
  destruct (Ascii.eqb d c); [discriminate |].
  destruct (split c s); discriminate.
Qed.

(** A string without the separator is the only part. *)
Lemma split_without (c : ascii) (s : string) :
  includes c s = false -> split c s = [s].
Proof.
  induction s as [| d s IH]; simpl; [reflexivity |].
  intros [E1 E2]%orb_false_iff. rewrite E1, (IH E2). reflexivity.
Qed.

(** Splitting at the first separator. *)
Lemma split_first (c : ascii) (a b : string) :
  includes c a = false -> split c (a ++ String c b) = a :: split c b.
Proof.
  induction a as [| d a IH]; rewrite ?append_cons, ?append_empty_l; simpl.
  - intros _. rewrite Ascii.eqb_refl. reflexivity.
  - intros [E1 E2]%orb_false_iff. rewrite E1, (IH E2). reflexivity.
Qed.

(** With the separator in the string there are two parts at least. *)
Lemma split_with (c : ascii) (s : string) :
  includes c s = true -> exists p0 p1 rest, split c s = p0 :: p1 :: rest.
Proof.
  induction s as [| d s IH]; simpl; [discriminate |].
  destruct (Ascii.eqb d c).
  - intros _. destruct (split c s) as [| h t] eqn:E.
    + destruct (split_not_nil _ _ E).
    + eauto.
  - simpl. intros (p0 & p1 & rest & ->)%IH. eauto.
Qed.

Lemma digit_code (c : ascii) :
  is_decimal_digit c = true -> (48 <= code c <= 57)%N.
Proof. unfold is_decimal_digit. intros [?%N.leb_le ?%N.leb_le]%andb_true_iff. lia. Qed.

Lemma digit_is_not (c d : ascii) :
  is_decimal_digit c = true -> is_decimal_digit d = false -> Ascii.eqb c d = false.
Proof.
  intros Hc Hd. destruct (Ascii.eqb_spec c d) as [-> |]; [congruence | reflexivity].
Qed.

Lemma digit_not_whitespace (c : ascii) :
  is_decimal_digit c = true -> is_whitespace c = false.
Proof.
  intros Hc%digit_code. unfold is_whitespace.
  assert ((code c <=? 13)%N = false) as -> by (apply N.leb_gt; lia).
  assert ((code c =? 32)%N = false) as -> by (apply N.eqb_neq; lia).
  assert ((code c =? 160)%N = false) as -> by (apply N.eqb_neq; lia).
  rewrite andb_false_r. reflexivity.
Qed.

Lemma digit_value_decimal (c : ascii) :
  is_decimal_digit c = true -> digit_value 10 c = Some (code c - 48)%N.
Proof.
  intros Hc. unfold digit_value. fold (is_decimal_digit c). rewrite Hc.
  apply digit_code in Hc.
  destruct (N.ltb_spec (code c - 48) 10); [reflexivity | lia].
Qed.

Lemma digits_have_no (c : ascii) (s : string) :
  is_decimal_digit c = false -> all_decimal_digits s = true -> includes c s = false.
Proof.
  intros Hc. induction s as [| d s IH]; simpl; [reflexivity |].
  intros [Hd Hs]%andb_true_iff. rewrite (digit_is_not d c Hd Hc). exact (IH Hs).
Qed.

Lemma span_digits_all (s : string) :
  all_decimal_digits s = true ->
  exists ds, span_digits 10 s = (ds, EmptyString)
    /\ (s <> EmptyString -> ds <> [])
    /\ forall acc, fold_left (fun a d => (a * 10 + d)%N) ds acc = decimal_value_from acc s.
Proof.
  induction s as [| c s IH]; simpl.
  - intros _. exists []. split; [reflexivity | split; [congruence | reflexivity]].
  - intros [Hc Hs]%andb_true_iff. destruct (IH Hs) as (ds & E & _ & V).
    rewrite (digit_value_decimal c Hc), E.
    exists ((code c - 48)%N :: ds).
    split; [reflexivity | split; [discriminate |]].
    intros acc. simpl. apply V.
Qed.

(** [parseInt] reads a digit string as the number it writes. *)
Lemma parseInt_digit_string (s : string) :
  digit_string s -> parseInt s = of_N (decimal_value s).
Proof.
  intros [Hne Hs]. destruct s as [| c s]; [congruence |].
  pose proof Hs as Hs'. simpl in Hs'. apply andb_true_iff in Hs' as [Hc Hr].
  unfold parseInt.
  assert (trimStart (String c s) = String c s) as ->
    by (simpl; rewrite (digit_not_whitespace c Hc); reflexivity).
  assert (scan_sign (String c s) = (false, String c s)) as ->.
  { simpl. rewrite !(digit_is_not c) by (exact Hc || reflexivity). reflexivity. }
  assert (strip_radix_prefix "x" "X" (String c s) = None) as ->.
  { destruct s as [| d s]; [reflexivity |]. simpl in Hr.
    apply andb_true_iff in Hr as [Hd _]. simpl.
    rewrite !(digit_is_not d) by (exact Hd || reflexivity).
    rewrite andb_false_r. reflexivity. }
  destruct (span_digits_all _ Hs) as (ds & -> & Hds & V).
  destruct ds as [| d ds]; [destruct (Hds Hne); reflexivity |].
  unfold digits_value. rewrite V. reflexivity.
Qed.

(** *** Printing and reading back *)

Lemma digit_char_code (d : N) : (d < 10)%N -> code (digit_char d) = (48 + d)%N.
Proof.
  intros Hd. unfold code, digit_char. apply N_ascii_embedding. lia.
Qed.

Lemma digit_char_digit (d : N) : (d < 10)%N -> is_decimal_digit (digit_char d) = true.
Proof.
  intros Hd. unfold is_decimal_digit. rewrite (digit_char_code d Hd).
  apply andb_true_iff. split; apply N.leb_le; lia.
Qed.

Lemma decimal_value_from_append (a b : string) (acc : N) :
  decimal_value_from acc (a ++ b) = decimal_value_from (decimal_value_from acc a) b.
Proof.
  revert acc. induction a as [| c a IH]; intros acc; [reflexivity |].
  rewrite append_cons. simpl. apply IH.
Qed.

Lemma all_decimal_digits_append (a b : string) :
  all_decimal_digits (a ++ b) = all_decimal_digits a && all_decimal_digits b.
Proof.
  induction a as [| c a IH]; [reflexivity |].
  rewrite append_cons. simpl. rewrite IH. apply andb_assoc.
Qed.

(** What [decimal_fuel] puts before the digits it was given. *)
Lemma decimal_fuel_spec (fuel : nat) : forall (n : N) (acc : string),
  (n < 10 ^ N.of_nat fuel)%N -> (0 < fuel)%nat ->
  exists ds, decimal_fuel fuel n acc = ds ++ acc
    /\ ds <> EmptyString
    /\ all_decimal_digits ds = true
    /\ decimal_value ds = n.
Proof.
  induction fuel as [| fuel IH]; intros n acc Hn Hf; [lia |].
  simpl decimal_fuel.
  assert (n mod 10 < 10)%N as Hd by (apply N.mod_lt; lia).
  destruct (N.eqb_spec (n / 10) 0) as [E | E].
  - exists (String (digit_char (n mod 10)) EmptyString). simpl.
    rewrite (digit_char_digit _ Hd).
    split; [reflexivity | split; [discriminate | split; [reflexivity |]]].
    unfold decimal_value. simpl. rewrite (digit_char_code _ Hd).
    pose proof (N.div_mod n 10 ltac:(lia)) as D. rewrite E in D. revert D.
    generalize (n mod 10)%N. intros; lia.
  - destruct fuel as [| fuel'].
    { simpl in Hn. destruct E. apply N.div_small. exact Hn. }
    destruct (IH (n / 10)%N (String (digit_char (n mod 10)) acc)) as (ds & -> & Hne & Hds & V).
    + apply N.Div0.div_lt_upper_bound.
      rewrite <- N.pow_succ_r'. rewrite <- Nnat.Nat2N.inj_succ. exact Hn.
    + lia.
    + exists (ds ++ String (digit_char (n mod 10)) EmptyString).
      split; [| split; [| split]].
      * rewrite append_assoc. reflexivity.
      * destruct ds; [congruence | discriminate].
      * rewrite all_decimal_digits_append, Hds. simpl.
        rewrite (digit_char_digit _ Hd). reflexivity.
      * unfold decimal_value in *. rewrite decimal_value_from_append, V. simpl.
        rewrite (digit_char_code _ Hd).
        pose proof (N.div_mod n 10 ltac:(lia)) as D. revert D.
        generalize (n mod 10)%N (n / 10)%N. intros; lia.
Qed.

Lemma decimal_spec (n : N) :
  digit_string (decimal n) /\ decimal_value (decimal n) = n.
Proof.
  unfold decimal.
  destruct (decimal_fuel_spec (S (N.to_nat (N.log2 n))) n EmptyString)
    as (ds & E & Hne & Hds & V).
  - rewrite Nnat.Nat2N.inj_succ, Nnat.N2Nat.id.
    destruct n as [| p]; [reflexivity |].
    eapply N.lt_le_trans; [apply N.log2_spec; reflexivity |].
    apply N.pow_le_mono_l. lia.
  - lia.
  - rewrite E, append_empty_r.
    split; [split |]; assumption.
Qed.

(** *** Reading a digit string with [Number] *)

Lemma is_not_digit (c d : ascii) :
  is_decimal_digit c = true -> is_decimal_digit d = false -> Ascii.eqb d c = false.
Proof.
  intros Hc Hd. destruct (Ascii.eqb_spec d c) as [-> |]; [congruence | reflexivity].
Qed.

Lemma trimEnd_digits (s : string) : all_decimal_digits s = true -> trimEnd s = s.
Proof.
  induction s as [| c s IH]; simpl; [reflexivity |].
  intros [Hc Hs]%andb_true_iff. rewrite (IH Hs), (digit_not_whitespace c Hc).
  destruct s; reflexivity.
Qed.

Lemma trim_digits (s : string) : digit_string s -> trim s = s.
Proof.
  intros [Hne Hs]. unfold trim. destruct s as [| c s]; [congruence |].
  pose proof Hs as Hs'. simpl in Hs'. apply andb_true_iff in Hs' as [Hc _].
  assert (trimStart (String c s) = String c s) as ->
    by (simpl; rewrite (digit_not_whitespace c Hc); reflexivity).
  apply trimEnd_digits, Hs.
Qed.

Lemma strip_radix_prefix_digits (x X : ascii) (s : string) :
  is_decimal_digit x = false -> is_decimal_digit X = false ->
  all_decimal_digits s = true -> strip_radix_prefix x X s = None.
Proof.
  intros Hx HX Hs. destruct s as [| a [| b r]]; try reflexivity.
  simpl in Hs. apply andb_true_iff in Hs as [_ [Hb _]%andb_true_iff]. simpl.
  rewrite (digit_is_not b x Hb Hx), (digit_is_not b X Hb HX), andb_false_r.
  reflexivity.
Qed.

Lemma scan_decimal_digits (s : string) :
  digit_string s -> scan_decimal s = Some (of_N (decimal_value s), EmptyString).
Proof.
  intros [Hne Hs]. destruct s as [| c s]; [congruence |].
  pose proof Hs as Hs'. simpl in Hs'. apply andb_true_iff in Hs' as [Hc _].
  unfold scan_decimal.
  assert (scan_sign (String c s) = (false, String c s)) as ->.
  { simpl. rewrite !(digit_is_not c) by (exact Hc || reflexivity). reflexivity. }
  assert (strip_prefix "Infinity" (String c s) = None) as ->.
  { cbn [strip_prefix]. rewrite (is_not_digit c "I" Hc) by reflexivity. reflexivity. }
  destruct (span_digits_all _ Hs) as (ds & -> & Hds & V).
  rewrite app_nil_r. destruct ds as [| d ds]; [destruct (Hds Hne); reflexivity |].
  unfold digits_value. rewrite V. simpl scan_exponent. cbv iota beta.
  fold (decimal_value (String c s)).
  change (0 - Z.of_nat (length (@nil N)))%Z with 0%Z.
  change (Qpower (10 # 1) 0) with 1%Q.
  unfold signed, of_N, of_Z.
  rewrite <- (JsNumberFacts.Qred_inject_Z (Z.of_N (decimal_value (String c s)))) at 2.
  do 3 f_equal. apply Qred_complete. apply Qmult_1_r.
Qed.

(** [Number] reads a digit string as the number it writes. *)
Lemma StringToNumber_digit_string (s : string) :
  digit_string s -> StringToNumber s = of_N (decimal_value s).
Proof.
  intros Hs. unfold StringToNumber. rewrite (trim_digits s Hs).
  destruct s as [| c r] eqn:Es; [destruct (proj1 Hs); reflexivity |].
  rewrite <- Es in *. unfold scan_radix_literal.
  rewrite !strip_radix_prefix_digits by (reflexivity || apply Hs).
  rewrite (scan_decimal_digits s Hs). reflexivity.
Qed.

Section Printing.

Context `{Runtime}.

Lemma number_to_string_of_N (n : N) : number_to_string (of_N n) = decimal n.
Proof.
  unfold number_to_string, of_N. rewrite JsNumberFacts.as_integer_of_Z.
  unfold of_Z, Z_to_string.
  destruct (Z.ltb_spec (Z.of_N n) 0) as [L | _]; [lia |].
  rewrite Zabs2N.id. reflexivity.
Qed.

Lemma score_string_of_N (a b : N) :
  score_string (of_N a) (of_N b) = decimal a ++ "-" ++ decimal b.
Proof. unfold score_string. rewrite !number_to_string_of_N. reflexivity. Qed.

End Printing.

End JsStringFacts.

(** ** [parseStatValue] *)

Module ParseStatValueSpec.

Import StatsParser Vocabulary JsNumberFacts JsStringFacts.
Local Open Scope string_scope.

Lemma Qsign_of_N (n : N) :
  Qsign (inject_Z (Z.of_N n)) = if (n =? 0)%N then Eq else Gt.
Proof.
  unfold Qsign, Qcompare. simpl. rewrite Z.mul_1_r.
  destruct n; reflexivity.
Qed.

(** [n || 0] is [n] for a natural number [n]. *)
Lemma of_N_or_zero (n : N) : (of_N n || Fin 0)%js = of_N n.
Proof. destruct n; reflexivity. Qed.

(** The value of the expression [a / b * 100] on natural numbers. *)
Lemma percentage_of_N (a b : N) :
  (of_N a / of_N b * Fin 100)%js =
  if (b =? 0)%N then (if (a =? 0)%N then NaN else PosInf)
  else Fin (Qred (inject_Z (Z.of_N a) / inject_Z (Z.of_N b) * 100)).
Proof.
  unfold of_N, of_Z, div. rewrite !Qsign_of_N.
  destruct (b =? 0)%N.
  - destruct (a =? 0)%N; reflexivity.
  - simpl. f_equal. apply Qred_complete. rewrite Qred_correct. reflexivity.
Qed.

Lemma dash_is_no_digit : is_decimal_digit "-" = false.
Proof. reflexivity. Qed.

(** The made-attempts object in the arithmetic of the model, where the
    quotient is the fraction itself. *)
Lemma made_attempts_exact (A B : string) :
  digit_string A -> digit_string B ->
  let a := decimal_value A in
  let b := decimal_value B in
  parseStatValue (VStr (A ++ "-" ++ B)) =
  VObj {| made := of_N a;
          attempts := of_N b;
          percentage :=
            if String.eqb B "0" then Fin 0
            else if (b =? 0)%N then (if (a =? 0)%N then NaN else PosInf)
            else Fin (Qred (inject_Z (Z.of_N a) / inject_Z (Z.of_N b) * 100)) |}.
Proof.
  intros HA HB a b. unfold parseStatValue.
  pose proof (digits_have_no "-" A dash_is_no_digit (proj2 HA)) as NA.
  pose proof (digits_have_no "-" B dash_is_no_digit (proj2 HB)) as NB.
  rewrite includes_append. change ("-" ++ B) with (String "-" B).
  rewrite includes_here, orb_true_r.
  rewrite (split_first "-" A B NA), (split_without "-" B NB).
  unfold parseInt_item, item_is_not. simpl.
  rewrite (parseInt_digit_string A HA), (parseInt_digit_string B HB).
  fold a b. rewrite !of_N_or_zero, percentage_of_N.
  destruct (String.eqb B "0"); reflexivity.
Qed.

Lemma Q_of_N_nonneg (n : N) : (0 <= inject_Z (Z.of_N n))%Q.
Proof. change 0%Q with (inject_Z 0). rewrite <- Zle_Qle. lia. Qed.

(** C5.  For a string ["A-B"] where [A] and [B] are digit strings,
    [parseStatValue] returns an object [{made, attempts, percentage}]; no
    input makes it throw.  [made] and [attempts] are the numbers that [A]
    and [B] write, as long as these are below 2^53.  [percentage] is 0
    when [B] is the string ["0"]; for a [B] of several zeros it is the
    value of [A / 0 * 100], Infinity, or NaN when [A] is zero too.
    Otherwise [percentage] is the quotient times 100 as the machine
    computes it: a number [p] with [p * B] within [100 * A * 2^-51] of
    [100 * A] (two roundings of a double), equal to [100 * k] when
    [A = k * B] and [100 * k] is below 2^53, between 0 and 100 when
    [A <= B], and at least 100 when [B <= A]. *)
Theorem parseStatValue_made_attempts (A B : string) :
  digit_string A -> digit_string B ->
  let a := decimal_value A in
  let b := decimal_value B in
  exists o,
    parseStatValue (VStr (A ++ "-" ++ B)) = VObj o
    /\ (safe_integer a -> made o = of_N a)
    /\ (safe_integer b -> attempts o = of_N b)
    /\ (B = "0" -> percentage o = Fin 0)
    /\ (B <> "0" -> b = 0%N ->
        percentage o = (if (a =? 0)%N then NaN else PosInf))
    /\ (safe_integer a -> safe_integer b -> b <> 0%N ->
        exists p,
          percentage o = Fin p
          /\ (Qabs (p * inject_Z (Z.of_N b) - 100 * inject_Z (Z.of_N a))
              <= 100 * inject_Z (Z.of_N a) * (1 # 2 ^ 51))%Q
          /\ (forall k : N, a = (k * b)%N -> safe_integer (100 * k) ->
                p = inject_Z (Z.of_N (100 * k)))
          /\ ((a <= b)%N -> (0 <= p <= 100)%Q)
          /\ ((b <= a)%N -> (100 <= p)%Q)).
Proof.
  intros HA HB a b.
  pose proof (made_attempts_exact A B HA HB) as E. cbv zeta in E. fold a b in E.
  eexists. split; [exact E |]. cbn [made attempts percentage].
  split; [reflexivity |]. split; [reflexivity |].
  split; [intros ->; reflexivity |]. split.
  - intros HB0 Hb. apply String.eqb_neq in HB0. rewrite HB0. rewrite Hb. reflexivity.
  - intros _ _ Hb.
    assert (String.eqb B "0" = false) as ->.
    { apply String.eqb_neq. intros ->. apply Hb. reflexivity. }
    apply N.eqb_neq in Hb. rewrite Hb. apply N.eqb_neq in Hb.
    set (x := inject_Z (Z.of_N a)). set (y := inject_Z (Z.of_N b)).
    assert (0 <= x)%Q as Hx by apply Q_of_N_nonneg.
    assert (0 < y)%Q as Hy.
    { subst y. change 0%Q with (inject_Z 0). rewrite <- Zlt_Qlt. lia. }
    assert (Qred (x / y * 100) == x / y * 100)%Q as Er by apply Qred_correct.
    eexists. split; [reflexivity |]. split; [| split; [| split]].
    + rewrite Er.
      assert (x / y * 100 * y - 100 * x == 0)%Q as -> by (field; lra).
      change (Qabs 0) with 0%Q.
      apply Qmult_le_0_compat; [lra | unfold Qle; simpl; lia].
    + intros k Hk _. rewrite <- (Qred_inject_Z (Z.of_N (100 * k))).
      assert (x == inject_Z (Z.of_N k) * y)%Q as Hk'
        by (subst x y; rewrite Hk, N2Z.inj_mul, inject_Z_mult; reflexivity).
      apply Qred_complete. rewrite Hk', N2Z.inj_mul, inject_Z_mult.
      change (inject_Z (Z.of_N 100)) with 100%Q. field. lra.
    + intros Hab. rewrite Er.
      assert (x <= y)%Q as Hxy by (subst x y; rewrite <- Zle_Qle; lia).
      assert (0 <= x / y)%Q by (apply Qle_shift_div_l; lra).
      assert (x / y <= 1)%Q by (apply Qle_shift_div_r; lra).
      lra.
    + intros Hab. rewrite Er.
      assert (y <= x)%Q as Hxy by (subst x y; rewrite <- Zle_Qle; lia).
      assert (1 <= x / y)%Q by (apply Qle_shift_div_l; lra).
      lra.
Qed.

Lemma parseStatValue_made_attempts_witness :
  exists o,
    parseStatValue (VStr "25-35") = VObj o
    /\ made o = Fin 25 /\ attempts o = Fin 35
    /\ exists p, percentage o = Fin p
         /\ (Qabs (p * 35 - 100 * 25) <= 100 * 25 * (1 # 2 ^ 51))%Q
         /\ (0 <= p <= 100)%Q.
Proof.
  destruct (parseStatValue_made_attempts "25" "35") as (o & E & Hm & Ha & _ & _ & Hp);
    [split; (discriminate || reflexivity) .. |].
  destruct Hp as (p & Ep & Ht & _ & Hle & _); [reflexivity | reflexivity | discriminate |].
  exists o. split; [exact E |].
  split; [apply Hm; reflexivity |]. split; [apply Ha; reflexivity |].
  exists p. split; [exact Ep |]. split; [exact Ht |].
  apply Hle. discriminate.
Defined.

(** C9.  A string with a dash anywhere takes the made-attempts branch:
    the result is a [{made, attempts, percentage}] object and never a
    number.  For ["-7"] the text before the dash is empty, so the object is
    [{made: 0, attempts: 7, percentage: NaN}] and not the number -7. *)
Theorem parseStatValue_dash_is_made_attempts (s : string) :
  includes "-" s = true ->
  (exists o, parseStatValue (VStr s) = VObj o)
  /\ (forall n, parseStatValue (VStr s) <> VNum n)
  /\ (s = "-7" ->
      parseStatValue (VStr s) =
      VObj {| made := Fin 0; attempts := Fin 7; percentage := NaN |}).
Proof.
  intros Hs. split; [| split].
  - unfold parseStatValue. rewrite Hs. eauto.
  - intros n. unfold parseStatValue. rewrite Hs. discriminate.
  - intros ->. reflexivity.
Qed.

Lemma parseStatValue_dash_is_made_attempts_witness :
  parseStatValue (VStr "-7") =
  VObj {| made := Fin 0; attempts := Fin 7; percentage := NaN |}.
Proof.
  apply (parseStatValue_dash_is_made_attempts "-7"); reflexivity.
Defined.

End ParseStatValueSpec.

(** ** [Array.prototype.sort] and the rank objects *)

Module ArrayFacts.

Import JsNumberFacts.

Section Sort.

Context {A : Type} (cmp : A -> A -> number).

Lemma sort_insert_perm (x : A) (l : list A) : sort_insert cmp x l ≡ₚ x :: l.
Proof.
  induction l as [| y l IH]; [reflexivity |].
  cbn [sort_insert]. destruct (cmp x y >? Fin 0)%js; [| reflexivity].
  rewrite IH. apply Permutation_swap.
Qed.

Lemma Array_sort_perm (l : list A) : Array_sort cmp l ≡ₚ l.
Proof.
  induction l as [| x l IH]; simpl; [reflexivity |].
  rewrite sort_insert_perm, IH. reflexivity.
Qed.

Variable k : A -> Q.

Local Abbreviation ascending := (ascending_by k).

Lemma sort_insert_sorted (x : A) (l : list A) :
  orders_by cmp k (x :: l) ->
  StronglySorted ascending l -> StronglySorted ascending (sort_insert cmp x l).
Proof.
  intros Hk. induction l as [| y l IH]; cbn [sort_insert]; intros Hl.
  - repeat constructor.
  - apply StronglySorted_inv in Hl as [Hl Hy].
    assert (x ∈ x :: y :: l) as Hx by apply list_elem_of_here.
    assert (y ∈ x :: y :: l) as Hy' by apply list_elem_of_further, list_elem_of_here.
    destruct (cmp x y >? Fin 0)%js eqn:E.
    + apply (Hk x y Hx Hy') in E. constructor.
      * apply IH; [| exact Hl].
        intros a b Ha%elem_of_cons Hb%elem_of_cons.
        apply Hk; rewrite !elem_of_cons; tauto.
      * rewrite sort_insert_perm. constructor; [apply Qlt_le_weak, E | exact Hy].
    + assert (k x <= k y)%Q as L.
      { apply Qnot_lt_le. intros L%(Hk x y Hx Hy'). congruence. }
      constructor; [constructor; assumption |].
      constructor; [exact L |].
      eapply Forall_impl; [exact Hy |]. intros z Hz. exact (Qle_trans _ _ _ L Hz).
Qed.

Lemma Array_sort_sorted (l : list A) :
  orders_by cmp k l -> StronglySorted ascending (Array_sort cmp l).
Proof.
  induction l as [| x l IH]; simpl; intros Hk; [constructor |].
  apply sort_insert_sorted.
  - intros a b Ha Hb. rewrite Array_sort_perm in Ha, Hb. apply Hk; assumption.
  - apply IH. intros a b Ha Hb. apply Hk; apply list_elem_of_further; assumption.
Qed.

(** In a sorted array the keys ascend with the positions. *)
Lemma sorted_lookup (l : list A) (i j : nat) (x y : A) :
  StronglySorted ascending l ->
  (i <= j)%nat -> l !! i = Some x -> l !! j = Some y -> (k x <= k y)%Q.
Proof.
  intros Hl. revert i j. induction Hl as [| z l Hl IH Hz]; intros i j Hij Hi Hj.
  - discriminate.
  - destruct i as [| i], j as [| j]; simpl in *; try lia.
    + injection Hi as <-. injection Hj as <-. apply Qle_refl.
    + injection Hi as <-. rewrite Forall_forall in Hz.
      apply Hz. eapply list_elem_of_lookup_2, Hj.
    + apply (IH i j); [lia | assumption ..].
Qed.

End Sort.

Import StatsParser.

Lemma reduce_ranks_lookup (l : list string) :
  forall (index : nat) (acc : gmap string number) (team : string) (r : number),
  NoDup l ->
  reduce_from set_rank index l acc !! team = Some r <->
  (exists i, l !! i = Some team /\ r = of_nat (index + i + 1))
  \/ ((team ∉ l) /\ acc !! team = Some r).
Proof.
  induction l as [| x l IH]; intros index acc team r Hl; simpl.
  - split.
    + intros E. right. split; [apply not_elem_of_nil | exact E].
    + intros [(i & E & _) | [_ E]]; [discriminate | exact E].
  - apply NoDup_cons in Hl as [Hx Hl]. rewrite (IH _ _ _ _ Hl). unfold set_rank.
    destruct (decide (x = team)) as [-> | Hne].
    + rewrite lookup_insert_eq. split.
      * intros [(i & E & _) | [_ E]].
        -- destruct Hx. eapply list_elem_of_lookup_2, E.
        -- left. exists 0%nat. split; [reflexivity |].
           injection E as <-. f_equal. lia.
      * intros [(i & E & ->) | [Hn _]]; [| destruct Hn; apply list_elem_of_here].
        destruct i as [| i]; simpl in E.
        -- right. split; [exact Hx |]. do 2 f_equal. lia.
        -- destruct Hx. eapply list_elem_of_lookup_2, E.
    + rewrite lookup_insert_ne by exact Hne. split.
      * intros [(i & E & ->) | [Hn E]].
        -- left. exists (S i). split; [exact E | f_equal; lia].
        -- right. split; [| exact E]. apply not_elem_of_cons. split; congruence.
      * intros [(i & E & ->) | [Hn E]].
        -- destruct i as [| i]; simpl in E; [congruence |].
           left. exists i. split; [exact E | f_equal; lia].
        -- right. split; [| exact E]. apply not_elem_of_cons in Hn. tauto.
Qed.

Lemma of_nat_lt (i j : nat) : (of_nat i <? of_nat j)%js = true <-> (i < j)%nat.
Proof.
  unfold of_nat, of_Z. rewrite lt_Fin, <- Zlt_Qlt. lia.
Qed.

End ArrayFacts.

(** ** [calculateRankings] *)

Module RankingSpec.

Import StatsParser JsNumberFacts ArrayFacts.

Section PassDefense.

Variable teamAggregates : dict TeamStats.

Local Abbreviation yards := (yards teamAggregates).
Local Abbreviation by_passing := (by_passing teamAggregates).
Local Abbreviation ranked := (ranked teamAggregates).

Lemma passDefense_unfold :
  passDefense (calculateRankings teamAggregates) =
  number_ranks (Array_sort by_passing ranked).
Proof. reflexivity. Qed.

Lemma ranked_spec (team : string) :
  team ∈ ranked <-> team ∈ keys teamAggregates /\ played teamAggregates team = true.
Proof.
  unfold Vocabulary.ranked, Array_filter. rewrite !list_elem_of_In. apply filter_In.
Qed.

Lemma ranked_NoDup : well_formed teamAggregates -> NoDup ranked.
Proof.
  intros Hwf. apply NoDup_ListNoDup, List.NoDup_filter, NoDup_ListNoDup, Hwf.
Qed.

Hypothesis recorded : passing_recorded teamAggregates.

Lemma ranked_yards (team : string) :
  team ∈ ranked -> passing teamAggregates team = Fin (yards team).
Proof.
  intros [Hin Hp]%ranked_spec. unfold passing_recorded in recorded.
  rewrite Forall_forall in recorded. specialize (recorded team Hin Hp).
  unfold Vocabulary.yards.
  destruct (passing teamAggregates team); (reflexivity || discriminate).
Qed.

Lemma by_passing_orders : orders_by by_passing yards ranked.
Proof.
  intros x y Hx%ranked_yards Hy%ranked_yards. unfold Vocabulary.by_passing.
  unfold passing in Hx, Hy. rewrite Hx, Hy. apply sub_gt_zero.
Qed.

End PassDefense.

(** What the pass-defense ranking sorts on.  It ranks exactly the
    teams with [games > 0], each once.  There is an order of these teams,
    ascending in the [avgPassingYards] of their aggregates, in which the
    rank of a team is its position counted from 1; so a team with strictly
    fewer of these yards has the strictly lower rank number.  The
    [avgPassingYards] of each ranked team is taken to be a number. *)
Theorem passDefense_ranks_ascending (teamAggregates : dict TeamStats) :
  well_formed teamAggregates ->
  passing_recorded teamAggregates ->
  let ranks := passDefense (calculateRankings teamAggregates) in
  exists order : list string,
    NoDup order
    /\ (forall team, team ∈ order <->
          team ∈ keys teamAggregates /\ played teamAggregates team = true)
    /\ (forall i j a b, (i <= j)%nat -> order !! i = Some a -> order !! j = Some b ->
          le (passing teamAggregates a) (passing teamAggregates b) = true)
    /\ (forall team r, ranks !! team = Some r <->
          exists i, order !! i = Some team /\ r = of_nat (i + 1))
    /\ (forall a b ra rb, ranks !! a = Some ra -> ranks !! b = Some rb ->
          (passing teamAggregates a <? passing teamAggregates b)%js = true ->
          (ra <? rb)%js = true).
Proof.
  intros Hwf Hrec ranks.
  set (order := Array_sort (by_passing teamAggregates) (ranked teamAggregates)).
  assert (order ≡ₚ ranked teamAggregates) as Hperm by apply Array_sort_perm.
  assert (NoDup order) as Hnd by (rewrite Hperm; apply ranked_NoDup, Hwf).
  assert (forall team, team ∈ order ->
            passing teamAggregates team = Fin (yards teamAggregates team)) as Hyards
    by (intros team; rewrite Hperm; apply ranked_yards, Hrec).
  assert (forall i j a b, (i <= j)%nat -> order !! i = Some a -> order !! j = Some b ->
            (yards teamAggregates a <= yards teamAggregates b)%Q) as Hsorted.
  { intros i j a b. apply sorted_lookup.
    apply Array_sort_sorted, by_passing_orders, Hrec. }
  assert (forall team r, ranks !! team = Some r <->
            exists i, order !! i = Some team /\ r = of_nat (i + 1)) as Hranks.
  { intros team r. subst ranks. rewrite passDefense_unfold.
    unfold number_ranks, Array_reduce. fold order.
    rewrite (reduce_ranks_lookup order 0 ∅ team r Hnd). split.
    - intros [H | [_ H]]; [exact H | rewrite lookup_empty in H; discriminate].
    - intros H. left. exact H. }
  exists order. split; [exact Hnd |]. split; [| split; [| split]].
  - intros team. rewrite Hperm. apply ranked_spec.
  - intros i j a b Hij Ha Hb.
    rewrite (Hyards a) by (eapply list_elem_of_lookup_2, Ha).
    rewrite (Hyards b) by (eapply list_elem_of_lookup_2, Hb).
    apply le_Fin. exact (Hsorted i j a b Hij Ha Hb).
  - exact Hranks.
  - intros a b ra rb (i & Ha & ->)%Hranks (j & Hb & ->)%Hranks.
    rewrite (Hyards a) by (eapply list_elem_of_lookup_2, Ha).
    rewrite (Hyards b) by (eapply list_elem_of_lookup_2, Hb).
    intros L%lt_Fin. apply of_nat_lt.
    destruct (Nat.le_gt_cases j i) as [Hji | Hij]; [| lia].
    pose proof (Hsorted j i b a Hji Hb Ha) as L'.
    destruct (Qlt_not_le _ _ L L').
Qed.

Lemma passDefense_ranks_ascending_witness :
  let ranks := passDefense (calculateRankings Examples.four_teams) in
  exists order : list string,
    NoDup order
    /\ (forall team, team ∈ order <->
          team ∈ keys Examples.four_teams /\ played Examples.four_teams team = true)
    /\ (forall i j a b, (i <= j)%nat -> order !! i = Some a -> order !! j = Some b ->
          le (passing Examples.four_teams a) (passing Examples.four_teams b) = true)
    /\ (forall team r, ranks !! team = Some r <->
          exists i, order !! i = Some team /\ r = of_nat (i + 1))
    /\ (forall a b ra rb, ranks !! a = Some ra -> ranks !! b = Some rb ->
          (passing Examples.four_teams a <? passing Examples.four_teams b)%js = true ->
          (ra <? rb)%js = true).
Proof.
  apply (passDefense_ranks_ascending Examples.four_teams).
  - apply (bool_decide_unpack _). vm_compute. reflexivity.
  - unfold passing_recorded.
    repeat (apply List.Forall_cons; [vm_compute; intros E; (reflexivity || discriminate E) |]).
    apply List.Forall_nil.
Defined.

(** The ranking of the sample: the [avgPassingYards] are 200 for the
    Dolphins, 200.15 for the Patriots and 250 for the Bills; the Jets have
    not played. *)
Example passDefense_four_teams :
  passDefense (calculateRankings Examples.four_teams) =
  {[ "Miami Dolphins" := Fin 1; "New England Patriots" := Fin 2;
     "Buffalo Bills" := Fin 3 ]}.
Proof. vm_compute. reflexivity. Qed.

(** C1 does not hold of the code: the pass-defense ranking is not by
    passing yards allowed.  [aggregateStats] keeps each team's own passing
    yards and no yards allowed, and [calculateRankings] sorts on that
    [avgPassingYards].  In a season of one game the Bills pass for 300
    yards and the Dolphins for 100: the Bills allow fewer passing yards
    per game (100 against 300), and the ranking gives them the higher
    rank number, 2 against 1. *)
Lemma passDefense_is_not_by_yards_allowed :
  exists teamAggregates,
    aggregateStats Examples.one_game Examples.nothing_logged
      = (Return teamAggregates, Examples.nothing_logged)
    /\ (passing_yards_allowed Examples.one_game "Buffalo Bills"
        <? passing_yards_allowed Examples.one_game "Miami Dolphins")%js = true
    /\ passDefense (calculateRankings teamAggregates) !! "Buffalo Bills"%string = Some (Fin 2)
    /\ passDefense (calculateRankings teamAggregates) !! "Miami Dolphins"%string = Some (Fin 1).
Proof.
  eexists. split; [vm_compute; reflexivity |].
  split; [reflexivity |]. split; vm_compute; reflexivity.
Qed.

(** The metric of the ranking after that game is each team's own passing
    yards. *)
Example one_game_passing :
  exists teamAggregates,
    aggregateStats Examples.one_game Examples.nothing_logged
      = (Return teamAggregates, Examples.nothing_logged)
    /\ passing teamAggregates "Buffalo Bills" = Fin 300
    /\ passing teamAggregates "Miami Dolphins" = Fin 100.
Proof.
  eexists. split; [vm_compute; reflexivity |]. split; reflexivity.
Qed.

(** Without games, the aggregates are the registry with [games = 0]. *)
Example aggregateStats_no_games :
  aggregateStats [] Examples.nothing_logged
  = (Return Examples.season_start, Examples.nothing_logged).
Proof. reflexivity. Qed.

End RankingSpec.

(** ** Effects *)

Module JsEffectFacts.

Lemma bind_Return {A B} (m : M A) (f : A -> M B) (w w' : world) (b : B) :
  (m ≫= f) w = (Return b, w') ->
  exists a w1, m w = (Return a, w1) /\ f a w1 = (Return b, w').
Proof.
  unfold mbind, M_bind. destruct (m w) as [[a | e] w1]; [eauto | discriminate].
Qed.

Lemma bind_run {A B} (m : M A) (f : A -> M B) (w w1 : world) (a : A) :
  m w = (Return a, w1) -> (m ≫= f) w = f a w1.
Proof. unfold mbind, M_bind. intros ->. reflexivity. Qed.

Lemma bind_Throw {A B} (m : M A) (f : A -> M B) (w w1 : world) (e : exn) :
  m w = (Throw e, w1) -> (m ≫= f) w = (Throw e, w1).
Proof. unfold mbind, M_bind. intros ->. reflexivity. Qed.

End JsEffectFacts.

(** ** The efficiency model *)

Module EfficiencySpec.

Import StatsParser Efficiency JsNumberFacts JsEffectFacts.
Local Open Scope string_scope.

Lemma filter_none {A} (f : A -> bool) (l : list A) :
  Forall (fun x => f x = false) l -> List.filter f l = [].
Proof.
  induction 1 as [| x l Hx _ IH]; simpl; [reflexivity |].
  rewrite Hx. exact IH.
Qed.

(** C4.  When no team has [games > 0], [calculateLeagueAverages] returns
    the fallback record 350 / 23 / 23 / 230 / 120 (and logs a warning):
    nothing is divided, and no field is NaN. *)
Theorem calculateLeagueAverages_fallback (teamAggregates : dict TeamStats) (w : world) :
  none_played teamAggregates ->
  calculateLeagueAverages teamAggregates w =
  (Return {| League.avgTotalYards := Fin 350;
             League.avgPointsFor := Fin 23;
             League.avgPointsAgainst := Fin 23;
             League.avgPassingYards := Fin 230;
             League.avgRushingYards := Fin 120 |},
   logged LevelWarn "No teams with games played for league averages" [] w).
Proof.
  intros Hnone. unfold calculateLeagueAverages, Array_filter.
  fold (played teamAggregates). rewrite (filter_none _ _ Hnone). reflexivity.
Qed.

Lemma calculateLeagueAverages_fallback_witness :
  none_played Examples.season_start
  /\ calculateLeagueAverages Examples.season_start Examples.nothing_logged =
     (Return Examples.fallback,
      logged LevelWarn "No teams with games played for league averages" []
        Examples.nothing_logged).
Proof.
  assert (none_played Examples.season_start) as Hnone.
  { unfold none_played. repeat (apply List.Forall_cons; [reflexivity |]).
    apply List.Forall_nil. }
  split; [exact Hnone |].
  exact (calculateLeagueAverages_fallback Examples.season_start Examples.nothing_logged Hnone).
Defined.

Section PredictGame.

Context `{Runtime}.

Lemma calculateMatchupAdvantage_ranked (teamStats opponentStats : TeamStats)
    (rankings : Rankings) (w : world) :
  exists v, calculateMatchupAdvantage teamStats opponentStats (Some rankings) w = (Return v, w).
Proof. eexists. reflexivity. Qed.

Lemma calculateMatchupAdvantage_unranked (teamStats opponentStats : TeamStats) (w : world) :
  calculateMatchupAdvantage teamStats opponentStats None w = (Throw (TypeError "rushOffense"), w).
Proof. reflexivity. Qed.

(** C7, as the code has it.  When the home aggregate, the away aggregate
    or the league average is missing, [predictGame] returns [null], throws
    nothing and logs one error.  When the three are there and the rankings
    too, it returns a prediction record and logs nothing. *)
Theorem predictGame_inputs (homeTeamStats awayTeamStats : option TeamStats)
    (leagueAverage : option LeagueAverage) (rankings : option Rankings) (w : world) :
  (homeTeamStats = None \/ awayTeamStats = None \/ leagueAverage = None ->
   predictGame homeTeamStats awayTeamStats leagueAverage rankings w =
   (Return None,
    logged LevelError "Missing required stats for efficiency prediction" [] w))
  /\ (is_Some homeTeamStats -> is_Some awayTeamStats -> is_Some leagueAverage ->
      is_Some rankings ->
      exists p, predictGame homeTeamStats awayTeamStats leagueAverage rankings w =
                (Return (Some p), w)).
Proof.
  split.
  - intros Hmissing. unfold predictGame.
    destruct homeTeamStats, awayTeamStats, leagueAverage; try reflexivity.
    destruct Hmissing as [? | [? | ?]]; discriminate.
  - intros [h ->] [a ->] [l ->] [r ->]. eexists. reflexivity.
Qed.

(** With the three inputs there and the rankings missing, the first read
    of the rankings throws. *)
Lemma predictGame_unranked (homeTeamStats awayTeamStats : TeamStats)
    (leagueAverage : LeagueAverage) (w : world) :
  predictGame (Some homeTeamStats) (Some awayTeamStats) (Some leagueAverage) None w =
  (Throw (TypeError "rushOffense"), w).
Proof. reflexivity. Qed.

End PredictGame.

Lemma predictGame_inputs_witness :
  (@predictGame Examples.sample_runtime (Some Examples.bills) None
     (Some Examples.fallback) None Examples.nothing_logged =
   (Return None,
    logged LevelError "Missing required stats for efficiency prediction" []
      Examples.nothing_logged))
  /\ (exists p,
        @predictGame Examples.sample_runtime (Some Examples.bills) (Some Examples.patriots)
          (Some Examples.fallback) (Some (calculateRankings Examples.four_teams))
          Examples.nothing_logged =
        (Return (Some p), Examples.nothing_logged)).
Proof.
  split.
  - apply (@predictGame_inputs Examples.sample_runtime). right. left. reflexivity.
  - apply (@predictGame_inputs Examples.sample_runtime); eexists; reflexivity.
Defined.

(** C7, as it is stated, fails: the three inputs are there, and without
    the rankings the call throws and returns no record. *)
Lemma predictGame_three_inputs_throws :
  @predictGame Examples.sample_runtime (Some Examples.bills) (Some Examples.patriots)
    (Some Examples.fallback) None Examples.nothing_logged =
  (Throw (TypeError "rushOffense"), Examples.nothing_logged)
  /\ ~ (exists p w',
          @predictGame Examples.sample_runtime (Some Examples.bills)
            (Some Examples.patriots) (Some Examples.fallback) None
            Examples.nothing_logged = (Return (Some p), w')).
Proof.
  split; [reflexivity |].
  intros (p & w' & E). discriminate E.
Qed.

Lemma or_default_zero (o : option number) (d : number) :
  recorded_zero o -> or_default o d = d.
Proof.
  intros (n & -> & E). unfold or_default, or_else, truthy.
  destruct n as [q | | |]; try discriminate.
  unfold JsNumber.eq in E. rewrite E. reflexivity.
Qed.

Lemma or_default_absent (d : number) : or_default None d = d.
Proof. reflexivity. Qed.

Lemma add_zero_l (a b : number) : ((Fin 0 + a * b) = a * b)%js.
Proof.
  destruct a as [x | | |], b as [y | | |]; simpl; try reflexivity;
    try (destruct (Qsign _); reflexivity).
  f_equal. rewrite <- (Qred_idem (x * y)) at 2.
  apply Qred_complete. apply Qplus_0_l.
Qed.

Lemma add_zero_r (a b : number) : ((a * b + Fin 0 * b) = a * b)%js \/ isFinite b = false.
Proof.
  destruct b as [y | | |]; [left | right; reflexivity ..].
  destruct a as [x | | |]; simpl; try reflexivity;
    try (destruct (Qsign _); reflexivity).
  f_equal. rewrite <- (Qred_idem (x * y)) at 2.
  apply Qred_complete. rewrite !Qred_correct. ring.
Qed.

(** The adjustment reads two fields of each team and is [situational]
    of the four percentages, each with its default. *)
Lemma adjustment_written_out (teamStats opponentStats : TeamStats) :
  calculateSituationalAdjustment teamStats opponentStats =
  situational (or_default (thirdDownPct teamStats) (Fin 40))
              (or_default (thirdDownPct opponentStats) (Fin 40))
              (or_default (redZonePct teamStats) (Fin 50))
              (or_default (redZonePct opponentStats) (Fin 50)).
Proof.
  unfold calculateSituationalAdjustment, situational, thirdDownDiff, redZoneDiff.
  rewrite add_zero_l. reflexivity.
Qed.

(** C10.  [calculateSituationalAdjustment] takes a percentage recorded as
    0 for the default, 40 for third downs and 50 for the red zone, on
    either side of the matchup: with a third-down percentage of 0 the
    adjustment is the one computed from 40 in its place, and it is the
    adjustment of any team that has the field absent, or at 40, and the
    same red-zone percentage; likewise for a red-zone percentage of 0
    and 50.  So a team at 0% against one at 45% is adjusted by
    (40 - 45) * 0.05 and not by (0 - 45) * 0.05.  When both teams have 0%
    in a category, that category adds nothing: the adjustment is what the
    other category alone gives. *)
Theorem situational_zero_is_default (teamStats opponentStats : TeamStats) :
  (recorded_zero (thirdDownPct teamStats) ->
     calculateSituationalAdjustment teamStats opponentStats =
       situational (Fin 40) (or_default (thirdDownPct opponentStats) (Fin 40))
         (or_default (redZonePct teamStats) (Fin 50))
         (or_default (redZonePct opponentStats) (Fin 50))
     /\ calculateSituationalAdjustment opponentStats teamStats =
       situational (or_default (thirdDownPct opponentStats) (Fin 40)) (Fin 40)
         (or_default (redZonePct opponentStats) (Fin 50))
         (or_default (redZonePct teamStats) (Fin 50))
     /\ (forall other : TeamStats,
           thirdDownPct other = None \/ thirdDownPct other = Some (Fin 40) ->
           redZonePct other = redZonePct teamStats ->
           calculateSituationalAdjustment teamStats opponentStats =
             calculateSituationalAdjustment other opponentStats
           /\ calculateSituationalAdjustment opponentStats teamStats =
             calculateSituationalAdjustment opponentStats other))
  /\ (recorded_zero (redZonePct teamStats) ->
     calculateSituationalAdjustment teamStats opponentStats =
       situational (or_default (thirdDownPct teamStats) (Fin 40))
         (or_default (thirdDownPct opponentStats) (Fin 40))
         (Fin 50) (or_default (redZonePct opponentStats) (Fin 50))
     /\ calculateSituationalAdjustment opponentStats teamStats =
       situational (or_default (thirdDownPct opponentStats) (Fin 40))
         (or_default (thirdDownPct teamStats) (Fin 40))
         (or_default (redZonePct opponentStats) (Fin 50)) (Fin 50)
     /\ (forall other : TeamStats,
           redZonePct other = None \/ redZonePct other = Some (Fin 50) ->
           thirdDownPct other = thirdDownPct teamStats ->
           calculateSituationalAdjustment teamStats opponentStats =
             calculateSituationalAdjustment other opponentStats
           /\ calculateSituationalAdjustment opponentStats teamStats =
             calculateSituationalAdjustment opponentStats other))
  /\ (recorded_zero (thirdDownPct teamStats) ->
      recorded_zero (thirdDownPct opponentStats) ->
      calculateSituationalAdjustment teamStats opponentStats =
        ((or_default (redZonePct teamStats) (Fin 50)
          - or_default (redZonePct opponentStats) (Fin 50)) * Fin (3 # 100))%js)
  /\ (recorded_zero (redZonePct teamStats) ->
      recorded_zero (redZonePct opponentStats) ->
      calculateSituationalAdjustment teamStats opponentStats =
        ((or_default (thirdDownPct teamStats) (Fin 40)
          - or_default (thirdDownPct opponentStats) (Fin 40)) * Fin (5 # 100))%js).
Proof.
  split; [| split; [| split]].
  - intros Ht. rewrite !adjustment_written_out.
    rewrite (or_default_zero _ _ Ht).
    split; [reflexivity |]. split; [reflexivity |].
    intros other Ho Hr. rewrite !adjustment_written_out, Hr.
    assert (or_default (thirdDownPct other) (Fin 40) = Fin 40) as ->
      by (destruct Ho as [-> | ->]; reflexivity).
    split; reflexivity.
  - intros Ht. rewrite !adjustment_written_out.
    rewrite (or_default_zero _ _ Ht).
    split; [reflexivity |]. split; [reflexivity |].
    intros other Ho Hr. rewrite !adjustment_written_out, Hr.
    assert (or_default (redZonePct other) (Fin 50) = Fin 50) as ->
      by (destruct Ho as [-> | ->]; reflexivity).
    split; reflexivity.
  - intros Ht Ho. rewrite adjustment_written_out.
    rewrite (or_default_zero _ _ Ht), (or_default_zero _ _ Ho).
    unfold situational. change ((Fin 40 - Fin 40) * Fin (5 # 100))%js with (Fin 0).
    apply add_zero_l.
  - intros Ht Ho. rewrite adjustment_written_out.
    rewrite (or_default_zero _ _ Ht), (or_default_zero _ _ Ho).
    unfold situational. set (x := (_ - _)%js).
    destruct (add_zero_r x (Fin (5 # 100))) as [E' | E']; [| discriminate E'].
    change ((Fin 50 - Fin 50) * Fin (3 # 100))%js with (Fin 0 * Fin (5 # 100))%js.
    exact E'.
Qed.

Lemma situational_zero_is_default_witness :
  calculateSituationalAdjustment Examples.bills
    (Examples.aggregate 2 250 110 360 27 20 45 60) = Fin (-1 # 4)
  /\ calculateSituationalAdjustment
       (Examples.aggregate 2 250 110 360 27 20 45 60) Examples.bills = Fin (1 # 4).
Proof.
  destruct (situational_zero_is_default Examples.bills
              (Examples.aggregate 2 250 110 360 27 20 45 60)) as (H & _).
  destruct H as (E1 & E2 & _); [eexists; split; reflexivity |].
  split; [rewrite E1 | rewrite E2]; reflexivity.
Defined.

End EfficiencySpec.

(** ** The predictor *)

Module PredictorSpec.

Import StatsParser Predictor JsNumberFacts JsStringFacts JsEffectFacts.
Local Open Scope string_scope.

Section WithRuntime.

Context `{Runtime}.

(** What is behind a record that [predict] returns: the two sub-model
    predictions, and the record as their combination. *)
Lemma stats_of_Return (context : Context) (team : string) (w w' : world)
    (teamStats' : TeamStats) :
  stats_of context team w = (Return teamStats', w') ->
  exists t, teamStats context = Some t
    /\ teamStats' = with_teamName (get t team) team /\ w' = w.
Proof.
  unfold stats_of, read. destruct (teamStats context) as [t |]; [| discriminate].
  intros [= <- <-]. eauto.
Qed.

Lemma predict_Some (game : Game) (context : Context) (w w' : world) (p : Prediction) :
  predict game context w = (Return (Some p), w') ->
  exists eloPrediction efficiencyPrediction t w1 w2,
    Elo.predictGame (eloRatings context) (game_homeTeam game) (game_awayTeam game) w
      = (Return (Some eloPrediction), w1)
    /\ teamStats context = Some t
    /\ Efficiency.predictGame
         (Some (with_teamName (get t (game_homeTeam game)) (game_homeTeam game)))
         (Some (with_teamName (get t (game_awayTeam game)) (game_awayTeam game)))
         (leagueAverage context) (rankings context) w1
       = (Return (Some efficiencyPrediction), w2)
    /\ p = combine game eloPrediction efficiencyPrediction (clock w2)
    /\ w' = ticked w2.
Proof.
  unfold predict.
  intros (eloPrediction & w1 & E1 & H1)%bind_Return.
  apply bind_Return in H1 as (homeStats & w2 & E2 & H2).
  apply bind_Return in H2 as (awayStats & w3 & E3 & H3).
  apply bind_Return in H3 as (efficiencyPrediction & w4 & E4 & H4).
  apply stats_of_Return in E2 as (t & Et & -> & ->).
  apply stats_of_Return in E3 as (t' & Et' & -> & ->).
  assert (t' = t) as -> by congruence.
  destruct eloPrediction as [eloPrediction |], efficiencyPrediction as [efficiencyPrediction |];
    try discriminate H4.
  exists eloPrediction, efficiencyPrediction, t, w1, w4.
  injection H4 as <- <-. auto.
Qed.

Lemma confidenceLevels_level (c : Confidence) :
  confidenceLevels c = of_nat (confidence_level c).
Proof. destruct c; reflexivity. Qed.

(** The tier that [combine] gives is the lower of the two. *)
Lemma combine_confidence (game : Game) (eloPrediction : Elo.Prediction)
    (efficiencyPrediction : Efficiency.Prediction) (t : nat) :
  confidence_level (confidence (combine game eloPrediction efficiencyPrediction t)) =
  Nat.min (confidence_level (Elo.confidence eloPrediction))
          (confidence_level (Efficiency.confidence efficiencyPrediction)).
Proof.
  unfold combine. destruct (parse_score _), (parse_score _). cbn [confidence].
  destruct (Elo.confidence eloPrediction), (Efficiency.confidence efficiencyPrediction);
    reflexivity.
Qed.

(** C2.  The confidence of the record that [predict] returns is the
    minimum of the confidence of the Elo prediction and the confidence of
    the efficiency prediction, in the order high (3) > medium (2) > low (1);
    so it exceeds neither.  The two are also the confidences that the
    record shows for its models. *)
Theorem predict_confidence_is_min (game : Game) (context : Context) (w w' : world)
    (p : Prediction) :
  predict game context w = (Return (Some p), w') ->
  exists eloPrediction efficiencyPrediction t w1 w2,
    Elo.predictGame (eloRatings context) (game_homeTeam game) (game_awayTeam game) w
      = (Return (Some eloPrediction), w1)
    /\ teamStats context = Some t
    /\ Efficiency.predictGame
         (Some (with_teamName (get t (game_homeTeam game)) (game_homeTeam game)))
         (Some (with_teamName (get t (game_awayTeam game)) (game_awayTeam game)))
         (leagueAverage context) (rankings context) w1
       = (Return (Some efficiencyPrediction), w2)
    /\ elo_confidence (elo (models p)) = Elo.confidence eloPrediction
    /\ efficiency_confidence (efficiency (models p)) = Efficiency.confidence efficiencyPrediction
    /\ confidence_level (confidence p) =
       Nat.min (confidence_level (Elo.confidence eloPrediction))
               (confidence_level (Efficiency.confidence efficiencyPrediction))
    /\ (confidence_level (confidence p) <= confidence_level (Elo.confidence eloPrediction))%nat
    /\ (confidence_level (confidence p)
        <= confidence_level (Efficiency.confidence efficiencyPrediction))%nat.
Proof.
  intros (eloPrediction & efficiencyPrediction & t & w1 & w2
          & E1 & Et & E2 & -> & _)%predict_Some.
  exists eloPrediction, efficiencyPrediction, t, w1, w2.
  pose proof (combine_confidence game eloPrediction efficiencyPrediction (clock w2)) as Hmin.
  split; [exact E1 |]. split; [exact Et |]. split; [exact E2 |].
  split; [unfold combine; destruct (parse_score _), (parse_score _); reflexivity |].
  split; [unfold combine; destruct (parse_score _), (parse_score _); reflexivity |].
  split; [exact Hmin |]. rewrite Hmin. split; lia.
Qed.

Lemma combine_fields (game : Game) (eloPrediction : Elo.Prediction)
    (efficiencyPrediction : Efficiency.Prediction) (t : nat) :
  let p := combine game eloPrediction efficiencyPrediction t in
  id p = game_id game
  /\ homeTeam p = game_homeTeam game
  /\ awayTeam p = game_awayTeam game
  /\ elo_score (elo (models p)) = Elo.predictedScore eloPrediction
  /\ efficiency_score (efficiency (models p)) = Efficiency.predictedScore efficiencyPrediction.
Proof.
  unfold combine. destruct (parse_score _), (parse_score _). cbn. auto.
Qed.

(** C6.  The combined scores are the blends of the scores that the record
    shows for its two models, and they make its score string.  When the
    combined home score equals the combined away score, the predicted
    winner is the away team: the home team wins only on a strictly higher
    combined score. *)
Theorem predict_tie_goes_away (game : Game) (context : Context) (w w' : world)
    (p : Prediction) :
  predict game context w = (Return (Some p), w') ->
  let '(eloHome, eloAway) := parse_score (elo_score (elo (models p))) in
  let '(effHome, effAway) := parse_score (efficiency_score (efficiency (models p))) in
  let finalHomeScore := blend eloHome effHome in
  let finalAwayScore := blend eloAway effAway in
  predictedScore p = score_string finalHomeScore finalAwayScore
  /\ awayTeam p = game_awayTeam game
  /\ ((finalHomeScore === finalAwayScore)%js = true ->
      predictedWinner p = game_awayTeam game)
  /\ (predictedWinner p = game_homeTeam game ->
      game_homeTeam game <> game_awayTeam game ->
      (finalHomeScore >? finalAwayScore)%js = true).
Proof.
  intros (eloPrediction & efficiencyPrediction & t & w1 & w2
          & _ & _ & _ & -> & _)%predict_Some.
  destruct (combine_fields game eloPrediction efficiencyPrediction (clock w2))
    as (_ & _ & _ & -> & ->).
  unfold combine.
  destruct (parse_score (Elo.predictedScore eloPrediction)) as [eloHome eloAway].
  destruct (parse_score (Efficiency.predictedScore efficiencyPrediction)) as [effHome effAway].
  cbn [predictedScore awayTeam predictedWinner].
  fold (blend eloHome effHome) (blend eloAway effAway).
  split; [reflexivity |]. split; [reflexivity |]. split.
  - intros E%gt_irrefl. rewrite E. reflexivity.
  - destruct (blend eloHome effHome >? blend eloAway effAway)%js; congruence.
Qed.

(** One turn of the loop, by what [predict] does on the game. *)
Lemma predictGames_step_spec (context : Context) (predictions : list Prediction)
    (game : Game) (w : world) :
  predictGames_step context predictions game w =
  match predict game context w with
  | (Return (Some p), w1) => (Return (predictions ++ [p])%list, w1)
  | (Return None, w1) => (Return predictions, w1)
  | (Throw e, w1) =>
      (Return predictions,
       logged LevelError "Failed to predict game"
         [("game", game_homeTeam game ++ " vs " ++ game_awayTeam game);
          ("error", message_of e)] w1)
  end.
Proof.
  unfold predictGames_step, try_catch, mbind, M_bind.
  destruct (predict game context w) as [[[p |] | e] w1]; reflexivity.
Qed.

(** The loop pushes what the batch gives, after what was pushed before. *)
Lemma predictGames_loop_spec (context : Context) (games : list Game) :
  forall (predictions : list Prediction) (w : world),
  predictGames_loop context games predictions w =
  (Return (predictions ++ (batch context games w).1)%list, (batch context games w).2).
Proof.
  induction games as [| game rest IH]; intros predictions w; simpl.
  - rewrite app_nil_r. reflexivity.
  - unfold mbind, M_bind. rewrite predictGames_step_spec.
    destruct (predict game context w) as [[[p |] | e] w1]; rewrite IH.
    + destruct (batch context rest w1) as [ps w2]. simpl.
      rewrite <- app_assoc. reflexivity.
    + reflexivity.
    + reflexivity.
Qed.

(** A batch in two parts: what comes first does not change what [predict]
    is asked for what comes after. *)
Lemma batch_app (context : Context) (before after : list Game) (w : world) :
  batch context (before ++ after) w =
  (((batch context before w).1 ++ (batch context after (batch context before w).2).1)%list,
   (batch context after (batch context before w).2).2).
Proof.
  revert w. induction before as [| game rest IH]; intros w; simpl.
  - destruct (batch context after w); reflexivity.
  - destruct (predict game context w) as [[[p |] | e] w1]; rewrite IH.
    + destruct (batch context rest w1) as [ps w2]. reflexivity.
    + reflexivity.
    + reflexivity.
Qed.

Lemma predict_id (game : Game) (context : Context) (w w' : world) (p : Prediction) :
  predict game context w = (Return (Some p), w') -> id p = game_id game.
Proof.
  intros (eloPrediction & efficiencyPrediction & t & w1 & w2
          & _ & _ & _ & -> & _)%predict_Some.
  apply combine_fields.
Qed.

Lemma batch_sublist (context : Context) (games : list Game) (w : world) :
  sublist (id <$> (batch context games w).1) (game_id <$> games).
Proof.
  revert w. induction games as [| game rest IH]; intros w; simpl.
  - constructor.
  - destruct (predict game context w) as [[[p |] | e] w1] eqn:E.
    + specialize (IH w1). destruct (batch context rest w1) as [ps w2]. simpl in *.
      rewrite (predict_id _ _ _ _ _ E). constructor. exact IH.
    + constructor. apply IH.
    + constructor. apply IH.
Qed.

(** C8.  [predictGames] never throws.  It returns the predictions of the
    games for which [predict] returns a record, in the order of the games
    (their ids are a subsequence of the ids of the games): a game whose
    prediction throws or is absent adds nothing, and the games after it
    are predicted all the same, whatever came before them. *)
Theorem predictGames_batch (games : list Game) (context : Context) (w : world) :
  let ps := (batch context games w).1 in
  let w' := (batch context games w).2 in
  predictGames games context w =
    (Return ps,
     logged LevelInfo
       ("Generated " ++ decimal (N.of_nat (length ps)) ++ "/"
        ++ decimal (N.of_nat (length games)) ++ " predictions") [] w')
  /\ sublist (id <$> ps) (game_id <$> games)
  /\ (forall before after, games = (before ++ after)%list ->
      ps = ((batch context before w).1
            ++ (batch context after (batch context before w).2).1)%list).
Proof.
  intros ps w'. split; [| split].
  - unfold predictGames, mbind, M_bind.
    rewrite predictGames_loop_spec. reflexivity.
  - apply batch_sublist.
  - intros before after ->. subst ps. rewrite batch_app. reflexivity.
Qed.

(** The scores that a score string of two natural numbers reads as. *)
Lemma parse_score_decimal (a b : N) :
  parse_score (decimal a ++ "-" ++ decimal b) = (of_N a, of_N b).
Proof.
  destruct (decimal_spec a) as [Ha Va], (decimal_spec b) as [Hb Vb].
  unfold parse_score. change ("-" ++ decimal b) with (String "-" (decimal b)).
  rewrite (split_first "-" _ _ (digits_have_no "-" _ eq_refl (proj2 Ha))).
  rewrite (split_without "-" _ (digits_have_no "-" _ eq_refl (proj2 Hb))).
  unfold StringToNumber_item. simpl.
  rewrite (StringToNumber_digit_string _ Ha), (StringToNumber_digit_string _ Hb), Va, Vb.
  reflexivity.
Qed.

(** C3.  On a prediction record [p] in the store, [checkPrediction]
    allocates a new record and leaves every object of the store, [p]
    included, as it was.  In the new record [checked] is true;
    [actualWinner] is the side with the strictly higher actual score (and
    the away team when neither is higher); [correct] tells whether the
    predicted winner is that actual winner; [scoreError] is
    |predicted home - actual home| + |predicted away - actual away| for
    the two scores that the score string of [p] writes; the properties of
    [p] are copied. *)
Theorem checkPrediction_spec (h : heap) (prediction : nat) (p : Prediction)
    (actualResult : ActualResult) (w : world) :
  h !! prediction = Some p ->
  exists (r : nat) (result : Prediction),
    checkPrediction h prediction actualResult w = (Return (r, <[r := result]> h), ticked w)
    /\ h !! r = None
    /\ (forall l x, h !! l = Some x -> <[r := result]> h !! l = Some x)
    /\ <[r := result]> h !! prediction = Some p
    /\ checked result = true
    /\ (exists winner, actualWinner result = Some winner
        /\ ((homeScore actualResult >? awayScore actualResult)%js = true ->
            winner = actual_homeTeam actualResult)
        /\ ((awayScore actualResult >? homeScore actualResult)%js = true ->
            winner = actual_awayTeam actualResult)
        /\ ((homeScore actualResult >? awayScore actualResult)%js = false ->
            winner = actual_awayTeam actualResult)
        /\ exists b, correct result = Some b
             /\ (b = true <-> predictedWinner p = winner))
    /\ (forall a b : N, predictedScore p = decimal a ++ "-" ++ decimal b ->
        scoreError result =
        Some (Math_abs (of_N a - homeScore actualResult)
              + Math_abs (of_N b - awayScore actualResult))%js)
    /\ scoreError result =
       Some (Math_abs ((parse_score (predictedScore p)).1 - homeScore actualResult)
             + Math_abs ((parse_score (predictedScore p)).2 - awayScore actualResult))%js
    /\ actualScore result =
       Some (score_string (homeScore actualResult) (awayScore actualResult))
    /\ checkedAt result = Some (clock w)
    /\ (id result, gameDate result, homeTeam result, awayTeam result,
        predictedWinner result, predictedScore result, spread result,
        confidence result, timestamp result, models result)
       = (id p, gameDate p, homeTeam p, awayTeam p, predictedWinner p,
          predictedScore p, spread p, confidence p, timestamp p, models p).
Proof.
  intros Hp.
  assert (h !! fresh (dom h) = None) as Hfresh by apply not_elem_of_dom, is_fresh.
  unfold checkPrediction. rewrite Hp.
  unfold read, mbind, M_bind, mret, M_ret, now. cbv beta iota zeta.
  destruct (parse_score (predictedScore p)) as [predHome predAway] eqn:Escore.
  eexists _, _. split; [reflexivity |]. split; [exact Hfresh |].
  assert (forall (result : Prediction) l x,
            h !! l = Some x -> <[fresh (dom h) := result]> h !! l = Some x) as Hkept.
  { intros result l x Hl. rewrite lookup_insert_ne; [exact Hl | congruence]. }
  split; [apply Hkept |]. split; [apply Hkept, Hp |]. split; [reflexivity |].
  cbn [actualWinner correct scoreError actualScore checkedAt id gameDate homeTeam
       awayTeam predictedWinner predictedScore spread confidence timestamp models].
  split; [| split; [| auto]].
  - eexists. split; [reflexivity |].
    destruct (homeScore actualResult >? awayScore actualResult)%js eqn:E.
    + split; [reflexivity |]. split; [| split; [discriminate |]].
      * intros E'. unfold gt in E, E'.
        destruct (homeScore actualResult) as [x | | |], (awayScore actualResult) as [y | | |];
          try discriminate.
        apply lt_Fin in E, E'. destruct (Qlt_irrefl x). exact (Qlt_trans _ _ _ E' E).
      * eexists. split; [reflexivity |]. apply String.eqb_eq.
    + split; [discriminate |]. split; [reflexivity |]. split; [reflexivity |].
      eexists. split; [reflexivity |]. apply String.eqb_eq.
  - intros a b Hab. rewrite Hab, parse_score_decimal in Escore.
    injection Escore as <- <-. reflexivity.
Qed.

End WithRuntime.

Lemma predict_confidence_is_min_witness :
  @predict Examples.sample_runtime Examples.sample_game Examples.sample_context
    Examples.nothing_logged
  = (Return (Some Examples.sample_prediction), ticked Examples.nothing_logged)
  /\ exists eloPrediction efficiencyPrediction,
       elo_confidence (elo (models Examples.sample_prediction))
         = Elo.confidence eloPrediction
       /\ efficiency_confidence (efficiency (models Examples.sample_prediction))
         = Efficiency.confidence efficiencyPrediction
       /\ confidence_level (confidence Examples.sample_prediction) =
          Nat.min (confidence_level (Elo.confidence eloPrediction))
                  (confidence_level (Efficiency.confidence efficiencyPrediction)).
Proof.
  assert (@predict Examples.sample_runtime Examples.sample_game Examples.sample_context
            Examples.nothing_logged
          = (Return (Some Examples.sample_prediction), ticked Examples.nothing_logged)) as E
    by (vm_compute; reflexivity).
  split; [exact E |].
  destruct (@predict_confidence_is_min Examples.sample_runtime _ _ _ _ _ E)
    as (eloPrediction & efficiencyPrediction & t & w1 & w2
        & _ & _ & _ & E1 & E2 & Hmin & _).
  exists eloPrediction, efficiencyPrediction. auto.
Defined.

Lemma predict_tie_goes_away_witness :
  @predict Examples.sample_runtime Examples.sample_game Examples.level_context
    Examples.nothing_logged
  = (Return (Some Examples.level_prediction), ticked Examples.nothing_logged)
  /\ predictedScore Examples.level_prediction = "23-23"
  /\ predictedWinner Examples.level_prediction = "Miami Dolphins".
Proof.
  assert (@predict Examples.sample_runtime Examples.sample_game Examples.level_context
            Examples.nothing_logged
          = (Return (Some Examples.level_prediction), ticked Examples.nothing_logged)) as E
    by (vm_compute; reflexivity).
  split; [exact E |].
  pose proof (@predict_tie_goes_away Examples.sample_runtime _ _ _ _ _ E) as (Hs & _ & Hw & _).
  split; [exact Hs | exact (Hw eq_refl)].
Defined.

Lemma checkPrediction_spec_witness :
  exists (r : nat) (result : Prediction),
    @checkPrediction Examples.sample_runtime Examples.stored 7 Examples.actual_result
      Examples.nothing_logged
    = (Return (r, <[r := result]> Examples.stored), ticked Examples.nothing_logged)
    /\ <[r := result]> Examples.stored !! 7%nat = Some Examples.stored_prediction
    /\ checked result = true
    /\ actualWinner result = Some "Miami Dolphins"
    /\ correct result = Some false
    /\ scoreError result = Some (Fin 8).
Proof.
  destruct (@checkPrediction_spec Examples.sample_runtime Examples.stored 7
              Examples.stored_prediction Examples.actual_result Examples.nothing_logged
              eq_refl)
    as (r & result & E & _ & _ & Hkept & Hchecked
        & (winner & Hwinner & _ & Haway & _ & b & Hcorrect & Hb) & Herror & _).
  exists r, result.
  specialize (Haway eq_refl). simpl in Haway. subst winner.
  split; [exact E |]. split; [exact Hkept |]. split; [exact Hchecked |].
  split; [exact Hwinner |]. split.
  - rewrite Hcorrect. destruct b; [| reflexivity].
    destruct Hb as [Hb _]. discriminate (Hb eq_refl).
  - exact (Herror 24%N 20%N eq_refl).
Defined.

(** A batch whose first game has no prediction: the second is predicted
    all the same. *)
Lemma predictGames_batch_witness :
  @predictGames Examples.sample_runtime [Examples.unrated_game; Examples.sample_game]
    Examples.sample_context Examples.nothing_logged
  = (Return [Examples.sample_prediction],
     {| log :=
          [{| level := LevelError;
              message := "Cannot predict: team ratings not found";
              context := [("homeTeam", "Frankfurt Galaxy"); ("awayTeam", "Buffalo Bills")] |};
           {| level := LevelError;
              message := "Failed to generate predictions";
              context := [("homeTeam", "Frankfurt Galaxy"); ("awayTeam", "Buffalo Bills")] |};
           {| level := LevelInfo;
              message := "Generated 1/2 predictions";
              context := [] |}];
        clock := 1 |}).
Proof.
  destruct (@predictGames_batch Examples.sample_runtime
              [Examples.unrated_game; Examples.sample_game]
              Examples.sample_context Examples.nothing_logged) as [-> _].
  vm_compute. reflexivity.
Defined.

(** A batch in which every prediction throws, the rankings being missing:
    each throw is caught and logged, and the batch returns. *)
Example predictGames_all_thrown :
  @predictGames Examples.sample_runtime [Examples.sample_game; Examples.sample_game]
    Examples.unranked_context Examples.nothing_logged
  = (Return [],
     {| log :=
          [{| level := LevelError;
              message := "Failed to predict game";
              context :=
                [("game", "Buffalo Bills vs Miami Dolphins");
                 ("error", "Cannot read properties of undefined (reading 'rushOffense')")] |};
           {| level := LevelError;
              message := "Failed to predict game";
              context :=
                [("game", "Buffalo Bills vs Miami Dolphins");
                 ("error", "Cannot read properties of undefined (reading 'rushOffense')")] |};
           {| level := LevelInfo;
              message := "Generated 0/2 predictions";
              context := [] |}];
        clock := 0 |}).
Proof. vm_compute. reflexivity. Qed.

End PredictorSpec.

(** * Further properties of the code *)

(** ** Objects *)

Module JsObjectFacts.

Section Dict.

Context {V : Type}.

Lemma get_In (o : dict V) (k : string) (v : V) : get o k = Some v -> In (k, v) o.
Proof.
  induction o as [| [k' v'] o IH]; simpl; [discriminate |].
  destruct (String.eqb_spec k' k) as [-> |]; [intros [= ->]; left; reflexivity |].
  intros E. right. exact (IH E).
Qed.

Lemma get_None (o : dict V) (k : string) : k ∉ keys o -> get o k = None.
Proof.
  induction o as [| [k' v] o IH]; simpl; [reflexivity |].
  rewrite not_elem_of_cons. intros [Hne Hk].
  destruct (String.eqb_spec k' k); [congruence | exact (IH Hk)].
Qed.

Lemma get_is_Some (o : dict V) (k : string) : is_Some (get o k) <-> k ∈ keys o.
Proof.
  induction o as [| [k' v] o IH]; simpl.
  - rewrite elem_of_nil. split; [intros [? [=]] | tauto].
  - rewrite elem_of_cons. destruct (String.eqb_spec k' k) as [-> | Hne].
    + split; eauto.
    + rewrite IH. split; [tauto | intros [? | ?]; [congruence | assumption]].
Qed.

(** An object with one entry for each name of a list. *)
Lemma get_table (c : string -> V) (l : list string) (k : string) :
  get (map (fun t => (t, c t)) l) k = if bool_decide (k ∈ l) then Some (c k) else None.
Proof.
  induction l as [| t l IH]; simpl; [reflexivity |].
  destruct (String.eqb_spec t k) as [-> | Hne].
  - rewrite bool_decide_eq_true_2 by apply list_elem_of_here. reflexivity.
  - rewrite IH. destruct (decide (k ∈ l)) as [Hin | Hnin].
    + rewrite !bool_decide_eq_true_2;
        [reflexivity | apply list_elem_of_further, Hin | exact Hin].
    + rewrite !bool_decide_eq_false_2; [reflexivity | | exact Hnin].
      rewrite elem_of_cons. intros [-> | Hin]; [congruence | exact (Hnin Hin)].
Qed.

Lemma put_table (c : string -> V) (l : list string) (k : string) (v : V) :
  NoDup l ->
  StatsParser.put (map (fun t => (t, c t)) l) k v =
  map (fun t => (t, if String.eqb t k then v else c t)) l.
Proof.
  induction l as [| a l IH]; simpl; intros Hnd; [reflexivity |].
  apply NoDup_cons in Hnd as [Ha Hl].
  destruct (String.eqb_spec a k) as [-> | Hne].
  - f_equal. apply map_ext_in. intros t Ht.
    destruct (String.eqb_spec t k) as [-> |]; [| reflexivity].
    destruct Ha. apply list_elem_of_In, Ht.
  - f_equal. apply IH, Hl.
Qed.

End Dict.

Lemma NFL_TEAMS_NoDup : NoDup NFL_TEAMS.
Proof. apply (bool_decide_unpack _). vm_compute. reflexivity. Qed.

End JsObjectFacts.

(** ** [normalizeStatName] *)

Module StatNameSpec.

Import StatsParser JsObjectFacts.
Local Open Scope string_scope.

Lemma toLowerCase_unit_idem (c : ascii) :
  toLowerCase_unit (toLowerCase_unit c) = toLowerCase_unit c.
Proof. destruct c as [[] [] [] [] [] [] [] []]; reflexivity. Qed.

Lemma toLowerCase_unit_whitespace (c : ascii) :
  is_whitespace (toLowerCase_unit c) = is_whitespace c.
Proof. destruct c as [[] [] [] [] [] [] [] []]; reflexivity. Qed.

Lemma toLowerCase_unit_dash (c : ascii) :
  Ascii.eqb "-" (toLowerCase_unit c) = Ascii.eqb "-" c.
Proof. destruct c as [[] [] [] [] [] [] [] []]; reflexivity. Qed.

Lemma toLowerCase_idem (s : string) : toLowerCase (toLowerCase s) = toLowerCase s.
Proof.
  induction s as [| c s IH]; simpl; [reflexivity |].
  rewrite toLowerCase_unit_idem, IH. reflexivity.
Qed.

Lemma remove_all_toLowerCase (p : ascii -> bool) (s : string) :
  (forall c, p (toLowerCase_unit c) = p c) ->
  remove_all p (toLowerCase s) = toLowerCase (remove_all p s).
Proof.
  intros Hp. induction s as [| c s IH]; simpl; [reflexivity |].
  rewrite Hp, IH. destruct (p c); reflexivity.
Qed.

Lemma remove_all_idem (p : ascii -> bool) (s : string) :
  remove_all p (remove_all p s) = remove_all p s.
Proof.
  induction s as [| c s IH]; simpl; [reflexivity |].
  destruct (p c) eqn:E; simpl; rewrite ?E, IH; reflexivity.
Qed.

Lemma remove_all_comm (p q : ascii -> bool) (s : string) :
  remove_all p (remove_all q s) = remove_all q (remove_all p s).
Proof.
  induction s as [| c s IH]; simpl; [reflexivity |].
  destruct (p c) eqn:Ep, (q c) eqn:Eq; simpl; rewrite ?Ep, ?Eq, IH; reflexivity.
Qed.

(** Folding a folded name changes nothing. *)
Lemma fold_name_idem (rawName : string) : fold_name (fold_name rawName) = fold_name rawName.
Proof.
  unfold fold_name.
  rewrite (remove_all_toLowerCase is_whitespace) by apply toLowerCase_unit_whitespace.
  rewrite (remove_all_toLowerCase (Ascii.eqb "-")) by apply toLowerCase_unit_dash.
  rewrite toLowerCase_idem. f_equal.
  rewrite (remove_all_comm is_whitespace (Ascii.eqb "-") (remove_all is_whitespace rawName)).
  rewrite !remove_all_idem. reflexivity.
Qed.

Lemma standard_names_fixed :
  Forall (fun v => normalizeStatName v = Name v) (STAT_NAMES.*2).
Proof. repeat (constructor; [reflexivity |]). constructor. Qed.

(** X1.  [normalizeStatName] is idempotent: the string that
    it returns for a name is returned for that string too. *)
Theorem normalizeStatName_idempotent (rawName s : string) :
  normalizeStatName rawName = Name s -> normalizeStatName s = Name s.
Proof.
  intros E. pose proof E as E'. revert E'.
  unfold normalizeStatName at 1, property_at.
  destruct (get STAT_NAMES (fold_name rawName)) as [standard |] eqn:G.
  - destruct (nonempty standard); intros [= <-]; [| exact E].
    apply get_In in G. pose proof standard_names_fixed as F.
    rewrite List.Forall_forall in F. apply F.
    apply (in_map snd) in G. exact G.
  - destruct (bool_decide _); [discriminate |]. intros [= <-]. exact E.
Qed.

Lemma normalizeStatName_idempotent_witness :
  normalizeStatName "passingYards" = Name "passingYards".
Proof. apply (normalizeStatName_idempotent "Net Passing-Yards"). reflexivity. Defined.

(** What the function makes of each key of the table. *)
Lemma table_keys :
  Forall (fun '(k, v) =>
            normalizeStatName k =
            Name (if bool_decide (k ∈ ["sacks-yardslost"; "sacksYardsLost"]) then k else v))
    STAT_NAMES.
Proof. repeat (constructor; [vm_compute; reflexivity |]). constructor. Qed.

(** X2.  The table is read under the folded name, which
    has no capital and no dash: folding a folded name changes nothing, so
    an entry whose key is not folded is never found.  For each entry
    [k: v] of [STAT_NAMES], [normalizeStatName(k)] is [v], but for the keys
    [sacks-yardslost] and [sacksYardsLost]: they come back as they are,
    and not as [sacks]. *)
Theorem normalizeStatName_on_keys (k v : string) :
  In (k, v) STAT_NAMES ->
  normalizeStatName k =
    Name (if bool_decide (k ∈ ["sacks-yardslost"; "sacksYardsLost"]) then k else v)
  /\ (forall rawName, fold_name rawName = k -> fold_name k = k).
Proof.
  intros Hk. split.
  - pose proof table_keys as F. rewrite List.Forall_forall in F. exact (F (k, v) Hk).
  - intros rawName <-. apply fold_name_idem.
Qed.

Lemma normalizeStatName_on_keys_witness :
  normalizeStatName "sacksYardsLost" = Name "sacksYardsLost"
  /\ normalizeStatName "netpassingyards" = Name "passingYards".
Proof.
  split.
  - apply (normalizeStatName_on_keys "sacksYardsLost" "sacks"). do 23 right. left. reflexivity.
  - apply (normalizeStatName_on_keys "netpassingyards" "passingYards"). right. left. reflexivity.
Defined.

End StatNameSpec.

(** ** The other branches of [parseStatValue] *)

Module ParseStatValueBranches.

Import JsString StatsParser Vocabulary JsNumberFacts JsStringFacts ParseStatValueSpec.
Local Open Scope string_scope.

(** X3.  [parseStatValue] is idempotent: a value that it
    returned comes back unchanged, whether a number, a made-attempts object
    or a string that does not read as a number. *)
Theorem parseStatValue_idempotent (v : value) :
  parseStatValue (parseStatValue v) = parseStatValue v.
Proof.
  destruct v as [| | b | n | s | o]; try reflexivity.
  remember (parseStatValue (VStr s)) as r eqn:R.
  pose proof R as R'. unfold parseStatValue in R.
  destruct (includes "-" s); [subst r; reflexivity |].
  destruct (includes "%" s); [subst r; reflexivity |].
  destruct (includes ":" s); [subst r; reflexivity |].
  destruct (isNaN (parseFloat s)); subst r; [symmetry; exact R' | reflexivity].
Qed.

Lemma trimStart_digits (s : string) : digit_string s -> trimStart s = s.
Proof.
  intros [Hne Hs]. destruct s as [| c s]; [reflexivity |].
  simpl in Hs. apply andb_true_iff in Hs as [Hc _].
  simpl. rewrite (digit_not_whitespace c Hc). reflexivity.
Qed.

Lemma parseFloat_digit_string (s : string) :
  digit_string s -> parseFloat s = of_N (decimal_value s).
Proof.
  intros Hs. unfold parseFloat.
  rewrite (trimStart_digits s Hs), (scan_decimal_digits s Hs). reflexivity.
Qed.

Lemma remove_first_last (c : ascii) (s : string) :
  includes c s = false -> remove_first c (s ++ String c "") = s.
Proof.
  induction s as [| d s IH]; rewrite ?append_cons, ?append_empty_l; simpl.
  - intros _. rewrite Ascii.eqb_refl. reflexivity.
  - intros [E1 E2]%orb_false_iff. rewrite E1, (IH E2). reflexivity.
Qed.

Lemma not_digit_value (c : ascii) :
  is_decimal_digit c = false -> Ascii.eqb c "." = true -> digit_value 10 c = None.
Proof. intros _ ->%Ascii.eqb_eq. reflexivity. Qed.

(** The digits of a digit string that a point follows. *)
Lemma span_digits_point (a rest : string) :
  all_decimal_digits a = true ->
  exists ds, span_digits 10 (a ++ String "." rest) = (ds, String "." rest)
    /\ length ds = String.length a
    /\ (a <> EmptyString -> ds <> [])
    /\ forall acc, fold_left (fun x d => (x * 10 + d)%N) ds acc = decimal_value_from acc a.
Proof.
  induction a as [| c a IH]; rewrite ?append_cons, ?append_empty_l.
  - intros _. exists []. repeat split; try reflexivity. congruence.
  - simpl all_decimal_digits. intros [Hc Ha]%andb_true_iff.
    destruct (IH Ha) as (ds & E & L & _ & V).
    cbn [span_digits]. rewrite (digit_value_decimal c Hc), E.
    exists ((code c - 48)%N :: ds). split; [reflexivity |].
    split; [simpl; rewrite L; reflexivity |].
    split; [discriminate |]. intros acc. simpl. apply V.
Qed.

Lemma span_digits_length (s : string) :
  all_decimal_digits s = true ->
  exists ds, span_digits 10 s = (ds, EmptyString)
    /\ length ds = String.length s
    /\ forall acc, fold_left (fun x d => (x * 10 + d)%N) ds acc = decimal_value_from acc s.
Proof.
  induction s as [| c s IH]; simpl.
  - intros _. exists []. repeat split; reflexivity.
  - intros [Hc Hs]%andb_true_iff. destruct (IH Hs) as (ds & E & L & V).
    rewrite (digit_value_decimal c Hc), E.
    exists ((code c - 48)%N :: ds). split; [reflexivity |].
    split; [simpl; rewrite L; reflexivity |]. intros acc. simpl. apply V.
Qed.

(** [parseFloat] reads [A.B] as the decimal number it writes. *)
Lemma parseFloat_decimal (A B : string) :
  digit_string A -> all_decimal_digits B = true ->
  parseFloat (A ++ "." ++ B) =
  Fin (Qred (inject_Z (Z.of_N (decimal_value (A ++ B)))
             * Qpower (10 # 1) (- Z.of_nat (String.length B)))).
Proof.
  intros [Hne HA] HB. unfold parseFloat.
  destruct A as [| c A]; [congruence |].
  pose proof HA as HA'. simpl in HA'. apply andb_true_iff in HA' as [Hc _].
  assert (trimStart (String c A ++ "." ++ B) = String c A ++ "." ++ B) as ->.
  { rewrite append_cons. simpl. rewrite (digit_not_whitespace c Hc). reflexivity. }
  unfold scan_decimal.
  assert (scan_sign (String c A ++ "." ++ B) = (false, String c A ++ "." ++ B)) as ->.
  { rewrite append_cons. simpl.
    rewrite !(digit_is_not c) by (exact Hc || reflexivity). reflexivity. }
  assert (strip_prefix "Infinity" (String c A ++ "." ++ B) = None) as ->.
  { rewrite append_cons. cbn [strip_prefix].
    rewrite (is_not_digit c "I" Hc) by reflexivity. reflexivity. }
  change ("." ++ B) with (String "." B).
  destruct (span_digits_point (String c A) B HA) as (ip & -> & _ & Hip & Vip).
  rewrite Ascii.eqb_refl.
  destruct (span_digits_length B HB) as (fp & -> & Lfp & Vfp).
  destruct (ip ++ fp)%list as [| d ds] eqn:Eds.
  { apply app_eq_nil in Eds as [-> _]. destruct Hip; [discriminate | reflexivity]. }
  rewrite <- Eds. simpl scan_exponent. cbv iota beta.
  unfold digits_value. rewrite fold_left_app, Vip, Vfp.
  unfold decimal_value. rewrite decimal_value_from_append, Lfp.
  reflexivity.
Qed.

(** The number branches in the arithmetic of the model, where a decimal
    is read as the fraction it writes. *)
Lemma number_exact (A B : string) :
  digit_string A -> all_decimal_digits B = true ->
  parseStatValue (VStr A) = VNum (of_N (decimal_value A))
  /\ parseStatValue (VStr (A ++ "%")) = VNum (of_N (decimal_value A))
  /\ parseStatValue (VStr (A ++ "." ++ B)) =
     VNum (Fin (Qred (inject_Z (Z.of_N (decimal_value (A ++ B)))
                      * Qpower (10 # 1) (- Z.of_nat (String.length B))))).
Proof.
  intros HA HB.
  pose proof (digits_have_no "-" A eq_refl (proj2 HA)) as N1.
  pose proof (digits_have_no "%" A eq_refl (proj2 HA)) as N2.
  pose proof (digits_have_no ":" A eq_refl (proj2 HA)) as N3.
  pose proof (digits_have_no "-" B eq_refl HB) as B1.
  pose proof (digits_have_no "%" B eq_refl HB) as B2.
  pose proof (digits_have_no ":" B eq_refl HB) as B3.
  split; [| split]; unfold parseStatValue.
  - rewrite N1, N2, N3, (parseFloat_digit_string A HA). reflexivity.
  - rewrite !includes_append, N1, N2. simpl includes. simpl orb.
    rewrite (remove_first_last "%" A N2), (parseFloat_digit_string A HA), of_N_or_zero.
    reflexivity.
  - rewrite !includes_append, N1, N2, N3, B1, B2, B3. simpl includes. simpl orb.
    cbv iota. rewrite (parseFloat_decimal A B HA HB). reflexivity.
Qed.

(** A digit string after the digits [acc]: the value is [acc] shifted by
    the length of the string, plus the value of the string, which is
    below ten to that length. *)
Lemma decimal_value_from_bound (s : string) : forall acc : N,
  all_decimal_digits s = true ->
  exists r, decimal_value_from acc s = (acc * 10 ^ N.of_nat (String.length s) + r)%N
    /\ (r < 10 ^ N.of_nat (String.length s))%N
    /\ r = decimal_value s.
Proof.
  induction s as [| c s IH]; intros acc Hs.
  - exists 0%N. simpl. split; [lia |]. split; [lia | reflexivity].
  - simpl in Hs. apply andb_true_iff in Hs as [Hc Hs].
    cbn [decimal_value_from String.length]. unfold decimal_value.
    cbn [decimal_value_from].
    destruct (IH (acc * 10 + (code c - 48))%N Hs) as (r & E & Hr & Er).
    destruct (IH (0 * 10 + (code c - 48))%N Hs) as (r' & E' & Hr' & Er').
    rewrite E, E'. rewrite Nnat.Nat2N.inj_succ, N.pow_succ_r'.
    assert (r' = r) as -> by congruence.
    assert (code c - 48 < 10)%N as Hd.
    { unfold is_decimal_digit in Hc. apply andb_true_iff in Hc as [H1 H2].
      apply N.leb_le in H1, H2. lia. }
    eexists. split; [| split; [| reflexivity]]; nia.
Qed.

Lemma ten_to_minus (L : nat) :
  (Qpower (10 # 1) (- Z.of_nat L) * inject_Z (10 ^ Z.of_nat L) == 1)%Q.
Proof.
  rewrite Qpower_opp. change (10 # 1) with (inject_Z 10).
  rewrite <- Zpower_Qpower by lia.
  rewrite Qmult_comm. apply Qmult_inv_r.
  change 0%Q with (inject_Z 0). rewrite inject_Z_injective.
  pose proof (Z.pow_pos_nonneg 10 (Z.of_nat L)). lia.
Qed.

(** X4.  For a digit string [A] that writes a number below
    2^53, [parseStatValue] reads [A] and [A%] as that number; and with
    digits [B] it reads [A.B] as a number between [A] and [A + 1]: as [A]
    itself when [B] writes 0, and as the decimal number that [A.B]
    writes, the digits [AB] over ten to the length of [B], when that is
    [m / 2^k] for an [m] below 2^53 and a [k] up to 1000, a number that
    a double holds. *)
Theorem parseStatValue_number (A B : string) :
  digit_string A -> all_decimal_digits B = true ->
  safe_integer (decimal_value A) ->
  let a := decimal_value A in
  parseStatValue (VStr A) = VNum (of_N a)
  /\ parseStatValue (VStr (A ++ "%")) = VNum (of_N a)
  /\ exists q,
       parseStatValue (VStr (A ++ "." ++ B)) = VNum (Fin q)
       /\ (inject_Z (Z.of_N a) <= q <= inject_Z (Z.of_N a) + 1)%Q
       /\ (decimal_value B = 0%N -> q = inject_Z (Z.of_N a))
       /\ (forall (m : N) (k : nat),
             safe_integer m -> (k <= 1000)%nat ->
             (decimal_value (A ++ B) * 2 ^ N.of_nat k
              = m * 10 ^ N.of_nat (String.length B))%N ->
             (q == inject_Z (Z.of_N m) / inject_Z (2 ^ Z.of_nat k))%Q).
Proof.
  intros HA HB _ a.
  destruct (number_exact A B HA HB) as (E1 & E2 & E3).
  split; [exact E1 |]. split; [exact E2 |].
  eexists. split; [exact E3 |].
  set (L := String.length B).
  set (n := decimal_value (A ++ B)).
  set (T := inject_Z (10 ^ Z.of_nat L)).
  assert (0 < T)%Q as HT.
  { subst T. change 0%Q with (inject_Z 0). rewrite <- Zlt_Qlt.
    apply Z.pow_pos_nonneg; lia. }
  assert (Qred (inject_Z (Z.of_N n) * Qpower (10 # 1) (- Z.of_nat L)) * T
          == inject_Z (Z.of_N n))%Q as Hq.
  { rewrite Qred_correct, <- Qmult_assoc. subst T. rewrite ten_to_minus. ring. }
  destruct (decimal_value_from_bound B (decimal_value A) HB) as (r & Er & Hr & Hv).
  fold L a in Er, Hr.
  assert (n = (a * 10 ^ N.of_nat L + r)%N) as Hn.
  { subst n. unfold decimal_value at 1. rewrite decimal_value_from_append. exact Er. }
  assert (inject_Z (Z.of_N n) == inject_Z (Z.of_N a) * T + inject_Z (Z.of_N r))%Q as Hn'.
  { subst T. rewrite Hn, N2Z.inj_add, N2Z.inj_mul, N2Z.inj_pow, inject_Z_plus, inject_Z_mult.
    rewrite nat_N_Z. reflexivity. }
  assert (0 <= inject_Z (Z.of_N r))%Q as Hr0 by apply Q_of_N_nonneg.
  assert (inject_Z (Z.of_N r) <= T)%Q as Hr1.
  { subst T. rewrite <- Zle_Qle. rewrite <- nat_N_Z, <- (N2Z.inj_pow 10).
    apply N2Z.inj_le, N.lt_le_incl, Hr. }
  set (q := Qred _) in *.
  split; [split |]; [| | split].
  - apply (Qmult_le_r _ _ T HT). rewrite Hq, Hn'. lra.
  - apply (Qmult_le_r _ _ T HT). rewrite Hq, Hn'. lra.
  - intros Hz. rewrite Hv, Hz in Hn'. subst q.
    rewrite <- (Qred_inject_Z (Z.of_N a)). apply Qred_complete.
    rewrite Qred_correct in Hq.
    apply (Qmult_inj_r _ _ T); [lra |]. rewrite Hq, Hn'.
    change (inject_Z (Z.of_N 0)) with 0%Q. ring.
  - intros m k _ _ Hm.
    assert (0 < inject_Z (2 ^ Z.of_nat k))%Q as Hk.
    { change 0%Q with (inject_Z 0). rewrite <- Zlt_Qlt. apply Z.pow_pos_nonneg; lia. }
    apply (Qmult_inj_r _ _ T); [lra |]. rewrite Hq.
    apply (Qmult_inj_r _ _ (inject_Z (2 ^ Z.of_nat k))); [lra |].
    assert (inject_Z (Z.of_N m) / inject_Z (2 ^ Z.of_nat k) * T * inject_Z (2 ^ Z.of_nat k)
            == inject_Z (Z.of_N m) * T)%Q as -> by (field; lra).
    subst T. rewrite <- !inject_Z_mult. apply inject_Z_injective.
    apply (f_equal Z.of_N) in Hm. fold n L in Hm.
    rewrite !N2Z.inj_mul, !N2Z.inj_pow, !nat_N_Z in Hm. exact Hm.
Qed.

Lemma parseStatValue_number_witness :
  parseStatValue (VStr "40") = VNum (Fin 40)
  /\ parseStatValue (VStr "40%") = VNum (Fin 40)
  /\ exists q, parseStatValue (VStr "40.25") = VNum (Fin q)
       /\ (40 <= q <= 41)%Q /\ (q == 161 # 4)%Q.
Proof.
  destruct (parseStatValue_number "40" "25") as (E1 & E2 & q & E3 & Hb & _ & Hd);
    [split; (discriminate || reflexivity) | reflexivity | reflexivity |].
  split; [exact E1 |]. split; [exact E2 |].
  exists q. split; [exact E3 |]. split; [exact Hb |].
  apply (Hd 161%N 2%nat); [reflexivity | lia | reflexivity].
Defined.





End ParseStatValueBranches.

(** ** [normalizeTeamName] *)

Module TeamNameSpec.

Import StatsParser JsObjectFacts.
Local Open Scope string_scope.

Lemma truthy_at_In (o : dict string) (k v : string) : truthy_at o k = Some v -> In (k, v) o.
Proof.
  unfold truthy_at. destruct (get o k) as [v' |] eqn:E; [| discriminate].
  destruct (nonempty v'); [| discriminate]. intros [= <-]. apply get_In, E.
Qed.

(** A name of the registry is answered by the first test. *)
Lemma registry_name_fixed (fullName : string) (w : world) :
  is_Some (get NFL_TEAMS_entries fullName) ->
  normalizeTeamName fullName w = (Return (VStr fullName), w).
Proof.
  intros [data E]. unfold normalizeTeamName, property_at. rewrite E. reflexivity.
Qed.

Lemma abbreviations_resolve :
  Forall (fun '(_, fullName) => is_Some (get NFL_TEAMS_entries fullName)) ABBREV_TO_NAME.
Proof. repeat (constructor; [vm_compute; eauto |]). constructor. Qed.

Lemma alternates_resolve :
  Forall (fun '(_, alternate) =>
            exists fullName, get ABBREV_TO_NAME alternate = Some fullName
              /\ is_Some (get NFL_TEAMS_entries fullName)) ABBREV_ALTERNATES.
Proof. repeat (constructor; [vm_compute; eauto |]). constructor. Qed.

Lemma entries_resolve :
  Forall (fun '(fullName, _) => is_Some (get NFL_TEAMS_entries fullName)) NFL_TEAMS_entries.
Proof. repeat (constructor; [vm_compute; eauto |]). constructor. Qed.

(** What [normalizeTeamName] returns, by the test that answers. *)
Lemma normalizeTeamName_cases (name : string) (w : world) :
  (normalizeTeamName name w = (Return (VStr name), w)
   /\ property_at NFL_TEAMS_entries name <> Absent)
  \/ (exists fullName, normalizeTeamName name w = (Return (VStr fullName), w)
        /\ is_Some (get NFL_TEAMS_entries fullName))
  \/ (normalizeTeamName name w =
        (Return (VStr name), logged LevelWarn "Unknown team name" [("name", name)] w)
      /\ property_at NFL_TEAMS_entries name = Absent
      /\ truthy_at ABBREV_TO_NAME name = None
      /\ truthy_at ABBREV_ALTERNATES name = None
      /\ List.find (matches (toLowerCase name)) NFL_TEAMS_entries = None).
Proof.
  unfold normalizeTeamName.
  destruct (property_at NFL_TEAMS_entries name) eqn:E1;
    [left; split; [reflexivity | discriminate] ..|].
  right.
  destruct (truthy_at ABBREV_TO_NAME name) as [fullName |] eqn:E2.
  { left. exists fullName. split; [reflexivity |].
    apply truthy_at_In in E2. pose proof abbreviations_resolve as F.
    rewrite List.Forall_forall in F. exact (F _ E2). }
  destruct (truthy_at ABBREV_ALTERNATES name) as [alternate |] eqn:E3.
  { left. apply truthy_at_In in E3. pose proof alternates_resolve as F.
    rewrite List.Forall_forall in F. destruct (F _ E3) as (fullName & -> & Hf).
    exists fullName. split; [reflexivity | exact Hf]. }
  destruct (List.find _ NFL_TEAMS_entries) as [[fullName data] |] eqn:E4.
  { left. exists fullName. split; [reflexivity |].
    apply find_some in E4 as [E4 _]. pose proof entries_resolve as F.
    rewrite List.Forall_forall in F. exact (F _ E4). }
  right. auto.
Qed.

(** X6.  [normalizeTeamName] always returns a string, never
    [undefined].  The string is the name given or a key of [NFL_TEAMS]; a
    warning is logged only when the name given comes back for want of a
    match; and the function is idempotent: the string returned is returned
    for itself. *)
Theorem normalizeTeamName_idempotent (name : string) (w : world) :
  exists s w',
    normalizeTeamName name w = (Return (VStr s), w')
    /\ (s = name \/ hasOwnProperty NFL_TEAMS_entries s = true)
    /\ (w' = w \/ s = name /\ w' = logged LevelWarn "Unknown team name" [("name", name)] w)
    /\ exists w'', normalizeTeamName s w' = (Return (VStr s), w'').
Proof.
  destruct (normalizeTeamName_cases name w) as [[E _] | [(fullName & E & Hf) | (E & H)]].
  - exists name, w. split; [exact E |]. split; [left; reflexivity |].
    split; [left; reflexivity |]. exists w. exact E.
  - exists fullName, w. split; [exact E |].
    split; [right; unfold hasOwnProperty; apply bool_decide_eq_true_2, Hf |].
    split; [left; reflexivity |].
    exists w. apply registry_name_fixed, Hf.
  - exists name, (logged LevelWarn "Unknown team name" [("name", name)] w).
    split; [exact E |]. split; [left; reflexivity |]. split; [right; auto |].
    destruct H as (E1 & E2 & E3 & E4).
    eexists. unfold normalizeTeamName. rewrite E1, E2, E3, E4. reflexivity.
Qed.

(** The spellings that the loop accepts for an entry. *)
Local Abbreviation spellings e :=
  [toLowerCase (fst e); toLowerCase (Team.abbrev (snd e)); toLowerCase (Team.name (snd e))].

Lemma matches_spellings (lowerName : string) (entry : string * Team) :
  matches lowerName entry = true <-> In lowerName (spellings entry).
Proof.
  destruct entry as [fullName data]. unfold matches. simpl.
  rewrite !orb_true_iff, !String.eqb_eq. intuition congruence.
Qed.

(** No spelling of a team is a spelling of another team. *)
Lemma spellings_apart (e1 e2 : string * Team) (x : string) :
  In e1 NFL_TEAMS_entries -> In e2 NFL_TEAMS_entries ->
  In x (spellings e1) -> matches x e2 = true -> fst e1 = fst e2.
Proof.
  assert (forallb (fun e1 => forallb (fun x => forallb (fun e2 =>
            implb (matches x e2) (String.eqb (fst e1) (fst e2)))
            NFL_TEAMS_entries) (spellings e1)) NFL_TEAMS_entries = true) as C
    by (vm_compute; reflexivity).
  intros H1 H2 Hx Hm. rewrite forallb_forall in C. specialize (C e1 H1).
  rewrite forallb_forall in C. specialize (C x Hx).
  rewrite forallb_forall in C. specialize (C e2 H2).
  rewrite Hm in C. apply String.eqb_eq, C.
Qed.

(** No inherited name and no alternate abbreviation is a spelling of a
    team, and each abbreviation is a spelling of its own team only. *)
Lemma inherited_apart (p : string) (e : string * Team) :
  In p Object_prototype -> In e NFL_TEAMS_entries -> matches (toLowerCase p) e = false.
Proof.
  assert (forallb (fun p => forallb (fun e => negb (matches (toLowerCase p) e))
            NFL_TEAMS_entries) Object_prototype = true) as C
    by (vm_compute; reflexivity).
  intros Hp He. rewrite forallb_forall in C. specialize (C p Hp).
  rewrite forallb_forall in C. apply negb_true_iff, (C e He).
Qed.

Lemma alternates_apart (a : string * string) (e : string * Team) :
  In a ABBREV_ALTERNATES -> In e NFL_TEAMS_entries -> matches (toLowerCase (fst a)) e = false.
Proof.
  assert (forallb (fun a => forallb (fun e => negb (matches (toLowerCase (fst a)) e))
            NFL_TEAMS_entries) ABBREV_ALTERNATES = true) as C
    by (vm_compute; reflexivity).
  intros Ha He. rewrite forallb_forall in C. specialize (C a Ha).
  rewrite forallb_forall in C. apply negb_true_iff, (C e He).
Qed.

Lemma abbreviations_apart (a : string * string) (e : string * Team) :
  In a ABBREV_TO_NAME -> In e NFL_TEAMS_entries ->
  matches (toLowerCase (fst a)) e = true -> snd a = fst e.
Proof.
  assert (forallb (fun a => forallb (fun e =>
            implb (matches (toLowerCase (fst a)) e) (String.eqb (snd a) (fst e)))
            NFL_TEAMS_entries) ABBREV_TO_NAME = true) as C
    by (vm_compute; reflexivity).
  intros Ha He Hm. rewrite forallb_forall in C. specialize (C a Ha).
  rewrite forallb_forall in C. specialize (C e He).
  rewrite Hm in C. apply String.eqb_eq, C.
Qed.

(** X7.  Every spelling of a team's full name, of its
    abbreviation or of its nickname that differs from it in the case of
    letters only is normalized to the team's full name, without a
    warning. *)
Theorem normalizeTeamName_any_case (name fullName : string) (data : Team) (w : world) :
  In (fullName, data) NFL_TEAMS_entries ->
  toLowerCase name = toLowerCase fullName
  \/ toLowerCase name = toLowerCase (Team.abbrev data)
  \/ toLowerCase name = toLowerCase (Team.name data) ->
  normalizeTeamName name w = (Return (VStr fullName), w).
Proof.
  intros He Hname.
  assert (matches (toLowerCase name) (fullName, data) = true) as Hm.
  { apply matches_spellings. simpl. intuition. }
  unfold normalizeTeamName, property_at.
  destruct (get NFL_TEAMS_entries name) as [d |] eqn:G.
  { apply get_In in G.
    pose proof (spellings_apart (name, d) (fullName, data) (toLowerCase name) G He
                  ltac:(left; reflexivity) Hm) as Hx.
    cbn [fst snd] in Hx. rewrite Hx. reflexivity. }
  destruct (bool_decide (name ∈ Object_prototype)) eqn:P.
  { apply bool_decide_eq_true_1, list_elem_of_In in P.
    rewrite (inherited_apart name _ P He) in Hm. discriminate Hm. }
  destruct (truthy_at ABBREV_TO_NAME name) as [f |] eqn:E2.
  { apply truthy_at_In in E2.
    pose proof (abbreviations_apart (name, f) (fullName, data) E2 He Hm) as Hx.
    cbn [fst snd] in Hx. rewrite Hx. reflexivity. }
  destruct (truthy_at ABBREV_ALTERNATES name) as [alternate |] eqn:E3.
  { apply truthy_at_In in E3.
    pose proof (alternates_apart (name, alternate) _ E3 He) as Hx.
    cbn [fst snd] in Hx. rewrite Hx in Hm. discriminate Hm. }
  destruct (List.find _ NFL_TEAMS_entries) as [[f d] |] eqn:E4.
  - apply find_some in E4 as [E4 E5].
    pose proof (spellings_apart (f, d) (fullName, data) (toLowerCase name) E4 He
                  ltac:(apply matches_spellings, E5) Hm) as Hx.
    cbn [fst snd] in Hx. rewrite Hx. reflexivity.
  - rewrite (find_none _ _ E4 _ He) in Hm. discriminate Hm.
Qed.

Lemma normalizeTeamName_any_case_witness :
  normalizeTeamName "nyj" Examples.nothing_logged
  = (Return (VStr "New York Jets"), Examples.nothing_logged).
Proof.
  apply (normalizeTeamName_any_case "nyj" "New York Jets"
           {| Team.abbrev := "NYJ"; Team.location := "New York"; Team.name := "Jets";
              Team.conference := "AFC"; Team.division := "East" |}).
  - do 24 right. left. reflexivity.
  - right. left. reflexivity.
Defined.

End TeamNameSpec.

(** ** [aggregateStats] *)

Module AggregateSpec.

Import StatsParser JsNumberFacts JsEffectFacts JsObjectFacts.
Local Open Scope string_scope.

(** *** The loops of [aggregateStats], team by team *)

Local Abbreviation step team :=
  (fun agg game =>
     match get (boxes_of game) team with
     | Some box => add_game game (keys (boxes_of game)) team box agg
     | None => agg
     end).

Lemma add_teams_table (game : GameStats) (teams : list string) (todo : dict Box.TeamBox) :
  NoDup (keys todo) ->
  forall (c : string -> Counters) (l : list string) (w : world), NoDup l ->
  exists w',
    add_teams game teams todo (map (fun t => (t, c t)) l) w =
    (Return (map (fun t => (t, match get todo t with
                               | Some box => add_game game teams t box (c t)
                               | None => c t
                               end)) l), w')
    /\ clock w' = clock w.
Proof.
  induction todo as [| [k box] rest IH]; intros Hnd c l w Hl.
  - exists w. split; reflexivity.
  - cbn [keys fmap list_fmap fst] in Hnd. apply NoDup_cons in Hnd as [Hk Hrest].
    cbn [add_teams]. rewrite get_table.
    destruct (decide (k ∈ l)) as [Hin | Hnin].
    + rewrite bool_decide_eq_true_2 by exact Hin.
      rewrite (put_table c l k _ Hl).
      destruct (IH Hrest (fun t => if String.eqb t k
                                   then add_game game teams k box (c k) else c t) l w Hl)
        as (w' & -> & Hw).
      exists w'. split; [| exact Hw]. do 2 f_equal.
      apply map_ext_in. intros t Ht. f_equal. cbn [get].
      destruct (String.eqb_spec k t) as [<- | Hne].
      * rewrite (get_None rest k Hk), String.eqb_refl. reflexivity.
      * destruct (String.eqb_spec t k); [congruence | reflexivity].
    + rewrite bool_decide_eq_false_2 by exact Hnin.
      unfold mbind, M_bind, logger_warn, logger.
      destruct (IH Hrest c l
                  (logged LevelWarn "Unknown team in game stats" [("teamName", k)] w) Hl)
        as (w' & E & Hw).
      exists w'. split; [| exact Hw].
      unfold logged in E. rewrite E. do 2 f_equal.
      apply map_ext_in. intros t Ht. f_equal. cbn [get].
      destruct (String.eqb_spec k t) as [<- |]; [| reflexivity].
      destruct Hnin. apply list_elem_of_In, Ht.
Qed.

Lemma add_games_table (gameStats : list GameStats) :
  Forall (fun game => well_formed (boxes_of game)) gameStats ->
  forall (c : string -> Counters) (l : list string) (w : world), NoDup l ->
  exists w',
    add_games gameStats (map (fun t => (t, c t)) l) w =
    (Return (map (fun t => (t, fold_left (step t) gameStats (c t))) l), w')
    /\ clock w' = clock w.
Proof.
  induction 1 as [| game rest Hgame _ IH]; intros c l w Hl.
  - exists w. split; reflexivity.
  - cbn [add_games fold_left]. unfold mbind, M_bind.
    destruct (add_teams_table game (keys (boxes_of game)) (boxes_of game) Hgame c l w Hl)
      as (w1 & E & Hw1).
    unfold boxes_of in E at 1 2. rewrite E.
    destruct (IH (fun t => step t (c t) game) l w1 Hl) as (w2 & E2 & Hw2).
    exists w2. split; [exact E2 | congruence].
Qed.

Lemma aggregateStats_table (gameStats : list GameStats) (w : world) :
  Forall (fun game => well_formed (boxes_of game)) gameStats ->
  exists w',
    aggregateStats gameStats w =
    (Return (map (fun team => (team, averages (season team gameStats))) NFL_TEAMS), w')
    /\ clock w' = clock w.
Proof.
  intros Hwf. unfold aggregateStats, mbind, M_bind.
  destruct (add_games_table gameStats Hwf (fun _ => Counters.zero) NFL_TEAMS w NFL_TEAMS_NoDup)
    as (w' & -> & Hw).
  exists w'. split; [| exact Hw].
  unfold mret, M_ret. rewrite map_map. reflexivity.
Qed.




(** An opponent that the registry does not have.  The Bills play a team
    named London Monarchs: the result has no entry for the Monarchs, and
    their 17 points are the points against the Bills. *)
Example aggregateStats_unknown_opponent :
  exists teamAggregates w',
    aggregateStats
      [{| stats := Some [("Buffalo Bills", Examples.box 300 90);
                         ("London Monarchs", Examples.box 100 140)];
          scores := Some {[ "Buffalo Bills" := Fin 31; "London Monarchs" := Fin 17 ]} |}]
      Examples.nothing_logged = (Return teamAggregates, w')
    /\ get teamAggregates "London Monarchs" = None
    /\ stat teamAggregates "Buffalo Bills" avgPointsAgainst = Fin 17.
Proof.
  eexists _, _. split; [vm_compute; reflexivity |]. split; reflexivity.
Qed.

Lemma of_nat_succ (n : nat) : (of_nat n + Fin 1)%js = of_nat (S n).
Proof.
  unfold of_nat, of_Z, add. f_equal.
  rewrite <- (Qred_inject_Z (Z.of_nat (S n))). apply Qred_complete.
  rewrite Nat2Z.inj_succ, <- Z.add_1_r, inject_Z_plus. apply Qeq_refl.
Qed.

(** The [games] counter counts the games that list the team. *)
Lemma season_games (team : string) (gameStats : list GameStats) :
  Counters.games (season team gameStats) =
  of_nat (length (List.filter (lists team) gameStats)).
Proof.
  unfold season.
  enough (forall agg n, Counters.games agg = of_nat n ->
            Counters.games (fold_left (step team) gameStats agg) =
            of_nat (n + length (List.filter (lists team) gameStats))) as G
    by exact (G Counters.zero 0%nat eq_refl).
  induction gameStats as [| game rest IH]; intros agg n Hn.
  - simpl. rewrite Nat.add_0_r. exact Hn.
  - cbn [List.filter fold_left].
    destruct (get (boxes_of game) team) as [box |] eqn:G.
    + assert (lists team game = true) as ->
        by (apply bool_decide_eq_true_2, get_is_Some; eauto).
      cbn [length]. rewrite Nat.add_succ_r. apply (IH _ (S n)).
      cbn [add_game Counters.games]. rewrite Hn. apply of_nat_succ.
    + assert (lists team game = false) as ->.
      { apply bool_decide_eq_false_2. intros Hin%get_is_Some.
        rewrite G in Hin. destruct Hin; discriminate. }
      apply IH, Hn.
Qed.

Lemma averages_games (agg : Counters) : games (averages agg) = Some (Counters.games agg).
Proof. unfold averages. destruct (_ >? _)%js; reflexivity. Qed.

(** X9.  In the result of [aggregateStats], the [games]
    of a team of the registry is the number of games that list the team;
    so a team has played ([games > 0]) exactly when it is of the registry
    and some game lists it.  The keys of each game's [stats] object are as
    above. *)
Theorem aggregateStats_games (gameStats : list GameStats) (w w' : world)
    (teamAggregates : dict TeamStats) :
  Forall (fun game => well_formed (boxes_of game)) gameStats ->
  Forall (fun game => Forall own_name (keys (boxes_of game))) gameStats ->
  aggregateStats gameStats w = (Return teamAggregates, w') ->
  keys teamAggregates = NFL_TEAMS
  /\ (forall team, team ∈ NFL_TEAMS ->
        get teamAggregates team ≫= games =
        Some (of_nat (length (List.filter (lists team) gameStats))))
  /\ (forall team, played teamAggregates team = true <->
        team ∈ NFL_TEAMS /\ exists game, game ∈ gameStats /\ lists team game = true).
Proof.
  intros Hwf _ E. destruct (aggregateStats_table gameStats w Hwf) as (w1 & E1 & _).
  assert (teamAggregates =
          map (fun team => (team, averages (season team gameStats))) NFL_TEAMS) as ->
    by congruence.
  clear E E1.
  assert (forall team, team ∈ NFL_TEAMS ->
            get (map (fun team => (team, averages (season team gameStats))) NFL_TEAMS) team
              ≫= games
            = Some (of_nat (length (List.filter (lists team) gameStats)))) as Hgames.
  { intros team Hteam. rewrite get_table, bool_decide_eq_true_2 by exact Hteam.
    cbn [mbind option_bind]. rewrite averages_games, season_games. reflexivity. }
  split; [| split; [exact Hgames |]].
  - reflexivity.
  - intros team. unfold played, stat.
    destruct (decide (team ∈ NFL_TEAMS)) as [Hteam | Hteam].
    + rewrite (Hgames team Hteam). unfold num. cbn [default id].
      change (Fin 0) with (of_nat 0). unfold gt. rewrite ArrayFacts.of_nat_lt.
      split.
      * intros Hpos. split; [exact Hteam |].
        destruct (List.filter (lists team) gameStats) as [| game rest] eqn:F;
          [simpl in Hpos; lia |].
        assert (In game (List.filter (lists team) gameStats)) as Hin
          by (rewrite F; left; reflexivity).
        apply filter_In in Hin as [Hin Hl]. exists game.
        split; [apply list_elem_of_In, Hin | exact Hl].
      * intros [_ (game & Hin & Hl)].
        assert (In game (List.filter (lists team) gameStats)) as Hf
          by (apply filter_In; split; [apply list_elem_of_In, Hin | exact Hl]).
        destruct (List.filter (lists team) gameStats); [destruct Hf | simpl; lia].
    + rewrite get_table, bool_decide_eq_false_2 by exact Hteam.
      split; [discriminate | tauto].
Qed.

Lemma aggregateStats_games_witness :
  exists teamAggregates,
    aggregateStats Examples.one_game Examples.nothing_logged
      = (Return teamAggregates, Examples.nothing_logged)
    /\ keys teamAggregates = NFL_TEAMS
    /\ get teamAggregates "Buffalo Bills" ≫= games = Some (Fin 1)
    /\ played teamAggregates "Buffalo Bills" = true
    /\ played teamAggregates "New York Jets" = false.
Proof.
  eexists. split; [vm_compute; reflexivity |].
  match goal with |- ?k = _ /\ _ => match k with keys ?t =>
    destruct (aggregateStats_games Examples.one_game Examples.nothing_logged
                Examples.nothing_logged t) as (Hk & Hg & Hp)
  end end.
  - repeat constructor; apply (bool_decide_unpack _); vm_compute; reflexivity.
  - repeat constructor; apply (bool_decide_unpack _); vm_compute; reflexivity.
  - vm_compute. reflexivity.
  - split; [exact Hk |]. split; [| split].
    + apply (Hg "Buffalo Bills"). apply (bool_decide_unpack _). vm_compute. reflexivity.
    + vm_compute. reflexivity.
    + vm_compute. reflexivity.
Defined.

End AggregateSpec.

(** ** The four rankings of [calculateRankings] *)

Module AllRankingsSpec.

Import StatsParser JsNumberFacts ArrayFacts.
Local Open Scope string_scope.

Section Ranking.

Variable teamAggregates : dict TeamStats.
Variable f : TeamStats -> option number.

Hypothesis Hwf : well_formed teamAggregates.

(** The ranks that a sorted copy of the teams that have played gets. *)
Lemma number_ranks_numbers (cmp : string -> string -> number) :
  let order := Array_sort cmp (ranked teamAggregates) in
  order ≡ₚ ranked teamAggregates /\ NoDup order /\ numbers (number_ranks order) order.
Proof.
  intros order.
  assert (order ≡ₚ ranked teamAggregates) as Hperm by apply Array_sort_perm.
  assert (NoDup order) as Hnd by (rewrite Hperm; apply RankingSpec.ranked_NoDup, Hwf).
  split; [exact Hperm |]. split; [exact Hnd |].
  intros team r. unfold number_ranks, Array_reduce.
  rewrite (reduce_ranks_lookup order 0 ∅ team r Hnd). split.
  - intros [H | [_ H]]; [exact H | rewrite lookup_empty in H; discriminate].
  - intros H. left. exact H.
Qed.

Hypothesis Hrec : recorded f teamAggregates.

Local Abbreviation m := (amount teamAggregates f).

Lemma ranked_finite (team : string) :
  team ∈ ranked teamAggregates -> stat teamAggregates team f = Fin (m team).
Proof.
  intros [Hin Hp]%RankingSpec.ranked_spec. unfold recorded in Hrec.
  rewrite Forall_forall in Hrec. specialize (Hrec team Hin Hp). unfold amount.
  destruct (stat teamAggregates team f); (reflexivity || discriminate).
Qed.

Lemma ranking_of_sort (cmp : string -> string -> number) (k : string -> Q)
    (better : number -> number -> bool) :
  orders_by cmp k (ranked teamAggregates) ->
  (forall a b, a ∈ ranked teamAggregates -> b ∈ ranked teamAggregates ->
     better (stat teamAggregates a f) (stat teamAggregates b f) = true <-> (k a < k b)%Q) ->
  ranking teamAggregates f better (number_ranks (Array_sort cmp (ranked teamAggregates))).
Proof.
  intros Hcmp Hbetter.
  destruct (number_ranks_numbers cmp) as (Hperm & Hnd & Hnum).
  set (order := Array_sort cmp (ranked teamAggregates)) in *.
  assert (forall i j a b, (i <= j)%nat -> order !! i = Some a -> order !! j = Some b ->
            (k a <= k b)%Q) as Hsorted.
  { intros i j a b. apply sorted_lookup. apply Array_sort_sorted, Hcmp. }
  assert (forall i a, order !! i = Some a -> a ∈ ranked teamAggregates) as Hin.
  { intros i a Ha. rewrite <- Hperm. eapply list_elem_of_lookup_2, Ha. }
  exists order. split; [exact Hnd |]. split; [| split; [| split; [exact Hnum |]]].
  - intros team. rewrite Hperm. apply RankingSpec.ranked_spec.
  - intros i j a b Hij Ha Hb. apply not_true_is_false.
    intros L%(Hbetter b a (Hin _ _ Hb) (Hin _ _ Ha)).
    exact (Qlt_not_le _ _ L (Hsorted i j a b Hij Ha Hb)).
  - intros a b ra rb (i & Ha & ->)%Hnum (j & Hb & ->)%Hnum.
    intros L%(Hbetter a b (Hin _ _ Ha) (Hin _ _ Hb)). apply of_nat_lt.
    destruct (Nat.le_gt_cases j i) as [Hji | Hij]; [| lia].
    destruct (Qlt_not_le _ _ L (Hsorted j i b a Hji Hb Ha)).
Qed.

End Ranking.

Lemma Qopp_lt_iff (x y : Q) : (x < y)%Q <-> (- y < - x)%Q.
Proof.
  split; intros L.
  - apply Qopp_lt_compat, L.
  - apply Qopp_lt_compat in L. rewrite !Qopp_involutive in L. exact L.
Qed.

(** The offensive ranking is by [avgTotalYards], more yards being
    better. *)
Lemma offensive_by_yards (teamAggregates : dict TeamStats) :
  well_formed teamAggregates ->
  recorded avgTotalYards teamAggregates ->
  ranking teamAggregates avgTotalYards gt (offensive (calculateRankings teamAggregates)).
Proof.
  intros Hwf Hrec.
  apply (ranking_of_sort teamAggregates avgTotalYards Hwf _
           (fun team => - amount teamAggregates avgTotalYards team)%Q).
  - intros x y Hx Hy.
    rewrite (ranked_finite _ _ Hrec x Hx), (ranked_finite _ _ Hrec y Hy).
    rewrite sub_gt_zero. apply Qopp_lt_iff.
  - intros a b Ha Hb.
    rewrite (ranked_finite _ _ Hrec a Ha), (ranked_finite _ _ Hrec b Hb).
    rewrite gt_Fin. apply Qopp_lt_iff.
Qed.

(** The defensive ranking is by [avgPointsAgainst], fewer points being
    better. *)
Lemma defensive_by_points (teamAggregates : dict TeamStats) :
  well_formed teamAggregates ->
  recorded avgPointsAgainst teamAggregates ->
  ranking teamAggregates avgPointsAgainst lt (defensive (calculateRankings teamAggregates)).
Proof.
  intros Hwf Hrec.
  apply (ranking_of_sort teamAggregates avgPointsAgainst Hwf _
           (amount teamAggregates avgPointsAgainst)).
  - intros x y Hx Hy.
    rewrite (ranked_finite _ _ Hrec x Hx), (ranked_finite _ _ Hrec y Hy).
    apply sub_gt_zero.
  - intros a b Ha Hb.
    rewrite (ranked_finite _ _ Hrec a Ha), (ranked_finite _ _ Hrec b Hb).
    apply lt_Fin.
Qed.

(** The rush-offense ranking is by [avgRushingYards], more yards being
    better. *)
Lemma rushOffense_by_yards (teamAggregates : dict TeamStats) :
  well_formed teamAggregates ->
  recorded avgRushingYards teamAggregates ->
  ranking teamAggregates avgRushingYards gt (rushOffense (calculateRankings teamAggregates)).
Proof.
  intros Hwf Hrec.
  apply (ranking_of_sort teamAggregates avgRushingYards Hwf _
           (fun team => - amount teamAggregates avgRushingYards team)%Q).
  - intros x y Hx Hy.
    rewrite (ranked_finite _ _ Hrec x Hx), (ranked_finite _ _ Hrec y Hy).
    rewrite sub_gt_zero. apply Qopp_lt_iff.
  - intros a b Ha Hb.
    rewrite (ranked_finite _ _ Hrec a Ha), (ranked_finite _ _ Hrec b Hb).
    rewrite gt_Fin. apply Qopp_lt_iff.
Qed.

Lemma four_teams_well_formed : well_formed Examples.four_teams.
Proof. apply (bool_decide_unpack _). vm_compute. reflexivity. Qed.

Lemma four_teams_own : Forall own_name (keys Examples.four_teams).
Proof. repeat constructor; apply (bool_decide_unpack _); vm_compute; reflexivity. Qed.

Lemma four_teams_recorded (f : TeamStats -> option number) :
  Forall (fun team => isFinite (stat Examples.four_teams team f) = true)
    (ranked Examples.four_teams) ->
  recorded f Examples.four_teams.
Proof.
  intros H. unfold recorded. rewrite Forall_forall in *. intros team Hin Hp.
  apply H, RankingSpec.ranked_spec. split; assumption.
Qed.

(** X10.  Each of the offensive, defensive and rush-offense
    rankings of [calculateRankings] ranks the teams that have played:
    they are numbered from 1, each once, and the better of two teams has
    the strictly lower rank number.  Better is more [avgTotalYards] for the
    offensive ranking, fewer [avgPointsAgainst] for the defensive one and
    more [avgRushingYards] for the rush-offense one.  The field of a
    ranking is taken to be a number for every team that has played, and no
    key of the aggregates to be the name of a property that objects
    inherit. *)
Theorem calculateRankings_better_first (teamAggregates : dict TeamStats) :
  well_formed teamAggregates ->
  Forall own_name (keys teamAggregates) ->
  let rankings := calculateRankings teamAggregates in
  (recorded avgTotalYards teamAggregates ->
   ranking teamAggregates avgTotalYards gt (offensive rankings))
  /\ (recorded avgPointsAgainst teamAggregates ->
      ranking teamAggregates avgPointsAgainst lt (defensive rankings))
  /\ (recorded avgRushingYards teamAggregates ->
      ranking teamAggregates avgRushingYards gt (rushOffense rankings)).
Proof.
  intros Hwf _ rankings. split; [| split].
  - apply offensive_by_yards, Hwf.
  - apply defensive_by_points, Hwf.
  - apply rushOffense_by_yards, Hwf.
Qed.

Lemma calculateRankings_better_first_witness :
  let rankings := calculateRankings Examples.four_teams in
  ranking Examples.four_teams avgTotalYards gt (offensive rankings)
  /\ ranking Examples.four_teams avgPointsAgainst lt (defensive rankings)
  /\ ranking Examples.four_teams avgRushingYards gt (rushOffense rankings).
Proof.
  destruct (calculateRankings_better_first Examples.four_teams four_teams_well_formed
              four_teams_own)
    as (H1 & H2 & H3).
  split; [| split]; [apply H1 | apply H2 | apply H3];
    apply four_teams_recorded; repeat constructor.
Defined.

(** X11.  Whatever the averages are, not a number
    included, each of the four rankings numbers the same teams: those with
    [games > 0], from 1 to their count, each team once.  The keys of the
    aggregates are as above. *)
Theorem rankings_number_who_played (teamAggregates : dict TeamStats) :
  well_formed teamAggregates ->
  Forall own_name (keys teamAggregates) ->
  let rankings := calculateRankings teamAggregates in
  Forall (fun ranks =>
            (exists order, order ≡ₚ ranked teamAggregates /\ NoDup order
                           /\ numbers ranks order)
            /\ (forall team, is_Some (ranks !! team) <->
                  team ∈ keys teamAggregates /\ played teamAggregates team = true))
    [offensive rankings; defensive rankings; rushOffense rankings; passDefense rankings].
Proof.
  intros Hwf _ rankings.
  assert (forall cmp,
            let ranks := number_ranks (Array_sort cmp (ranked teamAggregates)) in
            (exists order, order ≡ₚ ranked teamAggregates /\ NoDup order
                           /\ numbers ranks order)
            /\ (forall team, is_Some (ranks !! team) <->
                  team ∈ keys teamAggregates /\ played teamAggregates team = true)) as H.
  { intros cmp ranks.
    destruct (number_ranks_numbers teamAggregates Hwf cmp) as (Hperm & Hnd & Hnum).
    split; [eauto |]. intros team.
    rewrite <- RankingSpec.ranked_spec, <- Hperm. split.
    - intros [r (i & Hi & _)%Hnum]. eapply list_elem_of_lookup_2, Hi.
    - intros [i Hi]%list_elem_of_lookup_1. exists (of_nat (i + 1)).
      apply Hnum. eauto. }
  repeat (apply List.Forall_cons; [apply H |]). apply List.Forall_nil.
Qed.

Lemma rankings_number_who_played_witness :
  let rankings := calculateRankings Examples.four_teams in
  Forall (fun ranks =>
            (exists order, order ≡ₚ ranked Examples.four_teams /\ NoDup order
                           /\ numbers ranks order)
            /\ (forall team, is_Some (ranks !! team) <->
                  team ∈ keys Examples.four_teams /\ played Examples.four_teams team = true))
    [offensive rankings; defensive rankings; rushOffense rankings; passDefense rankings].
Proof.
  exact (rankings_number_who_played Examples.four_teams four_teams_well_formed
           four_teams_own).
Defined.

End AllRankingsSpec.

(** ** Assignment to a property *)

Module AssignFacts.

Section Assign.

Context {V : Type}.

Lemma assign_fresh (o : dict V) (k : string) (v : V) :
  k ∉ keys o -> assign o k v = (o ++ [(k, v)])%list.
Proof.
  induction o as [| [k' v'] o IH]; simpl; [reflexivity |].
  rewrite not_elem_of_cons. intros [Hne Hk].
  destruct (String.eqb_spec k' k); [congruence |]. rewrite (IH Hk). reflexivity.
Qed.

Lemma get_assign_eq (o : dict V) (k : string) (v : V) : get (assign o k v) k = Some v.
Proof.
  induction o as [| [k' v'] o IH]; simpl.
  - rewrite String.eqb_refl. reflexivity.
  - destruct (String.eqb k' k) eqn:E; simpl; rewrite E; [reflexivity | exact IH].
Qed.

Lemma get_assign_ne (o : dict V) (k k' : string) (v : V) :
  k <> k' -> get (assign o k v) k' = get o k'.
Proof.
  intros Hne. induction o as [| [a v'] o IH]; simpl.
  - destruct (String.eqb_spec k k'); [congruence | reflexivity].
  - destruct (String.eqb_spec a k) as [-> |]; simpl.
    + destruct (String.eqb_spec k k'); [congruence | reflexivity].
    + rewrite IH. reflexivity.
Qed.

Lemma keys_assign (o : dict V) (k : string) (v : V) :
  k ∈ keys o -> keys (assign o k v) = keys o.
Proof.
  induction o as [| [a v'] o IH]; simpl.
  - intros []%elem_of_nil.
  - destruct (String.eqb_spec a k) as [-> |]; [reflexivity |].
    rewrite elem_of_cons. intros [-> | Hin]; [congruence |].
    cbn. f_equal. exact (IH Hin).
Qed.

(** Assigning to the names of a list in turn, none of them a key yet. *)
Lemma fold_assign (step : dict V -> string -> dict V) (g : string -> V) (l : list string) :
  (forall o t, step o t = assign o t (g t)) ->
  NoDup l -> forall acc, (forall t, t ∈ l -> t ∉ keys acc) ->
  fold_left step l acc = (acc ++ map (fun t => (t, g t)) l)%list.
Proof.
  intros Hstep. induction 1 as [| t l Ht Hl IH]; intros acc Hacc; simpl.
  - rewrite app_nil_r. reflexivity.
  - rewrite Hstep, (assign_fresh acc t _ (Hacc t (list_elem_of_here _ _))).
    rewrite IH.
    + rewrite <- app_assoc. reflexivity.
    + intros t' Ht'. unfold keys. rewrite fmap_app, elem_of_app. intros [Hin | Hin].
      * exact (Hacc t' (list_elem_of_further _ _ _ Ht') Hin).
      * cbn in Hin. apply list_elem_of_singleton in Hin. subst. exact (Ht Ht').
Qed.

End Assign.

End AssignFacts.

(** ** Finite numbers and their values *)

Module ValueFacts.

Import JsNumberFacts.

Lemma value_Fin (q : Q) : has_value (Fin q) q.
Proof. exists q. split; reflexivity. Qed.

Lemma value_proper (a : number) (q q' : Q) : has_value a q -> (q == q')%Q -> has_value a q'.
Proof. intros (x & -> & E) E'. exists x. split; [reflexivity | rewrite E; exact E']. Qed.

Lemma value_add (a b : number) (x y : Q) :
  has_value a x -> has_value b y -> has_value (a + b)%js (x + y).
Proof.
  intros (x' & -> & Ex) (y' & -> & Ey). eexists. split; [reflexivity |].
  rewrite Qred_correct, Ex, Ey. reflexivity.
Qed.

Lemma value_neg (a : number) (x : Q) : has_value a x -> has_value (neg a) (- x).
Proof.
  intros (x' & -> & Ex). eexists. split; [reflexivity |].
  rewrite Qred_correct, Ex. reflexivity.
Qed.

Lemma value_sub (a b : number) (x y : Q) :
  has_value a x -> has_value b y -> has_value (a - b)%js (x - y).
Proof. intros Ha Hb. apply value_add; [exact Ha | apply value_neg, Hb]. Qed.

Lemma value_mul (a b : number) (x y : Q) :
  has_value a x -> has_value b y -> has_value (a * b)%js (x * y).
Proof.
  intros (x' & -> & Ex) (y' & -> & Ey). eexists. split; [reflexivity |].
  rewrite Qred_correct, Ex, Ey. reflexivity.
Qed.

Lemma value_div (a b : number) (x y : Q) :
  has_value a x -> has_value b y -> ~ (y == 0)%Q -> has_value (a / b)%js (x / y).
Proof.
  intros (x' & -> & Ex) (y' & -> & Ey) Hy. unfold div.
  destruct (Qsign y') eqn:S.
  - apply Qsign_Eq in S. rewrite Ey in S. destruct (Hy S).
  - eexists. split; [reflexivity |]. rewrite Qred_correct, Ex, Ey. reflexivity.
  - eexists. split; [reflexivity |]. rewrite Qred_correct, Ex, Ey. reflexivity.
Qed.

Lemma value_abs (a : number) (x : Q) : has_value a x -> has_value (Math_abs a) (Qabs x).
Proof.
  intros (x' & -> & Ex). eexists. split; [reflexivity |].
  rewrite Qred_correct, Ex. reflexivity.
Qed.

Lemma value_gt (a b : number) (x y : Q) :
  has_value a x -> has_value b y -> (a >? b)%js = true <-> (y < x)%Q.
Proof. intros (x' & -> & Ex) (y' & -> & Ey). rewrite gt_Fin, Ex, Ey. reflexivity. Qed.

Lemma value_lt (a b : number) (x y : Q) :
  has_value a x -> has_value b y -> (a <? b)%js = true <-> (x < y)%Q.
Proof. intros (x' & -> & Ex) (y' & -> & Ey). rewrite lt_Fin, Ex, Ey. reflexivity. Qed.


Lemma value_round (a : number) (x : Q) :
  has_value a x -> Math_round a = Fin (inject_Z (Qfloor (x + (1 # 2)))).
Proof.
  intros (x' & -> & Ex). unfold Math_round. do 2 f_equal.
  apply Qfloor_comp. rewrite Ex. reflexivity.
Qed.

(** [Math.max(0, z)] on an integer. *)
Lemma max_zero_Z (z : Z) : Math_max (Fin 0) (Fin (inject_Z z)) = of_N (Z.to_N z).
Proof.
  unfold Math_max, of_N, of_Z.
  destruct (Fin 0 <? Fin (inject_Z z))%js eqn:E.
  - apply lt_Fin in E. change 0%Q with (inject_Z 0) in E. rewrite <- Zlt_Qlt in E.
    rewrite Z2N.id by lia. reflexivity.
  - assert (~ (0 < z)%Z) as L.
    { intros L. apply not_true_iff_false in E. apply E, lt_Fin.
      change 0%Q with (inject_Z 0). rewrite <- Zlt_Qlt. exact L. }
    assert (Z.to_N z = 0%N) as -> by lia. reflexivity.
Qed.

(** The sum of the nearest integers to [23 + x] and [23 - x]. *)
Lemma floor_sum (x : Q) :
  let zh := Qfloor (23 + x + (1 # 2)) in
  let za := Qfloor (23 - x + (1 # 2)) in
  (zh + za = 46 \/ zh + za = 47)%Z.
Proof.
  intros zh za.
  pose proof (Qfloor_le (23 + x + (1 # 2))) as H1.
  pose proof (Qlt_floor (23 + x + (1 # 2))) as H2.
  pose proof (Qfloor_le (23 - x + (1 # 2))) as A1.
  pose proof (Qlt_floor (23 - x + (1 # 2))) as A2.
  fold zh in H1, H2. fold za in A1, A2.
  rewrite inject_Z_plus in H2, A2.
  assert (inject_Z (zh + za) <= inject_Z 47)%Q as U
    by (rewrite inject_Z_plus; change (inject_Z 47) with 47%Q; lra).
  assert (inject_Z 45 < inject_Z (zh + za))%Q as L
    by (rewrite inject_Z_plus; change (inject_Z 45) with 45%Q;
        change (inject_Z 1) with 1%Q in *; lra).
  rewrite <- Zle_Qle in U. rewrite <- Zlt_Qlt in L. lia.
Qed.

End ValueFacts.

(** ** The Elo model *)

Module EloSpec.

Import StatsParser Elo MODEL_CONSTANTS JsNumberFacts JsStringFacts JsEffectFacts
  JsObjectFacts AssignFacts ValueFacts.
Local Open Scope string_scope.

Lemma initializeRatings_table (previousSeasonRatings : option (dict number)) :
  initializeRatings previousSeasonRatings =
  map (fun team =>
         (team,
          let prevRating := previousSeasonRatings ≫= (fun previous => get previous team) in
          if missing prevRating then ELO_BASE_RATING
          else (ELO_BASE_RATING + (num prevRating - ELO_BASE_RATING) * ELO_REGRESSION)%js))
    NFL_TEAMS.
Proof.
  unfold initializeRatings.
  rewrite (fold_assign _ (fun team =>
             let prevRating := previousSeasonRatings ≫= (fun previous => get previous team) in
             if missing prevRating then ELO_BASE_RATING
             else (ELO_BASE_RATING + (num prevRating - ELO_BASE_RATING) * ELO_REGRESSION)%js)).
  - reflexivity.
  - intros o t. cbv zeta. destruct (missing _); reflexivity.
  - apply NFL_TEAMS_NoDup.
  - intros t _. apply not_elem_of_nil.
Qed.

Lemma regress_Fin (q : Q) :
  exists r, (ELO_BASE_RATING + (Fin q - ELO_BASE_RATING) * ELO_REGRESSION)%js = Fin r
            /\ (r == 1500 + (q - 1500) * (1 # 3))%Q.
Proof.
  eexists. split; [reflexivity |].
  rewrite !Qred_correct. ring.
Qed.

(** X12.  [initializeRatings] returns a table of the 32 teams of
    the registry, in its order, whatever the table of the season before
    has.  A team without a rating there, or with the rating 0, starts at
    1500.  A team with the rating [q] starts at a number [r] between 1500
    and [q], a third of the way from 1500 to [q] as the machine computes
    it: [3 * (r - 1500)] is within [(|q| + 1500) * 2^-50] of [q - 1500],
    and [r] is 1500 when [q] is.  A higher rating of the season before
    never starts lower. *)
Theorem initializeRatings_spec (previousSeasonRatings : option (dict number)) :
  let ratings := initializeRatings previousSeasonRatings in
  let previous team := previousSeasonRatings ≫= (fun previous => get previous team) in
  keys ratings = NFL_TEAMS
  /\ (forall team, team ∈ NFL_TEAMS -> missing (previous team) = true ->
        get ratings team = Some (Fin 1500))
  /\ (forall team q, team ∈ NFL_TEAMS -> previous team = Some (Fin q) -> ~ (q == 0)%Q ->
        exists r, get ratings team = Some (Fin r)
          /\ (1500 <= r <= q \/ q <= r <= 1500)%Q
          /\ (Qabs (3 * (r - 1500) - (q - 1500)) <= (Qabs q + 1500) * (1 # 2 ^ 50))%Q
          /\ (q == 1500 -> r == 1500)%Q)
  /\ (forall team team' q q' r r',
        team ∈ NFL_TEAMS -> team' ∈ NFL_TEAMS ->
        previous team = Some (Fin q) -> ~ (q == 0)%Q ->
        previous team' = Some (Fin q') -> ~ (q' == 0)%Q ->
        get ratings team = Some (Fin r) -> get ratings team' = Some (Fin r') ->
        (q <= q')%Q -> (r <= r')%Q).
Proof.
  intros ratings previous. subst ratings. rewrite initializeRatings_table.
  assert (forall team q, team ∈ NFL_TEAMS -> previous team = Some (Fin q) -> ~ (q == 0)%Q ->
            exists r, get (map (fun team =>
                 (team,
                  let prevRating := previousSeasonRatings ≫= (fun previous => get previous team) in
                  if missing prevRating then ELO_BASE_RATING
                  else (ELO_BASE_RATING + (num prevRating - ELO_BASE_RATING) * ELO_REGRESSION)%js))
                NFL_TEAMS) team = Some (Fin r)
              /\ (r == 1500 + (q - 1500) * (1 # 3))%Q) as Hexact.
  { intros team q Hteam Hq Hne. rewrite get_table, bool_decide_eq_true_2 by exact Hteam.
    fold (previous team). cbv zeta. rewrite Hq.
    assert (missing (Some (Fin q)) = false) as ->.
    { unfold missing, truthy. rewrite negb_involutive.
      apply not_true_is_false. intros E%Qeq_bool_iff. exact (Hne E). }
    unfold num. cbn [default id]. destruct (regress_Fin q) as (r & -> & Hr).
    exists r. split; [reflexivity | exact Hr]. }
  split; [| split; [| split]].
  - unfold keys. rewrite <- (map_id NFL_TEAMS) at 2.
    change (@fmap list _ _ _ fst) with (@map (string * number) string fst).
    rewrite map_map. reflexivity.
  - intros team Hteam Hmissing. rewrite get_table, bool_decide_eq_true_2 by exact Hteam.
    fold (previous team). cbv zeta. rewrite Hmissing. reflexivity.
  - intros team q Hteam Hq Hne. destruct (Hexact team q Hteam Hq Hne) as (r & E & Hr).
    exists r. split; [exact E |]. split; [| split].
    + destruct (Qlt_le_dec q 1500); [right | left]; split; lra.
    + assert (3 * (r - 1500) - (q - 1500) == 0)%Q as -> by (rewrite Hr; ring).
      change (Qabs 0) with 0%Q.
      apply Qmult_le_0_compat; [| unfold Qle; simpl; lia].
      pose proof (Qabs_nonneg q). lra.
    + intros E0. rewrite Hr, E0. ring.
  - intros team team' q q' r r' Hteam Hteam' Hq Hne Hq' Hne' Er Er' Hle.
    destruct (Hexact team q Hteam Hq Hne) as (x & E & Hx).
    destruct (Hexact team' q' Hteam' Hq' Hne') as (x' & E' & Hx').
    rewrite Er in E. rewrite Er' in E'.
    injection E as ->. injection E' as ->. lra.
Qed.

Lemma initializeRatings_spec_witness :
  get (initializeRatings (Some [("Buffalo Bills", Fin 1560)])) "Buffalo Bills"
    = Some (Fin 1520)
  /\ get (initializeRatings (Some [("Buffalo Bills", Fin 1560)])) "Miami Dolphins"
    = Some (Fin 1500).
Proof.
  destruct (initializeRatings_spec (Some [("Buffalo Bills", Fin 1560)]))
    as (_ & Hmissing & _ & _).
  split; [reflexivity |].
  apply Hmissing; [| reflexivity].
  apply (bool_decide_unpack _). vm_compute. reflexivity.
Defined.

Lemma ge_Fin (x y : Q) : (Fin x >=? Fin y)%js = true <-> (y <= x)%Q.
Proof.
  unfold ge. rewrite orb_true_iff, gt_Fin, eq_Fin. split.
  - intros [L | E]; [apply Qlt_le_weak, L | rewrite E; apply Qle_refl].
  - intros L. apply Qle_lteq in L as [L | E]; [left; exact L | right; symmetry; exact E].
Qed.

Section WithRuntime.

Context `{Runtime} `{Logarithm}.

Lemma missing_truthy (r : number) : truthy r = true -> missing (Some r) = false.
Proof. intros E. unfold missing. rewrite E. reflexivity. Qed.

(** X13.  When the winner or the loser has no rating in the
    table, or the rating 0, [updateRatings] returns the table as it is and
    logs an error.  Otherwise, for two different teams, the winner gains
    and the loser loses the same [change], [K * multiplier * (1 - expected)];
    the ratings of all other teams and the keys of the table stay.
    The two names are not names of properties that objects inherit. *)
Theorem updateRatings_spec (ratings : dict number) (winner loser : string)
    (winnerScore loserScore : number) (w : world) :
  own_name winner -> own_name loser ->
  (missing (get ratings winner) || missing (get ratings loser) = true ->
   updateRatings ratings winner loser winnerScore loserScore w =
   (Return ratings,
    logged LevelError "Cannot update ratings: team not found"
      [("winner", winner); ("loser", loser)] w))
  /\ (forall ratingWinner ratingLoser,
        get ratings winner = Some ratingWinner -> truthy ratingWinner = true ->
        get ratings loser = Some ratingLoser -> truthy ratingLoser = true ->
        winner <> loser ->
        exists change newRatings w',
          updateRatings ratings winner loser winnerScore loserScore w =
            (Return newRatings, w')
          /\ change =
             (ELO_K_FACTOR
              * calculateMOVMultiplier (Math_abs (winnerScore - loserScore))
                  ratingWinner ratingLoser
              * (Fin 1 - calculateWinProbability ratingWinner ratingLoser))%js
          /\ get newRatings winner = Some (ratingWinner + change)%js
          /\ get newRatings loser = Some (ratingLoser - change)%js
          /\ (forall team, team <> winner -> team <> loser ->
                get newRatings team = get ratings team)
          /\ keys newRatings = keys ratings
          /\ clock w' = clock w).
Proof.
  intros _ _. split.
  - intros Hmissing. unfold updateRatings. rewrite Hmissing. reflexivity.
  - intros ratingWinner ratingLoser Ew Tw El Tl Hne.
    unfold updateRatings. rewrite Ew, El, (missing_truthy _ Tw), (missing_truthy _ Tl).
    cbn [orb]. unfold num. cbn [default id]. cbv zeta.
    eexists _, _, _. split; [reflexivity |]. split; [reflexivity |].
    split; [| split; [| split; [| split]]].
    + rewrite get_assign_ne by congruence. apply get_assign_eq.
    + apply get_assign_eq.
    + intros team H1 H2. rewrite !get_assign_ne by congruence. reflexivity.
    + rewrite keys_assign.
      * apply keys_assign, get_is_Some. eauto.
      * rewrite keys_assign; apply get_is_Some; eauto.
    + reflexivity.
Qed.

(** X14.  [getConfidenceLevel] never goes down when the
    difference goes up, and is [low] for NaN; and the confidence of every
    record that [predictGame] returns is [getConfidenceLevel] of the
    [eloDifference] of the record. *)
Theorem getConfidenceLevel_spec :
  (forall x y, (x <= y)%Q ->
     (confidence_level (getConfidenceLevel (Fin x))
      <= confidence_level (getConfidenceLevel (Fin y)))%nat)
  /\ getConfidenceLevel NaN = low
  /\ (forall ratings homeTeam awayTeam w w' p,
        predictGame ratings homeTeam awayTeam w = (Return (Some p), w') ->
        confidence p = getConfidenceLevel (eloDifference p)).
Proof.
  split; [| split; [reflexivity |]].
  - intros x y L. unfold getConfidenceLevel, CONFIDENCE_HIGH_THRESHOLD,
      CONFIDENCE_MEDIUM_THRESHOLD.
    destruct (Fin x >=? Fin 100)%js eqn:X1.
    { apply ge_Fin in X1. assert ((Fin y >=? Fin 100)%js = true) as ->.
      { apply ge_Fin. exact (Qle_trans _ _ _ X1 L). } reflexivity. }
    destruct (Fin y >=? Fin 100)%js; [destruct (Fin x >=? Fin 50)%js; simpl; lia |].
    destruct (Fin x >=? Fin 50)%js eqn:X2; [| destruct (Fin y >=? Fin 50)%js; simpl; lia].
    apply ge_Fin in X2. assert ((Fin y >=? Fin 50)%js = true) as ->
      by (apply ge_Fin; exact (Qle_trans _ _ _ X2 L)). reflexivity.
  - intros ratings homeTeam awayTeam w w' p. unfold predictGame.
    intros (homeRating & w1 & E1 & E)%bind_Return.
    apply bind_Return in E as (awayRating & w2 & E2 & E).
    destruct (missing homeRating || missing awayRating); [discriminate E |].
    injection E as <- _. reflexivity.
Qed.

End WithRuntime.

Lemma updateRatings_spec_witness :
  let ratings := [("Buffalo Bills", Fin 1600); ("Miami Dolphins", Fin 1450)] in
  exists change newRatings w',
    @updateRatings Examples.sample_runtime Examples.sample_logarithm ratings
      "Buffalo Bills" "Miami Dolphins" (Fin 31) (Fin 17) Examples.nothing_logged
    = (Return newRatings, w')
    /\ get newRatings "Buffalo Bills" = Some (Fin 1600 + change)%js
    /\ get newRatings "Miami Dolphins" = Some (Fin 1450 - change)%js
    /\ keys newRatings = ["Buffalo Bills"; "Miami Dolphins"].
Proof.
  intros ratings.
  destruct (@updateRatings_spec Examples.sample_runtime Examples.sample_logarithm ratings
              "Buffalo Bills" "Miami Dolphins" (Fin 31) (Fin 17) Examples.nothing_logged)
    as [_ Hupdate].
  - apply (bool_decide_unpack _). vm_compute. reflexivity.
  - apply (bool_decide_unpack _). vm_compute. reflexivity.
  - destruct (Hupdate (Fin 1600) (Fin 1450))
      as (change & newRatings & w' & E & _ & Hw & Hl & _ & Hk & _);
      try reflexivity; try discriminate.
    exists change, newRatings, w'. split; [exact E |]. split; [exact Hw |].
    split; [exact Hl | exact Hk].
Defined.

(** X15.  For finite ratings, [getPowerRankings] lists every
    entry of the table once, from the highest rating to the lowest, with
    the ranks 1, 2, ... in that order, and each rating printed without
    decimals. *)
Theorem getPowerRankings_spec (ratings : dict number) :
  Forall (fun entry => isFinite (snd entry) = true) ratings ->
  exists order : list (string * number),
    order ≡ₚ ratings
    /\ (forall i j a b, (i <= j)%nat -> order !! i = Some a -> order !! j = Some b ->
          le (snd b) (snd a) = true)
    /\ length (getPowerRankings ratings) = length ratings
    /\ (forall i, getPowerRankings ratings !! i =
                  (fun entry => {| Power.rank := of_nat (i + 1);
                                   Power.team := fst entry;
                                   Power.rating := toFixed (snd entry) 0 |})
                    <$> order !! i).
Proof.
  intros Hfin.
  unfold getPowerRankings.
  match goal with |- context [Array_sort ?c ratings] => set (cmp := c) end.
  set (q := fun entry : string * number => match snd entry with Fin x => x | _ => 0%Q end).
  assert (forall entry, entry ∈ ratings -> snd entry = Fin (q entry)) as Hq.
  { intros entry Hin. rewrite Forall_forall in Hfin. specialize (Hfin entry Hin).
    unfold q. destruct (snd entry); (reflexivity || discriminate). }
  assert (orders_by cmp (fun entry => - q entry)%Q ratings) as Hcmp.
  { intros x y Hx%Hq Hy%Hq. destruct x as [tx rx], y as [ty ry]. cbn [snd] in *.
    unfold cmp. rewrite Hx, Hy, sub_gt_zero.
    apply AllRankingsSpec.Qopp_lt_iff. }
  exists (Array_sort cmp ratings).
  assert (Array_sort cmp ratings ≡ₚ ratings) as Hperm by apply ArrayFacts.Array_sort_perm.
  split; [exact Hperm |]. split; [| split].
  - intros i j a b Hij Ha Hb.
    pose proof (ArrayFacts.sorted_lookup _ _ _ _ _ _
                  (ArrayFacts.Array_sort_sorted cmp _ ratings Hcmp) Hij Ha Hb) as L.
    cbv beta in L.
    rewrite (Hq a), (Hq b) by (rewrite <- Hperm; eapply list_elem_of_lookup_2; eassumption).
    apply le_Fin. lra.
  - rewrite length_imap. rewrite Hperm. reflexivity.
  - intros i. rewrite list_lookup_imap.
    destruct (Array_sort cmp ratings !! i) as [[team rating] |]; reflexivity.
Qed.

Lemma getPowerRankings_spec_witness :
  let ratings :=
    [("Buffalo Bills", Fin 1600); ("Miami Dolphins", Fin 1450);
     ("New York Jets", Fin (3051 # 2))] in
  exists order : list (string * number),
    order ≡ₚ ratings
    /\ (forall i j a b, (i <= j)%nat -> order !! i = Some a -> order !! j = Some b ->
          le (snd b) (snd a) = true)
    /\ length (getPowerRankings ratings) = length ratings
    /\ (forall i, getPowerRankings ratings !! i =
                  (fun entry => {| Power.rank := of_nat (i + 1);
                                   Power.team := fst entry;
                                   Power.rating := toFixed (snd entry) 0 |})
                    <$> order !! i).
Proof.
  apply (getPowerRankings_spec
           [("Buffalo Bills", Fin 1600); ("Miami Dolphins", Fin 1450);
            ("New York Jets", Fin (3051 # 2))]).
  repeat constructor.
Defined.

(** The power rankings of three teams. *)
Example getPowerRankings_three :
  getPowerRankings
    [("Buffalo Bills", Fin 1600); ("Miami Dolphins", Fin 1450);
     ("New York Jets", Fin (3051 # 2))]
  = [{| Power.rank := Fin 1; Power.team := "Buffalo Bills"; Power.rating := "1600" |};
     {| Power.rank := Fin 2; Power.team := "New York Jets"; Power.rating := "1526" |};
     {| Power.rank := Fin 3; Power.team := "Miami Dolphins"; Power.rating := "1450" |}].
Proof. vm_compute. reflexivity. Qed.

Section Scores.

Context `{Runtime}.

Lemma truthy_Fin (q : Q) : ~ (q == 0)%Q -> truthy (Fin q) = true.
Proof.
  intros Hq. unfold truthy. apply negb_true_iff, not_true_is_false.
  intros E%Qeq_bool_iff. exact (Hq E).
Qed.

Lemma adjusted_value (h : Q) :
  has_value (Fin h + HOME_FIELD_ADVANTAGE * Fin 25)%js (h + (125 # 2)).
Proof.
  eapply value_proper; [apply value_add; [apply value_Fin | apply value_mul; apply value_Fin] |].
  ring.
Qed.

(** The two scores of the Elo model, as the integers that are rounded to. *)
Lemma rounded_scores (h a : Q) :
  let adjustedHomeRating := (Fin h + HOME_FIELD_ADVANTAGE * Fin 25)%js in
  let scoreDiff := ((adjustedHomeRating - Fin a) / Fin 25)%js in
  let d := (h + (125 # 2) - a)%Q in
  Math_round (Fin 23 + scoreDiff / Fin 2)%js = Fin (inject_Z (Qfloor (23 + d / 50 + (1 # 2))))
  /\ Math_round (Fin 23 - scoreDiff / Fin 2)%js = Fin (inject_Z (Qfloor (23 - d / 50 + (1 # 2)))).
Proof.
  intros adjustedHomeRating scoreDiff d.
  assert (has_value (scoreDiff / Fin 2)%js (d / 50)) as Hs.
  { eapply value_proper.
    - apply value_div; [apply value_div; [apply value_sub;
        [apply adjusted_value | apply value_Fin] | apply value_Fin |] | apply value_Fin |];
        discriminate.
    - subst d. field. }
  split; apply value_round.
  - apply value_add; [apply value_Fin | exact Hs].
  - apply value_sub; [apply value_Fin | exact Hs].
Qed.

Lemma to_N_le (x y : Z) : (x <= y)%Z -> (Z.to_N x <= Z.to_N y)%N.
Proof. lia. Qed.

(** The record that [predictGame] makes of two ratings that are there,
    finite and not 0. *)
Lemma predictGame_rated (ratings : gmap string number) (homeTeam awayTeam : string)
    (h a : Q) (w : world) :
  ratings !! homeTeam = Some (Fin h) -> ratings !! awayTeam = Some (Fin a) ->
  ~ (h == 0)%Q -> ~ (a == 0)%Q ->
  let d := (h + (125 # 2) - a)%Q in
  let adjustedHomeRating := (Fin h + HOME_FIELD_ADVANTAGE * Fin 25)%js in
  let homeWinProb := calculateWinProbability adjustedHomeRating (Fin a) in
  exists p,
    predictGame (Some ratings) homeTeam awayTeam w = (Return (Some p), w)
    /\ predictedScore p =
       decimal (fst (elo_scores d)) ++ "-" ++ decimal (snd (elo_scores d))
    /\ predictedWinner p = (if (homeWinProb >? Fin (5 # 10))%js then homeTeam else awayTeam)
    /\ has_value (eloDifference p) (Qabs d).
Proof.
  intros Eh Ea Hh Ha d adjustedHomeRating homeWinProb.
  destruct (rounded_scores h a) as [Rh Ra]. cbv zeta in Rh, Ra. fold d in Rh, Ra.
  unfold predictGame, read. unfold mbind at 1, M_bind at 1, mret at 1, M_ret at 1.
  rewrite Eh. unfold mbind at 1, M_bind at 1, mret at 1, M_ret at 1. rewrite Ea.
  rewrite (missing_truthy _ (truthy_Fin h Hh)), (missing_truthy _ (truthy_Fin a Ha)).
  cbn [orb]. unfold num. cbn [default id]. cbv zeta.
  rewrite Rh, Ra, !max_zero_Z.
  eexists. split; [reflexivity |].
  cbn [predictedScore predictedWinner eloDifference].
  rewrite score_string_of_N.
  split; [reflexivity |]. split; [reflexivity |].
  apply value_abs, value_sub; [apply adjusted_value | apply value_Fin].
Qed.

Lemma elo_scores_order (d : Q) :
  ((0 <= d)%Q -> (snd (elo_scores d) <= fst (elo_scores d))%N)
  /\ ((d <= 0)%Q -> (fst (elo_scores d) <= snd (elo_scores d))%N).
Proof.
  unfold elo_scores. cbn [fst snd]. split; intros L; apply to_N_le, Qfloor_resp_le;
    unfold Qdiv; change (/ 50)%Q with (1 # 50)%Q; lra.
Qed.

(** X16.  For two ratings that are there, not 0 and at most
    100000 in size, the Elo [predictGame] returns a record and logs
    nothing.  Its score string writes two natural numbers, and is read
    back as them by the split that [predict] and [checkPrediction] make.
    With [d] the home rating plus 62.5 minus the away rating, the home
    score is not below the away score for [d >= 0], and not above for
    [d <= 0]; and for [d] from -1175 to 1175 the two scores add up to 46
    or 47.  For ratings that are whole numbers the scores are
    23 + d/50 and 23 - d/50, rounded with halves going up, and 0 where
    that is negative. *)
Theorem Elo_predictGame_scores (ratings : gmap string number) (homeTeam awayTeam : string)
    (h a : Q) (w : world) :
  ratings !! homeTeam = Some (Fin h) -> ratings !! awayTeam = Some (Fin a) ->
  ~ (h == 0)%Q -> ~ (a == 0)%Q ->
  (Qabs h <= 100000)%Q -> (Qabs a <= 100000)%Q ->
  let d := (h + (125 # 2) - a)%Q in
  exists p (homeScore awayScore : N),
    predictGame (Some ratings) homeTeam awayTeam w = (Return (Some p), w)
    /\ predictedScore p = decimal homeScore ++ "-" ++ decimal awayScore
    /\ Predictor.parse_score (predictedScore p) = (of_N homeScore, of_N awayScore)
    /\ ((0 <= d)%Q -> (awayScore <= homeScore)%N)
    /\ ((d <= 0)%Q -> (homeScore <= awayScore)%N)
    /\ ((-1175 <= d <= 1175)%Q ->
        (homeScore + awayScore = 46 \/ homeScore + awayScore = 47)%N)
    /\ (forall m n : Z, (h == inject_Z m)%Q -> (a == inject_Z n)%Q ->
          (homeScore, awayScore) = elo_scores d).
Proof.
  intros Eh Ea Hh Ha _ _ d.
  destruct (predictGame_rated ratings homeTeam awayTeam h a w Eh Ea Hh Ha)
    as (p & E & Hscore & _).
  exists p, (fst (elo_scores d)), (snd (elo_scores d)).
  split; [exact E |]. split; [exact Hscore |].
  split; [rewrite Hscore; apply PredictorSpec.parse_score_decimal |].
  split; [apply (proj1 (elo_scores_order d)) |].
  split; [apply (proj2 (elo_scores_order d)) |].
  split; [| intros; reflexivity].
  intros [L U]. unfold elo_scores. cbn [fst snd].
  pose proof (floor_sum (d / 50)) as S. cbv zeta in S.
  assert (0 <= Qfloor (23 + d / 50 + (1 # 2)))%Z as P1.
  { change 0%Z with (Qfloor 0). apply Qfloor_resp_le. clear -L.
    unfold Qdiv. change (/ 50)%Q with (1 # 50)%Q. lra. }
  assert (0 <= Qfloor (23 - d / 50 + (1 # 2)))%Z as P2.
  { change 0%Z with (Qfloor 0). apply Qfloor_resp_le. clear -U.
    unfold Qdiv. change (/ 50)%Q with (1 # 50)%Q. lra. }
  lia.
Qed.

(** A probability [1 / (1 + y)] is over one half exactly for [y] below 1. *)
Lemma over_half (y : Q) : (0 <= y)%Q -> ((1 # 2) < 1 / (1 + y))%Q <-> (y < 1)%Q.
Proof.
  intros Hy. split.
  - intros L. apply Qnot_le_lt. intros G.
    apply (Qlt_not_le _ _ L). apply Qle_shift_div_r; lra.
  - intros L. apply Qlt_shift_div_l; lra.
Qed.

(** The side of one half that the win probability is on, from the side
    of 1 that the power of 10 is on. *)
Lemma win_probability_side (ratingA ratingB : number) (x : Q) :
  power_of_ten Math_pow ->
  has_value ((ratingB - ratingA) / Fin 400)%js x ->
  ((x <= - (1 # 1000))%Q ->
     (calculateWinProbability ratingA ratingB >? Fin (5 # 10))%js = true)
  /\ ((0 <= x)%Q ->
     (calculateWinProbability ratingA ratingB >? Fin (5 # 10))%js = false).
Proof.
  intros Hpow (q & Eq & Hq). unfold calculateWinProbability. rewrite Eq.
  destruct (Hpow q) as [Hlow Hhigh]. split; intros Hx.
  - destruct Hlow as (y & -> & Hy); [rewrite Hq; exact Hx |].
    apply (value_gt _ _ (1 / (1 + y)) (1 # 2)).
    + apply value_div; [apply value_Fin | apply value_add; apply value_Fin |].
      clear -Hy. intros E. lra.
    + eapply value_proper; [apply value_Fin | reflexivity].
    + apply over_half; lra.
  - destruct Hhigh as [(y & -> & Hy) | ->]; [rewrite Hq; exact Hx | | reflexivity].
    apply not_true_is_false. intros G.
    apply (value_gt _ _ (1 / (1 + y)) (1 # 2)) in G.
    + apply over_half in G; lra.
    + apply value_div; [apply value_Fin | apply value_add; apply value_Fin |].
      clear -Hy. intros E. lra.
    + eapply value_proper; [apply value_Fin | reflexivity].
Qed.

(** X17.  Let the power of 10 that the win probability takes
    be on the side of 1 that it is on mathematically: at most 0.998 for an
    exponent of -1/1000 or less, and 1 or more, or Infinity, for an
    exponent of 0 or more.  Then for two ratings that are there, not 0
    and at most 100000 in size, the Elo [predictGame] predicts the away
    team when the home rating plus 62.5 does not exceed the away rating,
    and the home team when it exceeds it by 1/2 or more, which for ratings
    that are whole numbers is whenever it exceeds it; and the predicted
    winner never has the lower predicted score. *)
Theorem Elo_predictGame_winner (ratings : gmap string number) (homeTeam awayTeam : string)
    (h a : Q) (w : world) :
  ratings !! homeTeam = Some (Fin h) -> ratings !! awayTeam = Some (Fin a) ->
  ~ (h == 0)%Q -> ~ (a == 0)%Q ->
  (Qabs h <= 100000)%Q -> (Qabs a <= 100000)%Q ->
  power_of_ten Math_pow ->
  let d := (h + (125 # 2) - a)%Q in
  exists p (homeScore awayScore : N),
    predictGame (Some ratings) homeTeam awayTeam w = (Return (Some p), w)
    /\ predictedScore p = decimal homeScore ++ "-" ++ decimal awayScore
    /\ ((1 # 2 <= d)%Q -> predictedWinner p = homeTeam /\ (awayScore <= homeScore)%N)
    /\ ((d <= 0)%Q -> predictedWinner p = awayTeam /\ (homeScore <= awayScore)%N)
    /\ (forall m n : Z, (h == inject_Z m)%Q -> (a == inject_Z n)%Q -> (0 < d)%Q ->
          predictedWinner p = homeTeam /\ (awayScore <= homeScore)%N).
Proof.
  intros Eh Ea Hh Ha _ _ Hpow d.
  destruct (predictGame_rated ratings homeTeam awayTeam h a w Eh Ea Hh Ha)
    as (p & E & Hscore & Hwinner & _).
  fold d in Hscore.
  exists p, (fst (elo_scores d)), (snd (elo_scores d)).
  split; [exact E |]. split; [exact Hscore |].
  assert (has_value ((Fin a - (Fin h + HOME_FIELD_ADVANTAGE * Fin 25)) / Fin 400)%js
            (- d / 400)) as Hx.
  { eapply value_proper.
    - apply value_div; [apply value_sub; [apply value_Fin | apply adjusted_value]
                       | apply value_Fin | discriminate].
    - subst d. field. }
  destruct (win_probability_side _ _ _ Hpow Hx) as [Hhome Haway].
  assert ((1 # 2 <= d)%Q -> predictedWinner p = homeTeam
                            /\ (snd (elo_scores d) <= fst (elo_scores d))%N) as Hhalf.
  { intros L. split; [| apply (proj1 (elo_scores_order d)); lra].
    rewrite Hwinner, Hhome; [reflexivity |].
    unfold Qdiv. change (/ 400)%Q with (1 # 400)%Q. lra. }
  split; [exact Hhalf | split].
  - intros L. split; [| apply (proj2 (elo_scores_order d)), L].
    rewrite Hwinner, Haway; [reflexivity |].
    unfold Qdiv. change (/ 400)%Q with (1 # 400)%Q. lra.
  - intros m n Em En L. apply Hhalf.
    subst d. rewrite Em, En in L |- *.
    clear -L. unfold Qle, Qlt, Qminus, Qplus, Qopp, inject_Z in *.
    simpl in *. lia.
Qed.

End Scores.

Lemma Elo_predictGame_scores_witness :
  exists p,
    @predictGame Examples.sample_runtime
      (Some {[ "Buffalo Bills" := Fin 1600; "Miami Dolphins" := Fin 1450 ]})
      "Buffalo Bills" "Miami Dolphins" Examples.nothing_logged
    = (Return (Some p), Examples.nothing_logged)
    /\ predictedScore p = "27-19"
    /\ Predictor.parse_score (predictedScore p) = (Fin 27, Fin 19).
Proof.
  destruct (@Elo_predictGame_scores Examples.sample_runtime
              {[ "Buffalo Bills" := Fin 1600; "Miami Dolphins" := Fin 1450 ]}
              "Buffalo Bills" "Miami Dolphins" 1600 1450 Examples.nothing_logged)
    as (p & homeScore & awayScore & E & Hscore & Hparse & _ & _ & _ & Hwhole);
    try (vm_compute; reflexivity); try discriminate.
  specialize (Hwhole 1600%Z 1450%Z (Qeq_refl _) (Qeq_refl _)).
  injection Hwhole as -> ->.
  exists p. split; [exact E |]. split; [exact Hscore | exact Hparse].
Defined.

Lemma sample_power_of_ten : power_of_ten (@Math_pow Examples.sample_runtime).
Proof.
  intros x. cbn [Math_pow Examples.sample_runtime]. split; intros Hx.
  - exists (1 # 2)%Q.
    assert ((Fin x <? Fin 0)%js = true) as -> by (apply lt_Fin; lra).
    split; [reflexivity | lra].
  - left.
    assert ((Fin x <? Fin 0)%js = false) as ->.
    { apply not_true_is_false. intros L%lt_Fin. lra. }
    destruct (Fin 0 <? Fin x)%js; eexists; (split; [reflexivity | lra]).
Qed.

Lemma Elo_predictGame_winner_witness :
  exists p,
    @predictGame Examples.sample_runtime
      (Some {[ "Buffalo Bills" := Fin 1600; "Miami Dolphins" := Fin 1450 ]})
      "Buffalo Bills" "Miami Dolphins" Examples.nothing_logged
    = (Return (Some p), Examples.nothing_logged)
    /\ predictedWinner p = "Buffalo Bills".
Proof.
  destruct (@Elo_predictGame_winner Examples.sample_runtime
              {[ "Buffalo Bills" := Fin 1600; "Miami Dolphins" := Fin 1450 ]}
              "Buffalo Bills" "Miami Dolphins" 1600 1450 Examples.nothing_logged)
    as (p & homeScore & awayScore & E & _ & Hhome & _);
    try (vm_compute; reflexivity); try discriminate.
  - exact sample_power_of_ten.
  - exists p. split; [exact E |]. apply Hhome. vm_compute. discriminate.
Defined.

End EloSpec.


(** ** Finite numbers *)

Module FiniteFacts.

Import JsNumberFacts ValueFacts.

Lemma finite_value (a : number) : isFinite a = true <-> exists q, has_value a q.
Proof.
  split.
  - destruct a as [q | | |]; try discriminate. intros _. exists q. apply value_Fin.
  - intros (q & q' & -> & _). reflexivity.
Qed.











End FiniteFacts.

(** ** The efficiency model *)

Module EfficiencyScoresSpec.

Import StatsParser Efficiency MODEL_CONSTANTS JsNumberFacts JsStringFacts JsEffectFacts
  ValueFacts FiniteFacts.
Local Open Scope string_scope.

Lemma add_NaN_l (b : number) : (NaN + b)%js = NaN.
Proof. destruct b; reflexivity. Qed.

Lemma add_NaN_r (a : number) : (a + NaN)%js = NaN.
Proof. destruct a; reflexivity. Qed.

Lemma sub_NaN_l (b : number) : (NaN - b)%js = NaN.
Proof. destruct b; reflexivity. Qed.

Lemma sub_NaN_r (a : number) : (a - NaN)%js = NaN.
Proof. destruct a; reflexivity. Qed.

Lemma mul_NaN_l (b : number) : (NaN * b)%js = NaN.
Proof. destruct b; reflexivity. Qed.

(** Without the scoring averages of a side, no raw score is a number. *)
Lemma raw_score_no_averages (homeTeamStats awayTeamStats : TeamStats)
    (leagueAverage : LeagueAverage) (rankings : Rankings) :
  avgPointsFor homeTeamStats = None /\ avgPointsAgainst homeTeamStats = None
  \/ avgPointsFor awayTeamStats = None /\ avgPointsAgainst awayTeamStats = None ->
  raw_score true homeTeamStats awayTeamStats leagueAverage rankings = NaN
  /\ raw_score false awayTeamStats homeTeamStats leagueAverage rankings = NaN.
Proof.
  intros Hnone. unfold raw_score. cbv zeta.
  destruct Hnone as [[-> ->] | [-> ->]]; cbn [num default];
    rewrite ?sub_NaN_l, ?mul_NaN_l, ?add_NaN_r, ?sub_NaN_r, ?add_NaN_l, ?sub_NaN_l;
    split; reflexivity.
Qed.

Section WithRuntime.

Context `{Runtime}.

(** The record that [predictGame] makes when all four arguments are
    there, by the raw scores of the two sides. *)
Lemma predictGame_ranked (homeTeamStats awayTeamStats : TeamStats)
    (leagueAverage : LeagueAverage) (rankings : Rankings) (w : world) :
  let homeScore := as_score (raw_score true homeTeamStats awayTeamStats leagueAverage rankings) in
  let awayScore := as_score (raw_score false awayTeamStats homeTeamStats leagueAverage rankings) in
  exists p,
    predictGame (Some homeTeamStats) (Some awayTeamStats) (Some leagueAverage)
      (Some rankings) w = (Return (Some p), w)
    /\ predictedScore p = score_string homeScore awayScore
    /\ predictedWinner p =
       (if (homeScore >? awayScore)%js then teamName homeTeamStats
        else teamName awayTeamStats)
    /\ scoreDifference p = Math_abs (homeScore - awayScore)%js
    /\ confidence p =
       (if (Math_abs (homeScore - awayScore) >=? Fin 10)%js then high
        else if (Math_abs (homeScore - awayScore) >=? Fin 6)%js then medium
        else low).
Proof.
  intros homeScore awayScore. eexists. split; [reflexivity |].
  repeat split; reflexivity.
Qed.



(** X19.  When one of the two aggregates has neither
    [avgPointsFor] nor [avgPointsAgainst], as a team without a game has,
    the efficiency model's [predictGame] still returns a record: the score
    string is "NaN-NaN", the winner is the away team, the score difference
    is not a number and the confidence is low. *)
Theorem Efficiency_predictGame_no_averages (homeTeamStats awayTeamStats : TeamStats)
    (leagueAverage : LeagueAverage) (rankings : Rankings) (w : world) :
  avgPointsFor homeTeamStats = None /\ avgPointsAgainst homeTeamStats = None
  \/ avgPointsFor awayTeamStats = None /\ avgPointsAgainst awayTeamStats = None ->
  exists p,
    predictGame (Some homeTeamStats) (Some awayTeamStats) (Some leagueAverage)
      (Some rankings) w = (Return (Some p), w)
    /\ predictedScore p = "NaN-NaN"
    /\ predictedWinner p = teamName awayTeamStats
    /\ scoreDifference p = NaN
    /\ confidence p = low.
Proof.
  intros Hnone.
  destruct (predictGame_ranked homeTeamStats awayTeamStats leagueAverage rankings w)
    as (p & E & Hscore & Hwinner & Hdiff & Hconf).
  destruct (raw_score_no_averages homeTeamStats awayTeamStats leagueAverage rankings Hnone)
    as [Eh Ea].
  rewrite Eh, Ea in *.
  exists p. split; [exact E |]. split; [exact Hscore |].
  split; [exact Hwinner |]. split; [exact Hdiff | exact Hconf].
Qed.

End WithRuntime.


Lemma Efficiency_predictGame_no_averages_witness :
  exists p,
    @predictGame Examples.sample_runtime (Some Examples.bills)
      (Some (Predictor.with_teamName (Some Examples.no_games) "New York Jets"))
      (Some Examples.fallback) (Some (calculateRankings Examples.four_teams))
      Examples.nothing_logged
    = (Return (Some p), Examples.nothing_logged)
    /\ predictedScore p = "NaN-NaN"
    /\ predictedWinner p = Some "New York Jets"
    /\ scoreDifference p = NaN
    /\ confidence p = low.
Proof.
  apply (@Efficiency_predictGame_no_averages Examples.sample_runtime Examples.bills
           (Predictor.with_teamName (Some Examples.no_games) "New York Jets")).
  right. split; reflexivity.
Defined.

End EfficiencyScoresSpec.

Module EfficiencyRatingSpec.

Import StatsParser Efficiency MODEL_CONSTANTS JsNumberFacts ValueFacts.



(** *** The opposite of a number *)

Lemma neg_add (a b : number) : (neg a + neg b)%js = neg (a + b).
Proof.
  destruct a as [x | | |], b as [y | | |]; try reflexivity.
  cbn [neg add]. f_equal. apply Qred_complete. rewrite !Qred_correct. ring.
Qed.

Lemma neg_sub (a b : number) : (b - a)%js = neg (a - b).
Proof.
  destruct a as [x | | |], b as [y | | |]; try reflexivity.
  cbn [neg add sub]. f_equal. apply Qred_complete. rewrite !Qred_correct. ring.
Qed.

Lemma neg_mul (a : number) (c : Q) : (0 < c)%Q -> (neg a * Fin c)%js = neg (a * Fin c).
Proof.
  intros Hc. apply Qsign_Gt in Hc.
  destruct a as [x | | |]; cbn [neg mul]; rewrite ?Hc; try reflexivity.
  f_equal. apply Qred_complete. rewrite !Qred_correct. ring.
Qed.

(** X21.  The situational adjustment of a team against an
    opponent is the opposite of the opponent's against the team, whatever
    the percentages are, absent ones and 0 included: what one side of a
    game gains the other loses. *)
Theorem calculateSituationalAdjustment_antisymmetric (teamStats opponentStats : TeamStats) :
  calculateSituationalAdjustment opponentStats teamStats =
  neg (calculateSituationalAdjustment teamStats opponentStats).
Proof.
  unfold calculateSituationalAdjustment, thirdDownDiff, redZoneDiff. cbv zeta.
  rewrite (neg_sub (or_default (thirdDownPct teamStats) DEFAULT_THIRD_DOWN_PCT)).
  rewrite (neg_sub (or_default (redZonePct teamStats) DEFAULT_RED_ZONE_PCT)).
  rewrite !neg_mul by reflexivity.
  rewrite <- !neg_add. reflexivity.
Qed.

End EfficiencyRatingSpec.

(** ** The league averages *)

Module LeagueSpec.

Import StatsParser Efficiency JsNumberFacts ValueFacts.






End LeagueSpec.

(** ** The combined predictor *)

Module PredictOutcomeSpec.

Import StatsParser Predictor JsNumberFacts JsStringFacts JsEffectFacts.
Local Open Scope string_scope.

Section WithRuntime.

Context `{Runtime}.

Lemma Elo_predictGame_cases (ratings : gmap string number) (homeTeam awayTeam : string)
    (w : world) :
  (Elo.missing (ratings !! homeTeam) || Elo.missing (ratings !! awayTeam) = true ->
     Elo.predictGame (Some ratings) homeTeam awayTeam w =
     (Return None,
      logged LevelError "Cannot predict: team ratings not found"
        [("homeTeam", homeTeam); ("awayTeam", awayTeam)] w))
  /\ (Elo.missing (ratings !! homeTeam) || Elo.missing (ratings !! awayTeam) = false ->
      exists p, Elo.predictGame (Some ratings) homeTeam awayTeam w = (Return (Some p), w)).
Proof.
  split; intros E; [| eexists]; unfold Elo.predictGame, read;
    unfold mbind at 1, M_bind at 1, mret at 1, M_ret at 1;
    unfold mbind at 1, M_bind at 1, mret at 1, M_ret at 1;
    cbv beta iota; rewrite E; reflexivity.
Qed.

Lemma Efficiency_predictGame_cases (homeTeamStats awayTeamStats : TeamStats)
    (leagueAverage : option Efficiency.LeagueAverage) (rankings : option Rankings)
    (w : world) :
  match leagueAverage, rankings with
  | None, _ =>
      Efficiency.predictGame (Some homeTeamStats) (Some awayTeamStats) leagueAverage
        rankings w =
      (Return None,
       logged LevelError "Missing required stats for efficiency prediction" [] w)
  | Some _, None =>
      Efficiency.predictGame (Some homeTeamStats) (Some awayTeamStats) leagueAverage
        rankings w =
      (Throw (TypeError "rushOffense"), w)
  | Some _, Some _ =>
      exists p,
        Efficiency.predictGame (Some homeTeamStats) (Some awayTeamStats) leagueAverage
          rankings w =
        (Return (Some p), w)
  end.
Proof.
  destruct leagueAverage as [leagueAverage |], rankings as [rankings |];
    try reflexivity.
  eexists. reflexivity.
Qed.

(** What [predict] gives when the table of ratings and the aggregates are
    there, by whether a rating is missing. *)
Lemma outcome_rated (game : Game) (ratings : gmap string number) (t : dict TeamStats)
    (leagueAverage : option Efficiency.LeagueAverage) (rankings : option Rankings)
    (w : world) :
  let context :=
    {| eloRatings := Some ratings; teamStats := Some t;
       Predictor.leagueAverage := leagueAverage; Predictor.rankings := rankings |} in
  let unrated :=
    logged LevelError "Cannot predict: team ratings not found"
      [("homeTeam", game_homeTeam game); ("awayTeam", game_awayTeam game)] w in
  let failed :=
    logged LevelError "Failed to generate predictions"
      [("homeTeam", game_homeTeam game); ("awayTeam", game_awayTeam game)] in
  let no_stats :=
    logged LevelError "Missing required stats for efficiency prediction" [] in
  (Elo.missing (ratings !! game_homeTeam game)
   || Elo.missing (ratings !! game_awayTeam game) = true ->
   predict game context w =
   match leagueAverage, rankings with
   | None, _ => (Return None, failed (no_stats unrated))
   | Some _, None => (Throw (TypeError "rushOffense"), unrated)
   | Some _, Some _ => (Return None, failed unrated)
   end)
  /\ (Elo.missing (ratings !! game_homeTeam game)
      || Elo.missing (ratings !! game_awayTeam game) = false ->
      match leagueAverage, rankings with
      | None, _ => predict game context w = (Return None, failed (no_stats w))
      | Some _, None => predict game context w = (Throw (TypeError "rushOffense"), w)
      | Some _, Some _ => exists p, predict game context w = (Return (Some p), ticked w)
      end).
Proof.
  intros context unrated failed no_stats. subst context.
  split; intros E;
    destruct leagueAverage as [leagueAverage |], rankings as [rankings |];
    try eexists;
    unfold predict, stats_of, Elo.predictGame, read;
    cbn [eloRatings teamStats Predictor.leagueAverage Predictor.rankings];
    unfold mbind, M_bind, mret, M_ret; cbv beta iota; rewrite E; reflexivity.
Qed.

Ltac refute H :=
  decompose [ex and or] H; clear H;
  solve [ discriminate
        | match goal with H' : is_Some None |- _ => destruct H' as [? [=]] end ].

Ltac establish :=
  lazymatch goal with
  | |- _ /\ _ => split; establish
  | |- _ \/ _ => solve [left; establish | right; establish]
  | |- is_Some (Some _) => eexists; reflexivity
  | |- exists _, _ => eexists; establish
  | |- _ = _ => reflexivity
  end.

Ltac settle :=
  split; [| split; [| split; [| split]]];
  [ split; intros Hx; [solve [refute Hx | establish] ..]
  | split; intros Hx; [solve [refute Hx | establish] ..]
  | split; intros Hx; [solve [refute Hx | establish] ..]
  | intros ? ? Hx; first [discriminate Hx | injection Hx as <- <-; reflexivity]
  | intros ? Hx;
    first [discriminate Hx
          | injection Hx as <-; split; [reflexivity | apply last_snoc]] ].

(** X23.  What [predict] does is decided by what the
    context has.  It returns a record exactly when the table of ratings,
    the aggregates, the league average and the rankings are all there and
    both teams have a rating (one that is neither absent, 0 nor NaN); the
    clock is then read once and nothing is logged.  It throws exactly when
    the table of ratings or the aggregates are missing, or the league
    average is there and the rankings are not.  In every other case it
    returns null, and the last entry of the log is then the error "Failed
    to generate predictions" for the two teams.  The names of the two teams
    are not names of properties that objects inherit. *)
Theorem predict_outcomes (game : Game) (context : Context) (w : world) :
  own_name (game_homeTeam game) -> own_name (game_awayTeam game) ->
  let rated :=
    match eloRatings context with
    | Some ratings =>
        negb (Elo.missing (ratings !! game_homeTeam game)
              || Elo.missing (ratings !! game_awayTeam game))
    | None => false
    end in
  ((exists p w', predict game context w = (Return (Some p), w')) <->
     rated = true /\ is_Some (teamStats context) /\ is_Some (leagueAverage context)
     /\ is_Some (rankings context))
  /\ ((exists w', predict game context w = (Return None, w')) <->
      is_Some (eloRatings context) /\ is_Some (teamStats context)
      /\ (leagueAverage context = None
          \/ rated = false /\ is_Some (rankings context)))
  /\ ((exists e w', predict game context w = (Throw e, w')) <->
      eloRatings context = None \/ teamStats context = None
      \/ is_Some (leagueAverage context) /\ rankings context = None)
  /\ (forall p w', predict game context w = (Return (Some p), w') -> w' = ticked w)
  /\ (forall w', predict game context w = (Return None, w') ->
      clock w' = clock w
      /\ last (log w') =
         Some {| level := LevelError; message := "Failed to generate predictions";
                 JsEffect.context := [("homeTeam", game_homeTeam game);
                                      ("awayTeam", game_awayTeam game)] |}).
Proof.
  intros _ _ rated. subst rated.
  destruct context as [[ratings |] [t |] leagueAverage rankings];
    cbn [eloRatings teamStats Predictor.leagueAverage Predictor.rankings].
  - destruct (outcome_rated game ratings t leagueAverage rankings w) as [Hm Hr].
    destruct (Elo.missing _ || Elo.missing _) eqn:Em; cbn [negb].
    + specialize (Hm eq_refl). clear Hr.
      destruct leagueAverage as [leagueAverage |], rankings as [rankings |];
        rewrite Hm; settle.
    + specialize (Hr eq_refl). clear Hm.
      destruct leagueAverage as [leagueAverage |], rankings as [rankings |];
        [destruct Hr as (p & Hr) | | |]; rewrite Hr; settle.
  - assert (predict game
              {| eloRatings := Some ratings; teamStats := None;
                 leagueAverage := leagueAverage; rankings := rankings |} w
            = (Throw (TypeError (game_homeTeam game)),
               if Elo.missing (ratings !! game_homeTeam game)
                  || Elo.missing (ratings !! game_awayTeam game)
               then logged LevelError "Cannot predict: team ratings not found"
                      [("homeTeam", game_homeTeam game);
                       ("awayTeam", game_awayTeam game)] w
               else w)) as ->.
    { unfold predict, stats_of, Elo.predictGame, read.
      cbn [eloRatings teamStats Predictor.leagueAverage Predictor.rankings].
      unfold mbind, M_bind, mret, M_ret. cbv beta iota.
      destruct (Elo.missing _ || Elo.missing _); reflexivity. }
    settle.
  - assert (predict game
              {| eloRatings := None; teamStats := Some t;
                 leagueAverage := leagueAverage; rankings := rankings |} w
            = (Throw (TypeError (game_homeTeam game)), w)) as -> by reflexivity.
    settle.
  - assert (predict game
              {| eloRatings := None; teamStats := None;
                 leagueAverage := leagueAverage; rankings := rankings |} w
            = (Throw (TypeError (game_homeTeam game)), w)) as -> by reflexivity.
    settle.
Qed.

End WithRuntime.

(** A game of a team without a rating: no record, and the error in the
    log. *)
Lemma predict_outcomes_witness :
  exists w',
    @predict Examples.sample_runtime Examples.unrated_game Examples.level_context
      Examples.nothing_logged = (Return None, w')
    /\ clock w' = 0%nat
    /\ last (log w') =
       Some {| level := LevelError; message := "Failed to generate predictions";
               JsEffect.context := [("homeTeam", "Frankfurt Galaxy");
                                    ("awayTeam", "Buffalo Bills")] |}.
Proof.
  destruct (@predict_outcomes Examples.sample_runtime Examples.unrated_game
              Examples.level_context Examples.nothing_logged)
    as (_ & Hnull & _ & _ & Hlog).
  - apply (bool_decide_unpack _). vm_compute. reflexivity.
  - apply (bool_decide_unpack _). vm_compute. reflexivity.
  - destruct Hnull as [_ [w' E]].
    { split; [eexists; reflexivity |]. split; [eexists; reflexivity |].
      right. split; [vm_compute; reflexivity | eexists; reflexivity]. }
    exists w'. split; [exact E |]. exact (Hlog w' E).
Defined.

End PredictOutcomeSpec.

Module PredictScoresSpec.

Import StatsParser Predictor JsNumberFacts JsStringFacts JsEffectFacts ValueFacts
  FiniteFacts.
Local Open Scope string_scope.



Section WithRuntime.

Context `{Runtime}.




End WithRuntime.


End PredictScoresSpec.

Module SeasonStartSpec.

Import StatsParser Predictor JsNumberFacts JsStringFacts JsEffectFacts ValueFacts
  FiniteFacts EfficiencyScoresSpec PredictScoresSpec.
Local Open Scope string_scope.

Section WithRuntime.

Context `{Runtime}.



End WithRuntime.


End SeasonStartSpec.

(** ** The accuracy of checked predictions *)

Module AccuracySpec.

Import StatsParser Predictor JsNumberFacts ValueFacts.
Local Open Scope string_scope.

(** The tiers part the predictions. *)
Lemma tiers_part (p : Prediction -> bool) (predictions : list Prediction) :
  (length (Array_filter p (Array_filter (has_confidence high) predictions))
   + length (Array_filter p (Array_filter (has_confidence medium) predictions))
   + length (Array_filter p (Array_filter (has_confidence low) predictions))
   = length (Array_filter p predictions))%nat.
Proof.
  unfold Array_filter, has_confidence.
  induction predictions as [| x l IH]; [reflexivity |].
  cbn [List.filter]. destruct (confidence x); repeat case_bool_decide; try congruence;
    cbn [List.filter]; destruct (p x); cbn [length]; lia.
Qed.

Lemma filter_all {A} (l : list A) : List.filter (fun _ => true) l = l.
Proof. induction l as [| x l IH]; [reflexivity | cbn; rewrite IH; reflexivity]. Qed.

Lemma filter_length_le {A} (p : A -> bool) (l : list A) :
  (length (List.filter p l) <= length l)%nat.
Proof. induction l as [| x l IH]; [cbn; lia | cbn; destruct (p x); cbn; lia]. Qed.

Lemma of_nat_sub (n c : nat) : (c <= n)%nat -> (of_nat n - of_nat c)%js = of_nat (n - c).
Proof.
  intros L. unfold of_nat, of_Z. cbn [sub add neg]. f_equal.
  rewrite <- (Qred_inject_Z (Z.of_nat (n - c))). apply Qred_complete.
  rewrite !Qred_correct, Nat2Z.inj_sub by exact L.
  unfold Z.sub. rewrite inject_Z_plus, inject_Z_opp. apply Qeq_refl.
Qed.

Lemma of_nat_positive (n : nat) : (of_nat n >? Fin 0)%js = negb (Nat.eqb n 0).
Proof.
  apply eq_true_iff_eq. unfold of_nat, of_Z. rewrite gt_Fin, negb_true_iff, Nat.eqb_neq.
  change 0%Q with (inject_Z 0). rewrite <- Zlt_Qlt. lia.
Qed.

(** A share of [c] in [n] as a percentage. *)
Lemma percentage_value (c n : nat) :
  (c <= n)%nat ->
  exists q,
    has_value (if (of_nat n >? Fin 0)%js then (of_nat c / of_nat n * Fin 100)%js else Fin 0) q
    /\ (0 <= q <= 100)%Q
    /\ (n = 0%nat -> (q == 0)%Q)
    /\ ((0 < n)%nat ->
        (q == inject_Z (Z.of_nat c) / inject_Z (Z.of_nat n) * 100)%Q).
Proof.
  intros L. rewrite of_nat_positive. destruct n as [| n]; cbn [Nat.eqb negb].
  - exists 0%Q. split; [apply value_Fin |]. split; [lra |].
    split; [reflexivity | lia].
  - assert (0 < inject_Z (Z.of_nat (S n)))%Q as Hn
      by (change 0%Q with (inject_Z 0); rewrite <- Zlt_Qlt; lia).
    assert (0 <= inject_Z (Z.of_nat c))%Q as Hc
      by (change 0%Q with (inject_Z 0); rewrite <- Zle_Qle; lia).
    assert (inject_Z (Z.of_nat c) <= inject_Z (Z.of_nat (S n)))%Q as Hcn
      by (rewrite <- Zle_Qle; lia).
    set (x := inject_Z (Z.of_nat c)) in *. set (y := inject_Z (Z.of_nat (S n))) in *.
    exists (x / y * 100)%Q. split.
    { apply value_mul; [| apply value_Fin].
      apply value_div; [apply value_Fin | apply value_Fin |]. lra. }
    assert (0 <= x / y)%Q as P1 by (apply Qle_shift_div_l; lra).
    assert (x / y <= 1)%Q as P2 by (apply Qle_shift_div_r; lra).
    split; [lra |]. split; [discriminate | reflexivity].
Qed.

(** Equal rationals print the same. *)
Lemma toFixed_proper (q q' : Q) (f : nat) :
  (q == q')%Q -> toFixed (Fin q) f = toFixed (Fin q') f.
Proof.
  intros E. unfold toFixed.
  assert (Qsign q = Qsign q') as -> by (unfold Qsign; rewrite E; reflexivity).
  assert (Qfloor (Qabs q * Qpower (10 # 1) (Z.of_nat f) + (1 # 2))
          = Qfloor (Qabs q' * Qpower (10 # 1) (Z.of_nat f) + (1 # 2))) as ->
    by (apply Qfloor_comp; rewrite E; reflexivity).
  reflexivity.
Qed.

(** X26.  In the result of [calculateAccuracy], [total]
    is the number of predictions, [correct] is a count that does not
    exceed it and [incorrect] is the rest, so the two add up to [total].
    [byConfidence] has the three tiers high, medium and low in this order;
    the tiers part the predictions: their totals add up to [total], their
    correct counts to [correct], and no tier has more correct predictions
    than predictions. *)
Theorem calculateAccuracy_counts (predictions : list Prediction) :
  let stats := calculateAccuracy predictions in
  exists (c : nat) (h m l ch cm cl : nat) (ah am al : number),
    Accuracy.total stats = of_nat (length predictions)
    /\ Accuracy.correct stats = of_nat c
    /\ Accuracy.incorrect stats = of_nat (length predictions - c)
    /\ (c <= length predictions)%nat
    /\ Accuracy.byConfidence stats =
       [(high, {| Level.total := of_nat h; Level.correct := of_nat ch;
                  Level.accuracy := ah |});
        (medium, {| Level.total := of_nat m; Level.correct := of_nat cm;
                    Level.accuracy := am |});
        (low, {| Level.total := of_nat l; Level.correct := of_nat cl;
                 Level.accuracy := al |})]
    /\ (h + m + l = length predictions)%nat
    /\ (ch + cm + cl = c)%nat
    /\ (ch <= h)%nat /\ (cm <= m)%nat /\ (cl <= l)%nat.
Proof.
  intros stats. subst stats. unfold calculateAccuracy. cbv zeta.
  cbn [fold_left app Accuracy.total Accuracy.correct Accuracy.incorrect
       Accuracy.byConfidence].
  pose proof (tiers_part is_correct predictions) as Hc.
  pose proof (tiers_part (fun _ => true) predictions) as Ht.
  unfold Array_filter in *. rewrite !filter_all in Ht.
  pose proof (filter_length_le is_correct predictions) as Lc.
  eexists _, _, _, _, _, _, _, _, _, _.
  split; [reflexivity |]. split; [reflexivity |].
  split; [apply of_nat_sub, Lc |]. split; [exact Lc |].
  split; [reflexivity |]. split; [exact Ht |]. split; [exact Hc |].
  split; [| split]; apply filter_length_le.
Qed.

(** X27.  No rate of [calculateAccuracy] is NaN or an
    infinity.  The accuracy is the one-decimal print of a number between 0
    and 100: 0 for no predictions, and otherwise 100 times the correct
    ones over all of them as the machine computes it, a rate that times
    the number of predictions is within [100 * correct * 2^-51] of
    [100 * correct].  The accuracy of each tier is between 0 and 100 as
    well.  For no predictions the accuracy and the average score error
    print as "0.0"; when every prediction is correct the accuracy prints
    as "100.0", and when none is as "0.0". *)
Theorem calculateAccuracy_rates (predictions : list Prediction) :
  let stats := calculateAccuracy predictions in
  (exists (c : nat) (rate : number) (q : Q),
     Accuracy.correct stats = of_nat c
     /\ (c <= length predictions)%nat
     /\ Accuracy.accuracy stats = toFixed rate 1
     /\ has_value rate q
     /\ (0 <= q <= 100)%Q
     /\ (predictions = [] -> (q == 0)%Q)
     /\ (Qabs (q * inject_Z (Z.of_nat (length predictions)) - 100 * inject_Z (Z.of_nat c))
         <= 100 * inject_Z (Z.of_nat c) * (1 # 2 ^ 51))%Q)
  /\ Forall (fun entry => exists q, has_value (Level.accuracy (snd entry)) q
                                    /\ (0 <= q <= 100)%Q)
       (Accuracy.byConfidence stats)
  /\ (predictions = [] ->
      Accuracy.accuracy stats = "0.0" /\ Accuracy.avgScoreError stats = "0.0")
  /\ (predictions <> [] -> Forall (fun p => correct p = Some true) predictions ->
      Accuracy.accuracy stats = "100.0")
  /\ (Forall (fun p => is_correct p = false) predictions ->
      Accuracy.accuracy stats = "0.0").
Proof.
  intros stats. subst stats. unfold calculateAccuracy. cbv zeta.
  cbn [fold_left app Accuracy.total Accuracy.correct Accuracy.accuracy
       Accuracy.byConfidence Accuracy.avgScoreError].
  split; [| split; [| split; [| split]]].
  - destruct (percentage_value _ _ (filter_length_le is_correct predictions))
      as (q & Hq & Hb & H0 & Hn).
    eexists _, _, q. split; [reflexivity |].
    split; [apply filter_length_le |]. split; [reflexivity |].
    split; [exact Hq |]. split; [exact Hb |]. split.
    + intros ->. apply H0. reflexivity.
    + unfold Array_filter in *.
      set (c := length (List.filter is_correct predictions)) in *.
      assert (0 <= inject_Z (Z.of_nat c))%Q as Hc
        by (change 0%Q with (inject_Z 0); rewrite <- Zle_Qle; lia).
      assert (q * inject_Z (Z.of_nat (length predictions)) - 100 * inject_Z (Z.of_nat c)
              == 0)%Q as ->.
      { destruct predictions as [| x l].
        - rewrite (H0 eq_refl). change (inject_Z (Z.of_nat c)) with 0%Q. ring.
        - rewrite Hn by (cbn; lia). field.
          change 0%Q with (inject_Z 0). rewrite inject_Z_injective. cbn [length]. lia. }
      change (Qabs 0) with 0%Q.
      apply Qmult_le_0_compat; [lra | unfold Qle; simpl; lia].
  - repeat (apply List.Forall_cons;
            [cbn [snd Level.accuracy];
             match goal with
             | |- context [(of_nat ?c / of_nat ?n * Fin 100)%js] =>
                 destruct (percentage_value c n (filter_length_le _ _))
                   as (q & Hq & Hb & _)
             end;
             exists q; split; [exact Hq | exact Hb] |]).
    apply List.Forall_nil.
  - intros ->. split; reflexivity.
  - intros Hne Hall.
    assert (Array_filter is_correct predictions = predictions) as ->.
    { unfold Array_filter. induction Hall as [| x l Hx Hl IH]; [reflexivity |].
      cbn [List.filter]. unfold is_correct at 1. rewrite Hx. cbn [default].
      destruct l as [| y l']; [reflexivity |]. rewrite IH by discriminate. reflexivity. }
    rewrite of_nat_positive.
    destruct predictions as [| x l]; [congruence |]. cbn [length Nat.eqb negb].
    assert (has_value (of_nat (S (length l)) / of_nat (S (length l)) * Fin 100)%js 100)
      as (q & -> & Eq).
    { eapply value_proper.
      - apply value_mul; [apply value_div; [apply value_Fin | apply value_Fin |]
                         | apply value_Fin].
        change 0%Q with (inject_Z 0). rewrite inject_Z_injective. lia.
      - field. change 0%Q with (inject_Z 0). rewrite inject_Z_injective. lia. }
    rewrite (toFixed_proper _ _ 1 Eq). reflexivity.
  - intros Hnone.
    assert (Array_filter is_correct predictions = []) as ->.
    { unfold Array_filter. induction Hnone as [| x l Hx Hl IH]; [reflexivity |].
      cbn [List.filter]. rewrite Hx. exact IH. }
    rewrite of_nat_positive.
    destruct predictions as [| x l]; [reflexivity |]. cbn [length Nat.eqb negb].
    assert (has_value (of_nat 0 / of_nat (S (length l)) * Fin 100)%js 0)
      as (q & -> & Eq).
    { eapply value_proper.
      - apply value_mul; [apply value_div; [apply value_Fin | apply value_Fin |]
                         | apply value_Fin].
        change 0%Q with (inject_Z 0). rewrite inject_Z_injective. lia.
      - change (inject_Z (Z.of_nat 0)) with 0%Q. field.
        change 0%Q with (inject_Z 0). rewrite inject_Z_injective. lia. }
    rewrite (toFixed_proper _ _ 1 Eq). reflexivity.
Qed.

(** Three checked predictions, two of them correct. *)
Example calculateAccuracy_three :
  let checked_as (c : Confidence) (b : bool) (e : Q) :=
    {| id := "401772"; gameDate := "2025-11-02T18:00Z";
       homeTeam := "Buffalo Bills"; awayTeam := "Miami Dolphins";
       predictedWinner := "Buffalo Bills"; predictedScore := "24-20";
       spread := Fin 4; confidence := c; timestamp := 0; checked := true;
       models := models Examples.level_prediction;
       correct := Some b; actualWinner := Some "Buffalo Bills";
       actualScore := Some "27-20"; scoreError := Some (Fin e); checkedAt := Some 1%nat |} in
  let stats :=
    calculateAccuracy [checked_as high true 3%Q; checked_as low false 8%Q;
                       checked_as high true 0%Q] in
  Accuracy.accuracy stats = "66.7"
  /\ Accuracy.avgScoreError stats = "3.7"
  /\ Accuracy.incorrect stats = Fin 1
  /\ Level.total <$> (snd <$> Accuracy.byConfidence stats) = [Fin 2; Fin 0; Fin 1]
  /\ Level.accuracy <$> (snd <$> Accuracy.byConfidence stats) = [Fin 100; Fin 0; Fin 0].
Proof. vm_compute. repeat split; reflexivity. Qed.

End AccuracySpec.

Module GradingSpec.

Import StatsParser Predictor JsNumberFacts JsStringFacts JsEffectFacts ValueFacts
  FiniteFacts.
Local Open Scope string_scope.


Section WithRuntime.

Context `{Runtime}.


End WithRuntime.


End GradingSpec.

(** ** The validators *)

Module ValidatorSpec.

Import StatsParser Validator JsNumberFacts JsStringFacts JsEffectFacts JsObjectFacts.
Local Open Scope string_scope.

Lemma isValidTeam_spec (teamName : string) :
  isValidTeam teamName = true <-> teamName ∈ NFL_TEAMS.
Proof.
  unfold isValidTeam, hasOwnProperty. rewrite bool_decide_eq_true, get_is_Some.
  reflexivity.
Qed.

Lemma isValidTeam_nonempty (teamName : string) :
  isValidTeam teamName = true -> nonempty teamName = true.
Proof. destruct teamName; [discriminate | reflexivity]. Qed.

(** The test of a name in [validatePrediction]. *)
Lemma name_test (teamName : string) :
  negb (nonempty teamName) || negb (isValidTeam teamName) = negb (isValidTeam teamName).
Proof.
  destruct (isValidTeam teamName) eqn:E.
  - rewrite (isValidTeam_nonempty _ E). reflexivity.
  - apply orb_true_r.
Qed.

Lemma validatePrediction_valid (p : Predictor.Prediction) :
  valid (validatePrediction (Some p)) =
  nonempty (Predictor.id p) && isValidTeam (Predictor.homeTeam p)
  && isValidTeam (Predictor.awayTeam p) && isValidTeam (Predictor.predictedWinner p).
Proof.
  unfold validatePrediction. cbv zeta. rewrite !name_test.
  assert (bool_decide (Predictor.confidence p ∈ [high; medium; low]) = true) as ->.
  { apply bool_decide_eq_true. destruct (Predictor.confidence p).
    - apply list_elem_of_here.
    - apply list_elem_of_further, list_elem_of_here.
    - do 2 apply list_elem_of_further. apply list_elem_of_here. }
  cbn [negb valid].
  destruct (nonempty (Predictor.id p)), (isValidTeam (Predictor.homeTeam p)),
    (isValidTeam (Predictor.awayTeam p)), (isValidTeam (Predictor.predictedWinner p));
    reflexivity.
Qed.

Lemma validatePrediction_errors (prediction : option Predictor.Prediction) :
  valid (validatePrediction prediction) = true <-> errors (validatePrediction prediction) = [].
Proof.
  destruct prediction as [p |]; [| split; discriminate].
  unfold validatePrediction. cbv zeta. cbn [valid errors].
  rewrite Nat.eqb_eq. split.
  - intros E. apply nil_length_inv, E.
  - intros ->. reflexivity.
Qed.

Section WithRuntime.

Context `{Runtime}.

Lemma combine_winner (game : Predictor.Game) (eloPrediction : Elo.Prediction)
    (efficiencyPrediction : Efficiency.Prediction) (t : nat) :
  let p := Predictor.combine game eloPrediction efficiencyPrediction t in
  Predictor.predictedWinner p = Predictor.game_homeTeam game
  \/ Predictor.predictedWinner p = Predictor.game_awayTeam game.
Proof.
  unfold Predictor.combine.
  destruct (Predictor.parse_score _), (Predictor.parse_score _).
  cbn [Predictor.predictedWinner]. destruct (_ >? _)%js; auto.
Qed.

(** X29.  A record that [predict] returns for a game
    passes [validatePrediction] exactly when the game has a non-empty id
    and its two teams are names of the registry [NFL_TEAMS]: the predicted
    winner is one of the two teams, and the confidence one of the three
    tiers.  The validation is valid exactly when it has no error, and
    [null] is not valid. *)
Theorem validatePrediction_of_predict (game : Predictor.Game) (context : Predictor.Context)
    (w w' : world) (p : Predictor.Prediction) :
  Predictor.predict game context w = (Return (Some p), w') ->
  (valid (validatePrediction (Some p)) = true <->
     Predictor.game_id game <> ""
     /\ Predictor.game_homeTeam game ∈ NFL_TEAMS
     /\ Predictor.game_awayTeam game ∈ NFL_TEAMS)
  /\ (valid (validatePrediction (Some p)) = true <->
      errors (validatePrediction (Some p)) = [])
  /\ valid (validatePrediction None) = false.
Proof.
  intros (eloPrediction & efficiencyPrediction & t & w1 & w2
          & _ & _ & _ & -> & _)%PredictorSpec.predict_Some.
  split; [| split; [apply validatePrediction_errors | reflexivity]].
  rewrite validatePrediction_valid.
  destruct (PredictorSpec.combine_fields game eloPrediction efficiencyPrediction (clock w2))
    as (-> & -> & -> & _).
  rewrite !andb_true_iff, !isValidTeam_spec.
  assert (nonempty (Predictor.game_id game) = true <-> Predictor.game_id game <> "") as ->.
  { destruct (Predictor.game_id game); split; (congruence || reflexivity || discriminate). }
  split; [tauto |]. intros (Hid & Hh & Ha). repeat split; try assumption.
  apply isValidTeam_spec.
  destruct (combine_winner game eloPrediction efficiencyPrediction (clock w2)) as [-> | ->];
    apply isValidTeam_spec; assumption.
Qed.

(** X30.  [validateEloRating] accepts the numbers from 0
    to 3000 and [validateWeek] those from 1 to 18, the bounds included and
    fractions too; both also accept NaN, which is of type number and fails
    neither comparison, and both reject every value that is not a number
    and the two infinities.  Each is valid exactly when it has no error. *)
Theorem validate_ranges (v : value) :
  (valid (validateEloRating v) = true <->
     v = VNum NaN \/ exists q, v = VNum (Fin q) /\ (0 <= q <= 3000)%Q)
  /\ (valid (validateWeek v) = true <->
      v = VNum NaN \/ exists q, v = VNum (Fin q) /\ (1 <= q <= 18)%Q)
  /\ (valid (validateEloRating v) = true <-> errors (validateEloRating v) = [])
  /\ (valid (validateWeek v) = true <-> errors (validateWeek v) = []).
Proof.
  assert (forall lo hi : Q,
            forall n, (n <? Fin lo)%js || (n >? Fin hi)%js = false <->
                      n = NaN \/ exists q, n = Fin q /\ (lo <= q <= hi)%Q) as Hrange.
  { intros lo hi n. rewrite orb_false_iff. destruct n as [q | | |].
    - rewrite <- !not_true_iff_false, lt_Fin, gt_Fin. split.
      + intros [L U]. right. exists q. split; [reflexivity |].
        split; apply Qnot_lt_le; assumption.
      + intros [[=] | (q' & [= <-] & L & U)]. split; apply Qle_not_lt; assumption.
    - split; [auto | split; reflexivity].
    - split; [intros [_ [=]] | intros [[=] | (q & [=] & _)]].
    - split; [intros [[=] _] | intros [[=] | (q & [=] & _)]]. }
  unfold validateEloRating, validateWeek.
  destruct v as [| | b | n | s | o];
    try (repeat split; try discriminate;
         intros [[=] | (q & [=] & _)]).
  pose proof (Hrange 0%Q 3000%Q n) as H1. pose proof (Hrange 1%Q 18%Q n) as H2.
  assert (forall n', VNum n = VNum n' <-> n = n') as Hinj
    by (intros n'; split; congruence).
  assert (forall lo hi : Q,
            (VNum n = VNum NaN \/ exists q, VNum n = VNum (Fin q) /\ (lo <= q <= hi)%Q)
            <-> (n = NaN \/ exists q, n = Fin q /\ (lo <= q <= hi)%Q)) as Hv.
  { intros lo hi. split.
    - intros [[= ->] | (q & [= ->] & L)]; [left | right]; eauto.
    - intros [-> | (q & -> & L)]; [left | right]; eauto. }
  rewrite !Hv, <- H1, <- H2.
  destruct ((n <? Fin 0)%js || (n >? Fin 3000)%js), ((n <? Fin 1)%js || (n >? Fin 18)%js);
    cbn [valid errors]; repeat split; congruence.
Qed.

End WithRuntime.

Lemma validatePrediction_of_predict_witness :
  @Predictor.predict Examples.sample_runtime Examples.sample_game Examples.level_context
    Examples.nothing_logged
  = (Return (Some Examples.level_prediction), ticked Examples.nothing_logged)
  /\ valid (validatePrediction (Some Examples.level_prediction)) = true
  /\ errors (validatePrediction (Some Examples.level_prediction)) = [].
Proof.
  assert (@Predictor.predict Examples.sample_runtime Examples.sample_game
            Examples.level_context Examples.nothing_logged
          = (Return (Some Examples.level_prediction), ticked Examples.nothing_logged)) as E
    by (vm_compute; reflexivity).
  split; [exact E |].
  destruct (@validatePrediction_of_predict Examples.sample_runtime _ _ _ _ _ E)
    as (Hvalid & Herrors & _).
  assert (valid (validatePrediction (Some Examples.level_prediction)) = true) as V.
  { apply Hvalid. split; [discriminate |].
    split; apply isValidTeam_spec; reflexivity. }
  split; [exact V | apply Herrors, V].
Defined.

(** A week that is not a number of a week. *)
Example validateWeek_samples :
  valid (@validateWeek Examples.sample_runtime (VNum NaN)) = true
  /\ valid (@validateWeek Examples.sample_runtime (VNum (Fin (3 # 2)))) = true
  /\ @validateWeek Examples.sample_runtime (VNum (Fin 19)) =
     {| valid := false; errors := ["Week out of range: 19 (must be 1-18)"] |}
  /\ @validateWeek Examples.sample_runtime (VStr "7") =
     {| valid := false; errors := ["Invalid week type: string"] |}.
Proof. repeat split; reflexivity. Qed.

End ValidatorSpec.
